(** * painel_previsao: the GEFS forecast pipeline of [modelo.py]

    A shallow embedding of [modelo.py] (download of one GRIB file per
    forecast hour, extraction of four fields, interpolation to the
    municipalities, daily aggregation) and the properties of its
    specification.

    Conventions of the embedding.
    - A float64 cell of a pandas column is a [cell]: [None] is NaN, a
      finite value is an exact rational.  The rounding of IEEE arithmetic
      and of pandas' compensated reductions is not modelled: what is stated
      of a number is its sign, one difference or one mean of given values,
      not how rounded results add up.
    - A name or a state of the hourly table is a text; where it is missing
      (the NaN that [read_csv] gives for an empty field) it is the empty
      text.
    - A timestamp is the number of whole hours since 1970-01-01T00:00
      (every timestamp of the pipeline is a whole hour, without time zone).
    - A DataFrame is a list of typed rows plus the names of the columns it
      really has; a column that belongs to the frame but was missing in one
      of the concatenated parts holds NaN there, as after [pd.concat].
    - xarray, cfgrib and s3fs are outside the repository: their functions
      are the variables of the sections below.  An xarray [Dataset] is a
      finite map from variable names to arrays. *)

From Stdlib Require Import ZArith QArith Lqa Lia List String Ascii Bool DecimalString.
From Stdlib Require Import Sorting.Permutation Sorting.Sorted OrdersEx.
From stdpp Require Import gmap strings.
Import ListNotations.

Local Open Scope string_scope.
Local Open Scope Z_scope.

(** ** Float cells *)

Definition cell := option Q.

Definition NaN : cell := None.

Definition Qltb (x y : Q) : bool :=
  match (x ?= y)%Q with Lt => true | _ => false end.

(** [x + y], [x - y], [x < y] of two floats; NaN propagates and compares false. *)
Definition cadd (x y : cell) : cell :=
  match x, y with Some a, Some b => Some (a + b)%Q | _, _ => NaN end.

Definition csub (x y : cell) : cell :=
  match x, y with Some a, Some b => Some (a - b)%Q | _, _ => NaN end.

Definition clt (x y : cell) : bool :=
  match x, y with Some a, Some b => Qltb a b | _, _ => false end.

Definition isna (x : cell) : bool :=
  match x with None => true | Some _ => false end.

(** Equality of floats as numbers: the same rational, or both NaN. *)
Definition ceq (x y : cell) : Prop :=
  match x, y with
  | Some a, Some b => (a == b)%Q
  | None, None => True
  | _, _ => False
  end.

(** ** Exceptions *)

Inductive Excecao :=
| KeyError (coluna : string)
| IndexError
| ValueError
| FileNotFoundError.

Inductive Exc (A : Type) :=
| Ok (a : A)
| Raise (e : Excecao).
Arguments Ok {A} a.
Arguments Raise {A} e.

Definition exc_bind {A B} (x : Exc A) (f : A -> Exc B) : Exc B :=
  match x with Ok a => f a | Raise e => Raise e end.

Notation "'tente' x <- c ; k" := (exc_bind c (fun x => k))
  (at level 10, x name, c at level 100, k at level 200).

(** ** CONFIGURAÇÕES BÁSICAS *)

Definition RUN_DATE := "20251210".
Definition HOUR := "00".
Definition MUNICIPIOS_CSV := "config/municipios.csv".

(** [list(range(start, stop, step))] for a positive step. *)
Definition range (start stop step : Z) : list Z :=
  map (fun i => start + step * Z.of_nat i)
      (seq 0 (Z.to_nat ((stop - start + step - 1) / step))).

(** 0–192h de 3 em 3, depois 198–834h de 6 em 6 *)
Definition horas : list Z :=
  (range 0 (192 + 3) 3 ++ range 198 (834 + 6) 6)%list.

(** Days from 1970-01-01 to the civil date [y]-[m]-[d] (proleptic Gregorian). *)
Definition dias_desde_1970 (y m d : Z) : Z :=
  let y' := if m <=? 2 then y - 1 else y in
  let era := y' / 400 in
  let yoe := y' - era * 400 in
  let mp := (m + 9) mod 12 in
  let doy := (153 * mp + 2) / 5 + d - 1 in
  let doe := yoe * 365 + yoe / 4 - yoe / 100 + doy in
  era * 146097 + doe - 719468.

(** Decimal value of a string of digits, as [strptime] reads a field. *)
Definition digito (c : ascii) : Z := Z.of_nat (nat_of_ascii c) - 48.

Definition decimal (s : string) : Z :=
  fold_left (fun acc c => 10 * acc + digito c) (list_ascii_of_string s) 0.

(** [datetime.strptime(RUN_DATE + HOUR, "%Y%m%d%H")], in hours. *)
Definition strptime_YmdH (s : string) : Z :=
  24 * dias_desde_1970 (decimal (substring 0 4 s)) (decimal (substring 4 2 s))
                       (decimal (substring 6 2 s))
  + decimal (substring 8 2 s).

(** ** The tables *)

(** One row of the hourly table [previsoes]. *)
Record Registro := {
  municipio : string;
  uf : string;
  data_previsao : Z;
  t2m : cell;
  tp : cell;
  u10 : cell;
  v10 : cell
}.

(** A DataFrame of hourly rows; [colunas] are the variable columns it has. *)
Record Frame := {
  colunas : list string;
  linhas : list Registro
}.

(** One row of [df_diario], the table written to the CSV file. *)
Record DailyRecord := {
  d_municipio : string;
  d_uf : string;
  d_data_dia : Z;
  d_t2m : cell;
  d_tp : cell;
  d_u10 : cell;
  d_v10 : cell
}.

Definition tem_coluna (c : string) (df : Frame) : bool :=
  existsb (String.eqb c) (colunas df).

(** [pd.concat(registros)]: the rows in order, the union of the columns. *)
Definition concat (registros : list Frame) : Frame :=
  {| colunas := flat_map colunas registros;
     linhas := flat_map linhas registros |}.

(** ** Temporal aggregation (lines 118 to 136 of [gerar_boletim_diario]) *)

(** A name or state cell of the hourly table holds a text or, where the
    field of the location list is empty, the missing value that [read_csv]
    puts there.  The missing value is written as the empty text, which
    [read_csv] never returns as a text. *)
Definition ausente (s : string) : bool := String.eqb s "".

(** Names by code point (bytewise on UTF-8); a missing name comes after
    every name ([na_position="last"]). *)
Definition nome_compare (a b : string) : comparison :=
  match ausente a, ausente b with
  | true, true => Eq
  | true, false => Gt
  | false, true => Lt
  | false, false => String.compare a b
  end.

(** Order of the sort key [["municipio", "data_previsao"]]: names, then
    timestamps. *)
Definition chave_leb (a b : Registro) : bool :=
  match nome_compare (municipio a) (municipio b) with
  | Lt => true
  | Gt => false
  | Eq => data_previsao a <=? data_previsao b
  end.

Fixpoint inserir (x : Registro) (l : list Registro) : list Registro :=
  match l with
  | [] => [x]
  | y :: l' => if chave_leb x y then x :: l else y :: inserir x l'
  end.

(** [previsoes.sort_values(["municipio", "data_previsao"])]: with several
    keys pandas sorts stably, so rows of equal key keep their order. *)
Definition sort_values (df : list Registro) : list Registro :=
  fold_right inserir [] df.

(** [previsoes.groupby("municipio")["tp"].diff()]: each row minus the row
    before it in its group, NaN for the first row of a group and for a row
    without a name, which is in no group.  [anterior] holds the last value
    seen of every group. *)
Fixpoint groupby_diff (anterior : string -> option cell) (df : list Registro)
  : list cell :=
  match df with
  | [] => []
  | r :: df' =>
      if ausente (municipio r) then NaN :: groupby_diff anterior df'
      else
        match anterior (municipio r) with
        | Some p => csub (tp r) p
        | None => NaN
        end
        :: groupby_diff
             (fun m => if String.eqb m (municipio r) then Some (tp r) else anterior m)
             df'
  end.

Definition sem_anterior : string -> option cell := fun _ => None.

(** [s.fillna(v)] with a Series [v] of the same index. *)
Definition fillna (s v : list cell) : list cell :=
  map (fun p => if isna (fst p) then snd p else fst p) (combine s v).

(** [s.clip(lower=lo)]; NaN stays NaN. *)
Definition clip_lower (lo : Q) (s : list cell) : list cell :=
  map (fun x => match x with
                | Some q => if Qltb q lo then Some lo else Some q
                | None => NaN
                end) s.

(** The column [tp_dif] of lines 123 and 124, for a sorted frame. *)
Definition tp_dif (df : list Registro) : list cell :=
  clip_lower 0 (fillna (groupby_diff sem_anterior df) (map tp df)).

(** [.dt.floor("D")] *)
Definition floor_D (t : Z) : Z := 24 * (t / 24).

(** A row of [previsoes] once [tp_dif] and [data_dia] are added. *)
Record Linha := {
  reg : Registro;
  l_tp_dif : cell;
  data_dia : Z
}.

Definition com_tp_dif_e_dia (df : list Registro) : list Linha :=
  map (fun p => {| reg := fst p; l_tp_dif := snd p;
                   data_dia := floor_D (data_previsao (fst p)) |})
      (combine df (tp_dif df)).

(** Group key [["municipio", "uf", "data_dia"]]. *)
Definition Grupo : Type := string * string * Z.

Definition grupo_de (l : Linha) : Grupo :=
  (municipio (reg l), uf (reg l), data_dia l).

Definition grupo_compare (a b : Grupo) : comparison :=
  match String.compare (fst (fst a)) (fst (fst b)) with
  | Eq => match String.compare (snd (fst a)) (snd (fst b)) with
          | Eq => Z.compare (snd a) (snd b)
          | c => c
          end
  | c => c
  end.

Definition grupo_eqb (a b : Grupo) : bool :=
  match grupo_compare a b with Eq => true | _ => false end.

Fixpoint inserir_grupo (k : Grupo) (l : list Grupo) : list Grupo :=
  match l with
  | [] => [k]
  | y :: l' =>
      match grupo_compare k y with
      | Lt => k :: l
      | Eq => l
      | Gt => y :: inserir_grupo k l'
      end
  end.

(** The group keys of a [groupby], each once, in ascending order. *)
Definition grupos (l : list Grupo) : list Grupo :=
  fold_right inserir_grupo [] l.

(** The non-NaN values of a column. *)
Definition validos (l : list cell) : list Q :=
  flat_map (fun x => match x with Some q => [q] | None => [] end) l.

Definition Qsoma (l : list Q) : Q := fold_left Qplus l 0%Q.

(** ["sum"]: NaN skipped, 0 for a group without values. *)
Definition soma (l : list cell) : cell := Some (Qsoma (validos l)).

(** ["mean"]: NaN skipped, NaN for a group without values. *)
Definition media (l : list cell) : cell :=
  match validos l with
  | [] => NaN
  | vs => Some (Qsoma vs / inject_Z (Z.of_nat (List.length vs)))%Q
  end.

Definition membros (k : Grupo) (l : list Linha) : list Linha :=
  List.filter (fun x => grupo_eqb (grupo_de x) k) l.

(** [groupby] leaves out the rows in which a key is missing ([dropna]). *)
Definition chaves_presentes (x : Linha) : bool :=
  negb (ausente (municipio (reg x))) && negb (ausente (uf (reg x))).

(** [groupby([...]).agg({...}).reset_index().rename(columns={"tp_dif": "tp"})] *)
Definition groupby_agg (l : list Linha) : list DailyRecord :=
  map (fun k =>
         let g := membros k l in
         {| d_municipio := fst (fst k);
            d_uf := snd (fst k);
            d_data_dia := snd k;
            d_t2m := media (map (fun x => t2m (reg x)) g);
            d_tp := soma (map l_tp_dif g);
            d_u10 := media (map (fun x => u10 (reg x)) g);
            d_v10 := media (map (fun x => v10 (reg x)) g) |})
      (grupos (map grupo_de (List.filter chaves_presentes l))).

Definition zero_absoluto : Q := (27315 # 100)%Q.

(** [df_diario["t2m"] = df_diario["t2m"] - 273.15] *)
Definition K_para_C (d : DailyRecord) : DailyRecord :=
  {| d_municipio := d_municipio d;
     d_uf := d_uf d;
     d_data_dia := d_data_dia d;
     d_t2m := csub (d_t2m d) (Some zero_absoluto);
     d_tp := d_tp d;
     d_u10 := d_u10 d;
     d_v10 := d_v10 d |}.

(** The table computed from the rows of [previsoes]. *)
Definition tabela_diaria (df : list Registro) : list DailyRecord :=
  map K_para_C (groupby_agg (com_tp_dif_e_dia (sort_values df))).

Definition exigir_coluna (c : string) (df : Frame) : Exc unit :=
  if tem_coluna c df then Ok tt else Raise (KeyError c).

(** The Temporal Aggregator: lines 122 to 136.  Selecting a column that no
    forecast hour supplied raises [KeyError]. *)
Definition agregar (previsoes : Frame) : Exc (list DailyRecord) :=
  tente _ <- exigir_coluna "tp" previsoes;
  tente _ <- exigir_coluna "t2m" previsoes;
  tente _ <- exigir_coluna "u10" previsoes;
  tente _ <- exigir_coluna "v10" previsoes;
  Ok (tabela_diaria (linhas previsoes)).

(** ** The municipalities of [config/municipios.csv] *)

Record Local := {
  loc_municipio : string;
  loc_uf : string;
  lat : cell;
  lon : cell
}.

(** The table read from the CSV file: [m_colunas] are the names of its
    header, a column that is not in the header cannot be selected. *)
Record Municipios := {
  m_colunas : list string;
  m_linhas : list Local
}.

Definition selecionar {A} (c : string) (f : Local -> A) (m : Municipios)
  : Exc (list A) :=
  if existsb (String.eqb c) (m_colunas m)
  then Ok (map f (m_linhas m))
  else Raise (KeyError c).

(** [lambda x: x + 360 if x < 0 else x] *)
Definition lon_360 (x : cell) : cell :=
  if clt x (Some 0%Q) then cadd x (Some 360%Q) else x.

(** One row of the frame returned by [extrair_para_municipios]. *)
Record Ponto := {
  p_municipio : string;
  p_uf : string;
  p_t2m : cell;
  p_tp : cell;
  p_u10 : cell;
  p_v10 : cell
}.

Record FramePontos := {
  fp_colunas : list string;
  fp_linhas : list Ponto
}.

(** [df["data_previsao"] = data_prev] *)
Definition com_data_previsao (data_prev : Z) (df : FramePontos) : Frame :=
  {| colunas := fp_colunas df;
     linhas := map (fun p => {| municipio := p_municipio p; uf := p_uf p;
                                data_previsao := data_prev;
                                t2m := p_t2m p; tp := p_tp p;
                                u10 := p_u10 p; v10 := p_v10 p |})
                   (fp_linhas df) |}.

(** ** GRIB filters and messages *)

Record Filtro := {
  shortName : string;
  typeOfLevel : string;
  level : option Z
}.

Definition filtro_t2m :=
  {| shortName := "2t"; typeOfLevel := "heightAboveGround"; level := Some 2 |}.
Definition filtro_tp :=
  {| shortName := "tp"; typeOfLevel := "surface"; level := None |}.
Definition filtro_u10 :=
  {| shortName := "10u"; typeOfLevel := "heightAboveGround"; level := Some 10 |}.
Definition filtro_v10 :=
  {| shortName := "10v"; typeOfLevel := "heightAboveGround"; level := Some 10 |}.

Definition rename_map : list (string * string) :=
  [("2t", "t2m"); ("10u", "u10"); ("10v", "v10")].

Definition PREFIX : string :=
  "gefs." ++ RUN_DATE ++ "/" ++ HOUR ++ "/atmos/pgrb2ap5".

(** [f"{n:03d}"] for [0 <= n]. *)
Definition fmt_03d (n : Z) : string :=
  let s := NilZero.string_of_int (Z.to_int n) in
  match String.length s with
  | 1%nat => "00" ++ s
  | 2%nat => "0" ++ s
  | _ => s
  end.

Definition path_s3 (forecast_hour : Z) : string :=
  "s3://noaa-gefs-pds/" ++ PREFIX ++ "/geavg.t" ++ HOUR ++ "z.pgrb2a.0p50.f"
  ++ fmt_03d forecast_hour.

(** What the run prints. *)
Inductive Mensagem :=
| FalhaAoBaixar (forecast_hour : Z)
| NenhumDadoEncontrado (forecast_hour : Z)
| ErroAoAbrir (forecast_hour : Z)
| NenhumaPrevisaoValida
| ArquivoSalvo.

(** What the run does to the outside, in order. *)
Inductive Evento :=
| S3Open (path : string)
| Print (m : Mensagem)
| ToCsv (df_diario : list DailyRecord).

(** ** The pipeline over its environment *)

Section Pipeline.

(** An xarray [DataArray] and the content of a GRIB file. *)
Variable DataArray : Type.
Variable Grib : Type.

Record Dataset := {
  latitude : list Q;
  variaveis : gmap string DataArray
}.

(** The scratch directory: the temporary files by name, with the content
    copied into them ([None] while no download has completed). *)
Local Abbreviation Disco := (gmap nat (option Grib)).

(** A computation reads and changes the scratch directory and emits events. *)
Definition M (A : Type) : Type := Disco -> A * Disco * list Evento.

Definition ret {A} (a : A) : M A := fun d => (a, d, []).

Definition bind {A B} (m : M A) (f : A -> M B) : M B :=
  fun d =>
    let '(a, d1, e1) := m d in
    let '(b, d2, e2) := f a d1 in
    (b, d2, (e1 ++ e2)%list).

Definition emitir (e : Evento) : M unit := fun d => (tt, d, [e]).

Definition print (m : Mensagem) : M unit := emitir (Print m).

Local Notation "'faz' x <- c ; k" := (bind c (fun x => k))
  (at level 10, x name, c at level 100, k at level 200).

(** The remote store: the object at a path, or an exception. *)
Variable s3 : string -> option Grib.
(** [xr.open_dataset(engine="cfgrib", filter_by_keys=...)] on the content
    of a file: a dataset, or an exception. *)
Variable cfgrib : Grib -> Filtro -> option Dataset.
(** [ds.sortby("latitude")] and [DataArray.interp(latitude=, longitude=)]. *)
Variable sortby_latitude : Dataset -> Dataset.
Variable interp : DataArray -> list cell -> list cell -> list cell.
(** [pd.read_csv(MUNICIPIOS_CSV, sep='|')] *)
Variable read_csv : Exc Municipios.

(** *** FUNÇÕES AUXILIARES *)

Record TempFile := {
  tmp_name : nat;
  tmp_delete : bool
}.

(** [tempfile.NamedTemporaryFile(suffix=".grib2", delete=...)]: a new file
    under a name not in use. *)
Definition NamedTemporaryFile (delete : bool) : M TempFile :=
  fun d =>
    let n := fresh (dom d) in
    ({| tmp_name := n; tmp_delete := delete |}, <[n := None]> d, []).

(** Leaving the [with] block closes the file; closing removes it only
    when it was created with [delete=True]. *)
Definition fechar (tmp : TempFile) : M unit :=
  fun d =>
    (tt, if tmp_delete tmp then base.delete (tmp_name tmp) d else d, []).

(** [with fs.open(path_s3, "rb") as fsrc: shutil.copyfileobj(fsrc, tmp)];
    [false] when it raises. *)
Definition baixar (path : string) (tmp : TempFile) : M bool :=
  fun d =>
    match s3 path with
    | Some g => (true, <[tmp_name tmp := Some g]> d, [S3Open path])
    | None => (false, d, [S3Open path])
    end.

(** Abre apenas uma variável do GRIB conforme o filtro especificado. *)
Definition abrir_subset (local_path : nat) (filtro : Filtro)
  : M (option Dataset) :=
  fun d =>
    (match d !! local_path with
     | Some (Some g) => cfgrib g filtro
     | _ => None
     end, d, []).

(** What the four filters find in the content of a file. *)
Definition subsets (g : Grib) : list (option Dataset) :=
  [cfgrib g filtro_t2m; cfgrib g filtro_tp;
   cfgrib g filtro_u10; cfgrib g filtro_v10].

(** [xr.merge(dsets, compat="override")] of datasets on one grid, as the
    subsets of one file are: of two variables of the same name the one of
    the first dataset is kept. *)
Definition merge (dsets : list Dataset) : Dataset :=
  {| latitude := match dsets with d :: _ => latitude d | [] => [] end;
     variaveis := ⋃ (map variaveis dsets) |}.

(** [ds.rename({k: v for k, v in rename_map.items() if k in ds})]; xarray
    raises when the new name is already a variable of the dataset. *)
Fixpoint rename_vars (pares : list (string * string))
         (vs : gmap string DataArray) : option (gmap string DataArray) :=
  match pares with
  | [] => Some vs
  | (k, v) :: pares' =>
      match vs !! k with
      | None => rename_vars pares' vs
      | Some a =>
          match vs !! v with
          | Some _ => None
          | None => rename_vars pares' (<[v := a]> (base.delete k vs))
          end
      end
  end.

Definition rename (ds : Dataset) : option Dataset :=
  match rename_vars rename_map (variaveis ds) with
  | Some vs => Some {| latitude := latitude ds; variaveis := vs |}
  | None => None
  end.

Definition nao_nulos (l : list (option Dataset)) : list Dataset :=
  flat_map (fun o => match o with Some d => [d] | None => [] end) l.

(** Baixa e abre um arquivo GRIB do GEFS via S3, retornando um Dataset
    com t2m, tp, u10 e v10. *)
Definition abrir_gefs_grib (forecast_hour : Z) : M (option Dataset) :=
  faz tmp <- NamedTemporaryFile false;
  let local_path := tmp_name tmp in
  faz baixou <- baixar (path_s3 forecast_hour) tmp;
  if negb baixou then
    faz _ <- print (FalhaAoBaixar forecast_hour);
    faz _ <- fechar tmp;
    ret None
  else
    faz _ <- fechar tmp;
    faz ds_t2m <- abrir_subset local_path filtro_t2m;
    faz ds_tp <- abrir_subset local_path filtro_tp;
    faz ds_u10 <- abrir_subset local_path filtro_u10;
    faz ds_v10 <- abrir_subset local_path filtro_v10;
    let dsets := nao_nulos [ds_t2m; ds_tp; ds_u10; ds_v10] in
    match dsets with
    | [] =>
        faz _ <- print (NenhumDadoEncontrado forecast_hour);
        ret None
    | _ =>
        match rename (merge dsets) with
        | Some ds => ret (Some ds)
        | None =>
            faz _ <- print (ErroAoAbrir forecast_hour);
            ret None
        end
    end.

(** [dados[v] = ds[v].interp(...).values] for the variables of the dataset;
    [interp] raises [ValueError] when it is given no point. *)
Definition interpolar (ds : Dataset) (municipios : Municipios)
           (lon_360s : list cell) (v : string) : Exc (option (list cell)) :=
  match variaveis ds !! v with
  | None => Ok None
  | Some a =>
      tente lats <- selecionar "lat" lat municipios;
      match lats with
      | [] => Raise ValueError
      | _ :: _ => Ok (Some (interp a lats lon_360s))
      end
  end.

Definition valor (col : option (list cell)) (i : nat) : cell :=
  match col with
  | Some vs => nth i vs NaN
  | None => NaN
  end.

Definition nomes_presentes (cols : list (string * option (list cell)))
  : list string :=
  flat_map (fun c => match snd c with Some _ => [fst c] | None => [] end) cols.

(** Interpola bilinearmente o dataset (lat, lon) para as coordenadas dos
    municípios. *)
Definition extrair_para_municipios (ds : Dataset) (municipios : Municipios)
  : Exc FramePontos :=
  tente ds <- match latitude ds with
              | [] => Raise IndexError
              | primeiro :: _ =>
                  if Qltb (List.last (latitude ds) primeiro) primeiro
                  then Ok (sortby_latitude ds)
                  else Ok ds
              end;
  tente lons <- selecionar "lon" lon municipios;
  let lon_360s := map lon_360 lons in
  tente c_t2m <- interpolar ds municipios lon_360s "t2m";
  tente c_tp <- interpolar ds municipios lon_360s "tp";
  tente c_u10 <- interpolar ds municipios lon_360s "u10";
  tente c_v10 <- interpolar ds municipios lon_360s "v10";
  tente nomes <- selecionar "municipio" loc_municipio municipios;
  tente ufs <- selecionar "uf" loc_uf municipios;
  Ok {| fp_colunas := nomes_presentes
          [("t2m", c_t2m); ("tp", c_tp); ("u10", c_u10); ("v10", c_v10)];
        fp_linhas :=
          map (fun i => {| p_municipio := nth i nomes "";
                           p_uf := nth i ufs "";
                           p_t2m := valor c_t2m i;
                           p_tp := valor c_tp i;
                           p_u10 := valor c_u10 i;
                           p_v10 := valor c_v10 i |})
              (seq 0 (List.length (m_linhas municipios))) |}.

(** *** PIPELINE PRINCIPAL *)

(** The loop over [horas]; an exception of the interpolation ends the run. *)
Fixpoint laco (municipios : Municipios) (hs : list Z) (registros : list Frame)
  : M (Exc (list Frame)) :=
  match hs with
  | [] => ret (Ok registros)
  | fhr :: hs' =>
      faz ds <- abrir_gefs_grib fhr;
      match ds with
      | None => laco municipios hs' registros
      | Some ds =>
          let data_prev := strptime_YmdH (RUN_DATE ++ HOUR) + fhr in
          match extrair_para_municipios ds municipios with
          | Raise e => ret (Raise e)
          | Ok df =>
              laco municipios hs'
                   (registros ++ [com_data_previsao data_prev df])%list
          end
      end
  end.

Definition gerar_boletim_diario : M (Exc unit) :=
  match read_csv with
  | Raise e => ret (Raise e)
  | Ok municipios =>
      faz r <- laco municipios horas [];
      match r with
      | Raise e => ret (Raise e)
      | Ok [] =>
          faz _ <- print NenhumaPrevisaoValida;
          ret (Ok tt)
      | Ok registros =>
          match agregar (concat registros) with
          | Raise e => ret (Raise e)
          | Ok df_diario =>
              faz _ <- emitir (ToCsv df_diario);
              faz _ <- print ArquivoSalvo;
              ret (Ok tt)
          end
      end
  end.

End Pipeline.

Arguments latitude {DataArray} d.
Arguments variaveis {DataArray} d.
Arguments ret {Grib A} a.
Arguments bind {Grib A B} m f.
Arguments emitir {Grib} e.
Arguments print {Grib} m.
Arguments NamedTemporaryFile {Grib} delete.
Arguments fechar {Grib} tmp.
Arguments baixar {Grib} s3 path tmp.
Arguments abrir_subset {DataArray Grib} cfgrib local_path filtro.
Arguments subsets {DataArray Grib} cfgrib g.
Arguments merge {DataArray} dsets.
Arguments rename_vars {DataArray} pares vs.
Arguments rename {DataArray} ds.
Arguments nao_nulos {DataArray} l.
Arguments abrir_gefs_grib {DataArray Grib} s3 cfgrib forecast_hour.
Arguments interpolar {DataArray} interp ds municipios lon_360s v.
Arguments extrair_para_municipios {DataArray} sortby_latitude interp ds municipios.
Arguments laco {DataArray Grib} s3 cfgrib sortby_latitude interp municipios hs registros.
Arguments gerar_boletim_diario {DataArray Grib} s3 cfgrib sortby_latitude interp read_csv.

(** ** Concrete environments *)

Module Exemplo.

(** A remote store without any object, and one that serves every path. *)
Definition s3_vazio : string -> option unit := fun _ => None.
Definition s3_cheio : string -> option unit := fun _ => Some tt.

(** A GRIB reader that finds no variable, and one that finds the four. *)
Definition cfgrib_nada : unit -> Filtro -> option (Dataset Q) :=
  fun _ _ => None.
Definition cfgrib_tudo : unit -> Filtro -> option (Dataset Q) :=
  fun _ f =>
    Some {| latitude := [0%Q; 1%Q];
            variaveis := {[ shortName f := 1%Q ]} |}.

(** A reader that finds the variables selected by four flags. *)
Definition cfgrib_parcial (b_t2m b_tp b_u10 b_v10 : bool)
  : unit -> Filtro -> option (Dataset Q) :=
  fun _ f =>
    let achou :=
      (b_t2m && String.eqb (shortName f) "2t")
      || (b_tp && String.eqb (shortName f) "tp")
      || (b_u10 && String.eqb (shortName f) "10u")
      || (b_v10 && String.eqb (shortName f) "10v") in
    if achou
    then Some {| latitude := [0%Q; 1%Q];
                 variaveis := {[ shortName f := 1%Q ]} |}
    else None.

(** A reader that opens every filter without an error and finds no message
    for it: the dataset it gives has no variable. *)
Definition cfgrib_vazio : unit -> Filtro -> option (Dataset Q) :=
  fun _ _ => Some {| latitude := []; variaveis := ∅ |}.


(** An interpolation that returns the longitude it is asked for. *)
Definition interp_lon (a : Q) (lats lons : list cell) : list cell := lons.

Definition sortby_id (ds : Dataset Q) : Dataset Q := ds.

Definition local (nome sigla : string) (la lo : Q) : Local :=
  {| loc_municipio := nome; loc_uf := sigla; lat := Some la; lon := Some lo |}.

Definition um_municipio (lo : Q) : Municipios :=
  {| m_colunas := ["municipio"; "uf"; "lat"; "lon"];
     m_linhas := [local "Curitiba" "PR" (-25) lo] |}.


Definition hora (nome sigla : string) (t : Z) (chuva : Q) : Registro :=
  {| municipio := nome; uf := sigla; data_previsao := t;
     t2m := Some 300%Q; tp := Some chuva; u10 := Some 1%Q; v10 := Some 2%Q |}.

(** Hours 0, 3 and 6 of one location, and a series with a reset. *)
Definition tres_horas : list Registro :=
  [hora "Curitiba" "PR" 0 0; hora "Curitiba" "PR" 3 2; hora "Curitiba" "PR" 6 5].
Definition com_queda : list Registro :=
  [hora "Curitiba" "PR" 0 5; hora "Curitiba" "PR" 3 3].

(** Two municipalities of the same name in two states, hours 0 and 3, in
    the order in which the loop concatenates them. *)
Definition homonimos : list Registro :=
  [hora "Bom Jesus" "PI" 0 1; hora "Bom Jesus" "RS" 0 10;
   hora "Bom Jesus" "PI" 3 2; hora "Bom Jesus" "RS" 3 12].

(** The same four rows with the two rows of hour 0 in the other order. *)
Definition homonimos_trocados : list Registro :=
  [hora "Bom Jesus" "RS" 0 10; hora "Bom Jesus" "PI" 0 1;
   hora "Bom Jesus" "PI" 3 2; hora "Bom Jesus" "RS" 3 12].

(** Hours 0, 3 and 6 of the run day at one location, with three
    temperatures and winds. *)
Definition tres_temperaturas : list Registro :=
  [{| municipio := "Curitiba"; uf := "PR"; data_previsao := 490368;
      t2m := Some 300%Q; tp := Some 0%Q; u10 := Some 1%Q; v10 := Some 2%Q |};
   {| municipio := "Curitiba"; uf := "PR"; data_previsao := 490371;
      t2m := Some 301%Q; tp := Some 2%Q; u10 := Some 2%Q; v10 := Some 4%Q |};
   {| municipio := "Curitiba"; uf := "PR"; data_previsao := 490374;
      t2m := Some 305%Q; tp := Some 5%Q; u10 := Some 6%Q; v10 := Some (-3)%Q |}].

End Exemplo.


(** ** Predicates of the statements *)

(** Two locations that the interpolation cannot tell apart. *)
Definition mesmo_ponto (a b : Local) : Prop :=
  loc_municipio a = loc_municipio b /\ loc_uf a = loc_uf b /\
  lat a = lat b /\ lon_360 (lon a) = lon_360 (lon b).

(** The run wrote the output file. *)
Definition escreveu (ev : list Evento) : Prop :=
  exists df_diario, In (ToCsv df_diario) ev.


(** A frame of [registros] comes from an hour that gave a dataset which
    the interpolation accepted. *)
Definition origem {DataArray Grib : Type}
           (s3 : string -> option Grib)
           (cfgrib : Grib -> Filtro -> option (Dataset DataArray))
           (sortby : Dataset DataArray -> Dataset DataArray)
           (interp : DataArray -> list cell -> list cell -> list cell)
           (m : Municipios) (hs : list Z) (f : Frame) : Prop :=
  exists h ds df,
    In h hs /\
    (forall d0 : gmap nat (option Grib),
        (abrir_gefs_grib s3 cfgrib h d0).1.1 = Some ds) /\
    extrair_para_municipios sortby interp ds m = Ok df /\
    f = com_data_previsao (strptime_YmdH (RUN_DATE ++ HOUR) + h) df.

(** The rows of one municipality name, and the increments computed for them. *)
Definition serie (m : string) (df : list Registro) : list Registro :=
  List.filter (fun r => String.eqb (municipio r) m) df.

Definition incrementos (m : string) (df : list Registro) : list cell :=
  map snd (List.filter (fun p => String.eqb (municipio (fst p)) m)
                  (combine df (tp_dif df))).

(** The rows of one location, a municipality name with its state, and the
    increments that lines 123 and 124 give them. *)
Definition do_local (m u : string) (r : Registro) : bool :=
  String.eqb (municipio r) m && String.eqb (uf r) u.

Definition serie_do_local (m u : string) (df : list Registro) : list Registro :=
  List.filter (do_local m u) df.

Definition incrementos_do_local (m u : string) (df : list Registro)
  : list cell :=
  map snd (List.filter (fun p => do_local m u (fst p))
                  (combine df (tp_dif df))).

(** No location of another state has the name [m]. *)
Definition nome_exclusivo (m u : string) (df : list Registro) : Prop :=
  forall r, In r df -> municipio r = m -> uf r = u.

(** The sort key of a row, and the (location, day) group it falls in. *)
Definition chave_ordenacao (r : Registro) : string * Z :=
  (municipio r, data_previsao r).

Definition grupo_do_registro (r : Registro) : Grupo :=
  (municipio r, uf r, floor_D (data_previsao r)).

Definition do_grupo (k : Grupo) (df : list Registro) : list Registro :=
  List.filter (fun r => grupo_eqb (grupo_do_registro r) k) df.

(** The arithmetic mean, as the specification words it: the sum of the
    values divided by their number; and the values of a column that are not
    missing. *)
Definition soma_aritmetica (qs : list Q) : Q := fold_right Qplus 0%Q qs.

Definition media_aritmetica (qs : list Q) : Q :=
  (soma_aritmetica qs / inject_Z (Z.of_nat (List.length qs)))%Q.

Fixpoint valores_presentes (cs : list cell) : list Q :=
  match cs with
  | [] => []
  | Some q :: cs' => q :: valores_presentes cs'
  | None :: cs' => valores_presentes cs'
  end.

(** The hourly rows of the municipality [m] of the state [u] whose forecast
    time is in the 24 hours that start at [dia]. *)
Definition linhas_do_dia (m u : string) (dia : Z) (df : list Registro)
  : list Registro :=
  List.filter (fun r => String.eqb (municipio r) m && String.eqb (uf r) u
                        && (dia <=? data_previsao r)
                        && (data_previsao r <? dia + 24))
              df.

(** A number clamped at zero from below. *)
Definition Qclip (x : Q) : Q := if Qltb x 0 then 0%Q else x.

(** Lines 123 and 124 on the cells of one series: [anterior] is the cell of
    the row before, if there is one. *)
Definition clip0 (x : cell) : cell :=
  match x with
  | Some q => if Qltb q 0 then Some 0%Q else Some q
  | None => NaN
  end.

Fixpoint incrementos_serie (anterior : option cell) (cs : list cell)
  : list cell :=
  match cs with
  | [] => []
  | c :: cs' =>
      let d := match anterior with Some p => csub c p | None => NaN end in
      clip0 (if isna d then c else d) :: incrementos_serie (Some c) cs'
  end.

(** The order of the sort key, as a relation. *)
Definition chave_le (a b : Registro) : Prop := chave_leb a b = true.

(** The value that the interpolation of variable [v] gives for the [i]-th
    location of the list: the lookup is made at the latitudes and the
    normalised longitudes of the list. *)
Definition interpolado {DataArray : Type}
           (interp : DataArray -> list cell -> list cell -> list cell)
           (ds : Dataset DataArray) (m : Municipios) (v : string) (i : nat)
  : cell :=
  match variaveis ds !! v with
  | Some a =>
      nth i (interp a (map lat (m_linhas m))
                      (map lon_360 (map lon (m_linhas m)))) NaN
  | None => NaN
  end.

(** The row that the interpolation gives for the [i]-th location. *)
Definition linha_interpolada {DataArray : Type}
           (interp : DataArray -> list cell -> list cell -> list cell)
           (ds : Dataset DataArray) (m : Municipios) (i : nat) : Ponto :=
  {| p_municipio := nth i (map loc_municipio (m_linhas m)) "";
     p_uf := nth i (map loc_uf (m_linhas m)) "";
     p_t2m := interpolado interp ds m "t2m" i;
     p_tp := interpolado interp ds m "tp" i;
     p_u10 := interpolado interp ds m "u10" i;
     p_v10 := interpolado interp ds m "v10" i |}.

(** ** Predicates of the further properties *)

(** The four variable names that the pipeline looks for, in its order. *)
Definition quatro : list string := ["t2m"; "tp"; "u10"; "v10"].

(** The header of the location list has column [c]. *)
Definition tem (c : string) (m : Municipios) : bool :=
  existsb (String.eqb c) (m_colunas m).

(** [ds.latitude[0] > ds.latitude[-1]] and the dataset that is interpolated:
    sorted by latitude when that test holds. *)
Definition latitude_decrescente {DataArray : Type} (ds : Dataset DataArray)
  : bool :=
  match latitude ds with
  | [] => false
  | primeiro :: _ => Qltb (List.last (latitude ds) primeiro) primeiro
  end.

Definition orientado {DataArray : Type}
           (sortby : Dataset DataArray -> Dataset DataArray)
           (ds : Dataset DataArray) : Dataset DataArray :=
  if latitude_decrescente ds then sortby ds else ds.

(** Whether the location list has no row. *)
Definition sem_linhas (m : Municipios) : bool :=
  match m_linhas m with [] => true | _ :: _ => false end.

(** [v in ds] *)
Definition tem_variavel {DataArray : Type} (ds : Dataset DataArray)
           (v : string) : bool :=
  match variaveis ds !! v with Some _ => true | None => false end.

(** The names that a list of renamings touches. *)
Definition nomes (ps : list (string * string)) : list string :=
  (map fst ps ++ map snd ps)%list.

(** What is under the name [x] once the pairs [ps] are renamed in [vs]:
    nothing under a name that is renamed away, the renamed array (or, when
    there is none, what was there) under a new name, and the same as before
    under any other name. *)
Fixpoint renomeado {DataArray : Type} (ps : list (string * string))
         (vs : gmap string DataArray) (x : string) : option DataArray :=
  match ps with
  | [] => vs !! x
  | (k, v) :: ps' =>
      if String.eqb x k then None
      else if String.eqb x v
           then match vs !! k with Some a => Some a | None => vs !! v end
           else renomeado ps' vs x
  end.

Definition conflito {DataArray : Type} (ps : list (string * string))
           (vs : gmap string DataArray) : Prop :=
  exists k v, In (k, v) ps /\ is_Some (vs !! k) /\ is_Some (vs !! v).

(** The remote objects requested and the messages printed, in order. *)
Definition buscas (ev : list Evento) : list string :=
  flat_map (fun e => match e with S3Open p => [p] | _ => [] end) ev.

Definition mensagens (ev : list Evento) : list Mensagem :=
  flat_map (fun e => match e with Print x => [x] | _ => [] end) ev.

(** The dataset that [abrir_gefs_grib] returns for an hour (the scratch
    directory plays no part in it). *)
Definition dataset_da_hora {DataArray Grib : Type}
           (s3 : string -> option Grib)
           (cfgrib : Grib -> Filtro -> option (Dataset DataArray))
           (h : Z) : option (Dataset DataArray) :=
  (abrir_gefs_grib s3 cfgrib h (∅ : gmap nat (option Grib))).1.1.

(** The frame that an hour adds to [registros], if it adds one. *)
Definition frames_da_hora {DataArray Grib : Type}
           (s3 : string -> option Grib)
           (cfgrib : Grib -> Filtro -> option (Dataset DataArray))
           (sortby : Dataset DataArray -> Dataset DataArray)
           (interp : DataArray -> list cell -> list cell -> list cell)
           (m : Municipios) (h : Z) : list Frame :=
  match dataset_da_hora s3 cfgrib h with
  | Some ds =>
      match extrair_para_municipios sortby interp ds m with
      | Ok df => [com_data_previsao (strptime_YmdH (RUN_DATE ++ HOUR) + h) df]
      | Raise _ => []
      end
  | None => []
  end.

(** The interpolation of the dataset of an hour raises [e]. *)
Definition hora_levanta {DataArray Grib : Type}
           (s3 : string -> option Grib)
           (cfgrib : Grib -> Filtro -> option (Dataset DataArray))
           (sortby : Dataset DataArray -> Dataset DataArray)
           (interp : DataArray -> list cell -> list cell -> list cell)
           (m : Municipios) (h : Z) (e : Excecao) : Prop :=
  exists ds,
    dataset_da_hora s3 cfgrib h = Some ds /\
    extrair_para_municipios sortby interp ds m = Raise e.

(** The key of a row of the daily table, and the order of the keys. *)
Definition chave_diaria (d : DailyRecord) : Grupo :=
  (d_municipio d, d_uf d, d_data_dia d).

Definition grupo_lt (a b : Grupo) : Prop := grupo_compare a b = Lt.

(** Ascending order of the keys: by municipality, then by state, then by
    day; texts by code point. *)
Definition chave_menor (a b : Grupo) : Prop :=
  String.compare (fst (fst a)) (fst (fst b)) = Lt \/
  (fst (fst a) = fst (fst b) /\
   (String.compare (snd (fst a)) (snd (fst b)) = Lt \/
    (snd (fst a) = snd (fst b) /\ snd a < snd b))).

(** One hourly row, three hours into the run day, in which no variable has
    a value, and the row of the daily table it gives. *)
Module ExemploDiario.

Definition sem_dados : list Registro :=
  [{| municipio := "Curitiba"; uf := "PR"; data_previsao := 490371;
      t2m := NaN; tp := NaN; u10 := NaN; v10 := NaN |}].

Definition dia_sem_dados : DailyRecord :=
  {| d_municipio := "Curitiba"; d_uf := "PR"; d_data_dia := 490368;
     d_t2m := NaN; d_tp := Some 0%Q; d_u10 := NaN; d_v10 := NaN |}.

(** The row that the daily table has for the three hours of
    [Exemplo.tres_temperaturas]: 28.85 degrees, 5, 3 and 1, as the fractions
    that the arithmetic leaves. *)
Definition dia_com_dados : DailyRecord :=
  {| d_municipio := "Curitiba"; d_uf := "PR"; d_data_dia := 490368;
     d_t2m := Some (8655 # 300)%Q; d_tp := Some 5%Q;
     d_u10 := Some (9 # 3)%Q; d_v10 := Some (3 # 3)%Q |}.

End ExemploDiario.

(** ** The dashboard: data preparation of [painel.py]

    [df_prev] is the table read from the forecast file, with the columns
    that [gerar_boletim_diario] writes; [df_mun] is the location list.
    Wind speed and direction (square root, arc tangent) and the drawing are
    left out. *)

(** [x / 1000] *)
Definition por_mil (x : cell) : cell :=
  match x with Some a => Some (a / 1000)%Q | None => NaN end.

(** [df_prev["tp"] = df_prev["tp"] / 1000] *)
Definition em_mm (d : DailyRecord) : DailyRecord :=
  {| d_municipio := d_municipio d;
     d_uf := d_uf d;
     d_data_dia := d_data_dia d;
     d_t2m := d_t2m d;
     d_tp := por_mil (d_tp d);
     d_u10 := d_u10 d;
     d_v10 := d_v10 d |}.

(** A row of [df]: a forecast row with the coordinates joined to it. *)
Record LinhaPainel := {
  p_dia : DailyRecord;
  p_lat : cell;
  p_lon : cell
}.

Definition chave_local (l : Local) : string * string :=
  (loc_municipio l, loc_uf l).

Definition mesma_chave (d : DailyRecord) (l : Local) : bool :=
  String.eqb (loc_municipio l) (d_municipio d)
  && String.eqb (loc_uf l) (d_uf d).

(** [df_prev.merge(df_mun, on=["municipio", "uf"], how="left")]: the rows of
    the left table in their order, each one once for every row of the right
    table with its key, in the order of the right table, and once with NaN
    when there is none. *)
Definition merge_left (df_prev : list DailyRecord) (df_mun : list Local)
  : list LinhaPainel :=
  flat_map
    (fun d =>
       match List.filter (mesma_chave d) df_mun with
       | [] => [{| p_dia := d; p_lat := NaN; p_lon := NaN |}]
       | ls => map (fun l => {| p_dia := d; p_lat := lat l; p_lon := lon l |}) ls
       end)
    df_prev.

(** Lines 24 and 27.  A key column that the location list lacks raises
    [KeyError]. *)
Definition preparar (df_prev : list DailyRecord) (df_mun : Municipios)
  : Exc (list LinhaPainel) :=
  if negb (tem "municipio" df_mun) then Raise (KeyError "municipio")
  else if negb (tem "uf" df_mun) then Raise (KeyError "uf")
  else Ok (merge_left (map em_mm df_prev) (m_linhas df_mun)).

(** [df[df["municipio"] == muni]] *)
Definition selecionar_municipio (muni : string) (df : list LinhaPainel)
  : list LinhaPainel :=
  List.filter (fun x => String.eqb (d_municipio (p_dia x)) muni) df.


Definition temperatura_media (df_sel : list LinhaPainel) : cell :=
  media (map (fun x => d_t2m (p_dia x)) df_sel).

(** [df_sel["lat"].iloc[0], df_sel["lon"].iloc[0]] *)
Definition local_do_mapa (df_mun : Municipios) (df_sel : list LinhaPainel)
  : Exc (cell * cell) :=
  if negb (tem "lat" df_mun) then Raise (KeyError "lat")
  else match df_sel with
       | [] => Raise IndexError
       | x :: _ =>
           if negb (tem "lon" df_mun) then Raise (KeyError "lon")
           else Ok (p_lat x, p_lon x)
       end.

(** A forecast table of one location with rain on two days, and the list
    that holds this location. *)
Module ExemploPainel.

Definition dia (nome sigla : string) (t : Z) (chuva : Q) : DailyRecord :=
  {| d_municipio := nome; d_uf := sigla; d_data_dia := t;
     d_t2m := Some 20%Q; d_tp := Some chuva; d_u10 := Some 1%Q;
     d_v10 := Some 2%Q |}.

Definition dois_dias : list DailyRecord :=
  [dia "Curitiba" "PR" 490368 2000; dia "Curitiba" "PR" 490392 3000].

End ExemploPainel.

(** ** Float cells: facts *)

Lemma Qltb_lt (x y : Q) : Qltb x y = true <-> (x < y)%Q.
Proof.
  unfold Qltb. rewrite Qlt_alt. destruct (x ?= y)%Q; split; congruence.
Qed.

Lemma Qltb_ge (x y : Q) : Qltb x y = false <-> (y <= x)%Q.
Proof.
  rewrite <- Bool.not_true_iff_false, Qltb_lt. split.
  - apply Qnot_lt_le.
  - intros H1 H2. apply (Qlt_not_le _ _ H2 H1).
Qed.

(** ** Point Interpolator: longitude *)

Lemma lon_360_negativo (x : Q) :
  (x < 0)%Q -> lon_360 (Some x) = Some (x + 360)%Q.
Proof.
  intros H. unfold lon_360, clt. apply Qltb_lt in H. rewrite H. reflexivity.
Qed.

Lemma lon_360_nao_negativo (x : Q) :
  (0 <= x)%Q -> lon_360 (Some x) = Some x.
Proof.
  intros H. unfold lon_360, clt. apply Qltb_ge in H. rewrite H. reflexivity.
Qed.

Lemma map_Forall2_eq {A B} (P : A -> A -> Prop) (f : A -> B) (l l' : list A) :
  (forall a b, P a b -> f a = f b) -> Forall2 P l l' -> map f l = map f l'.
Proof.
  intros Hf H. induction H; simpl; [reflexivity|].
  f_equal; auto.
Qed.

Lemma extrair_mesmo_ponto DataArray sortby interp (ds : Dataset DataArray)
      (m m' : Municipios) :
  m_colunas m = m_colunas m' ->
  Forall2 mesmo_ponto (m_linhas m) (m_linhas m') ->
  extrair_para_municipios sortby interp ds m
  = extrair_para_municipios sortby interp ds m'.
Proof.
  intros Hc Hl.
  assert (Hlen : List.length (m_linhas m) = List.length (m_linhas m'))
    by (eapply Forall2_length; eauto).
  assert (Hlon : map lon_360 (map lon (m_linhas m))
                 = map lon_360 (map lon (m_linhas m'))).
  { rewrite !map_map. eapply map_Forall2_eq; [|exact Hl].
    intros a b (_ & _ & _ & H). exact H. }
  assert (Hlat : map lat (m_linhas m) = map lat (m_linhas m')).
  { eapply map_Forall2_eq; [|exact Hl]. intros a b (_ & _ & H & _). exact H. }
  assert (Hn : map loc_municipio (m_linhas m) = map loc_municipio (m_linhas m')).
  { eapply map_Forall2_eq; [|exact Hl]. intros a b (H & _). exact H. }
  assert (Hu : map loc_uf (m_linhas m) = map loc_uf (m_linhas m')).
  { eapply map_Forall2_eq; [|exact Hl]. intros a b (_ & H & _). exact H. }
  unfold extrair_para_municipios, interpolar, selecionar.
  rewrite <- Hc, <- Hlen, <- Hlat, <- Hn, <- Hu.
  destruct (latitude ds) as [|primeiro resto]; [reflexivity|].
  set (ds' := if Qltb _ _ then _ else _). destruct ds' as [ds'|e]; [|reflexivity].
  cbn [exc_bind].
  destruct (existsb (String.eqb "lon") (m_colunas m)); [|reflexivity].
  cbn [exc_bind]. rewrite <- Hlon. reflexivity.
Qed.

(** ** Point Interpolator: the frame of one hour *)

(** The whole of [extrair_para_municipios], one case after the other. *)
Lemma extrair_para_municipios_casos {DataArray} sortby interp
      (ds : Dataset DataArray) (m : Municipios) :
  extrair_para_municipios sortby interp ds m =
  match latitude ds with
  | [] => Raise IndexError
  | _ :: _ =>
      let ds' := orientado sortby ds in
      if negb (tem "lon" m) then Raise (KeyError "lon")
      else if negb (tem "lat" m) && existsb (tem_variavel ds') quatro
      then Raise (KeyError "lat")
      else if sem_linhas m && existsb (tem_variavel ds') quatro
      then Raise ValueError
      else if negb (tem "municipio" m) then Raise (KeyError "municipio")
      else if negb (tem "uf" m) then Raise (KeyError "uf")
      else Ok {| fp_colunas := List.filter (tem_variavel ds') quatro;
                 fp_linhas := map (linha_interpolada interp ds' m)
                                  (seq 0 (List.length (m_linhas m))) |}
  end.
Proof.
  unfold extrair_para_municipios, interpolar, selecionar, orientado,
    latitude_decrescente, tem, quatro, linha_interpolada, interpolado,
    tem_variavel, nomes_presentes, valor, sem_linhas.
  destruct (latitude ds) as [|p0 resto]; cbn [exc_bind]; [reflexivity|].
  cbv zeta.
  set (ds' := if Qltb _ _ then sortby ds else ds).
  replace (if Qltb (List.last (p0 :: resto) p0) p0
           then Ok (sortby ds) else Ok ds) with (Ok ds')
    by (unfold ds'; destruct (Qltb _ _); reflexivity).
  clearbody ds'. cbn [exc_bind existsb List.filter].
  destruct (existsb (String.eqb "lon") (m_colunas m)); cbn [exc_bind negb];
    [|reflexivity].
  destruct (m_linhas m) as [|l0 ls]; cbn [map];
    destruct (existsb (String.eqb "lat") (m_colunas m));
    destruct (variaveis ds' !! "t2m");
    destruct (variaveis ds' !! "tp");
    destruct (variaveis ds' !! "u10");
    destruct (variaveis ds' !! "v10");
    cbn [exc_bind negb andb orb]; try reflexivity;
    destruct (existsb (String.eqb "municipio") (m_colunas m));
    cbn [exc_bind negb]; try reflexivity;
    destruct (existsb (String.eqb "uf") (m_colunas m));
    cbn [exc_bind negb flat_map fst snd app]; reflexivity.
Qed.

(** What a successful call returns: one row per location, each variable
    column holding the values of [interp] as they come. *)
Lemma extrair_para_municipios_Ok {DataArray} sortby interp
      (ds : Dataset DataArray) (m : Municipios) (df : FramePontos) :
  extrair_para_municipios sortby interp ds m = Ok df ->
  exists ds',
    (ds' = ds \/ ds' = sortby ds) /\
    fp_linhas df
    = map (linha_interpolada interp ds' m) (seq 0 (List.length (m_linhas m))).
Proof.
  rewrite extrair_para_municipios_casos.
  destruct (latitude ds) as [|p0 resto]; [discriminate|]. cbv zeta.
  destruct (negb (tem "lon" m)); [discriminate|].
  destruct (negb (tem "lat" m) && _); [discriminate|].
  destruct (sem_linhas m && _); [discriminate|].
  destruct (negb (tem "municipio" m)); [discriminate|].
  destruct (negb (tem "uf" m)); [discriminate|].
  intros H. injection H as <-. exists (orientado sortby ds). split.
  - unfold orientado. destruct (latitude_decrescente ds); auto.
  - reflexivity.
Qed.

Lemma nth_error_map_seq {A} (f : nat -> A) (n i : nat) (x : A) :
  nth_error (map f (seq 0 n)) i = Some x -> x = f i.
Proof.
  rewrite nth_error_map. destruct (nth_error (seq 0 n) i) as [j|] eqn:Hj;
    [|discriminate].
  intros H. injection H as <-.
  assert (Hi : (i < List.length (seq 0 n))%nat)
    by (apply nth_error_Some; congruence).
  rewrite length_seq in Hi.
  rewrite (nth_error_nth' _ 0%nat) in Hj by (rewrite length_seq; exact Hi).
  rewrite seq_nth in Hj by exact Hi. injection Hj as <-. reflexivity.
Qed.

(** C9. Every longitude goes through [lon_360] before the lookup: a negative
    value becomes the value plus 360; the rows of a frame hold what [interp]
    gives at the normalised longitudes of the list; the frame depends on the
    longitudes only through their normalised values, and so a location at
    -50.0 gives the frame of the same location at 310.0. *)
Theorem C9_longitude_normalizada_antes_da_busca :
  (forall x : Q, (x < 0)%Q -> lon_360 (Some x) = Some (x + 360)%Q) /\
  lon_360 (Some (-50)%Q) = lon_360 (Some 310%Q) /\
  (forall DataArray sortby interp (ds : Dataset DataArray) m df,
      extrair_para_municipios sortby interp ds m = Ok df ->
      exists ds',
        (ds' = ds \/ ds' = sortby ds) /\
        fp_linhas df
        = map (linha_interpolada interp ds' m)
              (seq 0 (List.length (m_linhas m)))) /\
  (forall DataArray sortby interp (ds : Dataset DataArray) (m m' : Municipios),
      m_colunas m = m_colunas m' ->
      Forall2 mesmo_ponto (m_linhas m) (m_linhas m') ->
      extrair_para_municipios sortby interp ds m
      = extrair_para_municipios sortby interp ds m') /\
  (forall DataArray sortby interp (ds : Dataset DataArray)
          cols antes depois nome sigla la,
      extrair_para_municipios sortby interp ds
        {| m_colunas := cols;
           m_linhas := antes ++ {| loc_municipio := nome; loc_uf := sigla;
                                   lat := la; lon := Some (-50)%Q |} :: depois |}
      = extrair_para_municipios sortby interp ds
        {| m_colunas := cols;
           m_linhas := antes ++ {| loc_municipio := nome; loc_uf := sigla;
                                   lat := la; lon := Some 310%Q |} :: depois |}).
Proof.
  split; [exact lon_360_negativo|].
  split; [reflexivity|].
  split; [intros; apply extrair_para_municipios_Ok; assumption|].
  split; [intros; apply extrair_mesmo_ponto; assumption|].
  intros. apply extrair_mesmo_ponto; [reflexivity|]. simpl.
  apply Forall2_app.
  - induction antes; constructor; auto. repeat split.
  - constructor.
    + repeat split.
    + induction depois; constructor; auto. repeat split.
Qed.

Lemma C9_witness :
  lon_360 (Some (-50)%Q) = Some (-50 + 360)%Q /\
  extrair_para_municipios Exemplo.sortby_id Exemplo.interp_lon
    {| latitude := [0%Q; 1%Q]; variaveis := {[ "tp" := 1%Q ]} |}
    (Exemplo.um_municipio (-50))
  = extrair_para_municipios Exemplo.sortby_id Exemplo.interp_lon
    {| latitude := [0%Q; 1%Q]; variaveis := {[ "tp" := 1%Q ]} |}
    (Exemplo.um_municipio 310).
Proof.
  split.
  - apply (proj1 C9_longitude_normalizada_antes_da_busca). reflexivity.
  - apply (proj1 (proj2 (proj2 (proj2 C9_longitude_normalizada_antes_da_busca)))).
    + reflexivity.
    + repeat constructor.
Defined.

(** C10 as stated fails at -360.0: the normalised value is 0, not negative. *)
Lemma C10_menos_360_vira_zero :
  lon_360 (Some (-360)%Q) = Some 0%Q /\
  ~ (forall x : Q, (x <= -360)%Q ->
       exists y, lon_360 (Some x) = Some y /\ (y < 0)%Q).
Proof.
  split; [reflexivity|].
  intros H. destruct (H (-360)%Q) as (y & Hy & Hneg); [lra|].
  vm_compute in Hy. injection Hy as <-. lra.
Qed.

(** C10 (amended). The normalisation adds 360 once to a strictly negative
    longitude and leaves every other value as it is: 370.0 stays 370.0, a
    value of 360 or more is not reduced, NaN stays NaN, and a value
    strictly below -360 is still negative afterwards. *)
Theorem C10_lon_360_so_negativos_uma_vez :
  (forall x : cell,
      lon_360 x = if clt x (Some 0%Q) then cadd x (Some 360%Q) else x) /\
  (forall x : Q, (x < 0)%Q -> lon_360 (Some x) = Some (x + 360)%Q) /\
  (forall x : Q, (0 <= x)%Q -> lon_360 (Some x) = Some x) /\
  (forall x : Q, (360 <= x)%Q -> lon_360 (Some x) = Some x) /\
  lon_360 (Some 370%Q) = Some 370%Q /\
  lon_360 NaN = NaN /\
  (forall x : Q, (x < -360)%Q ->
     exists y, lon_360 (Some x) = Some y /\ (y < 0)%Q).
Proof.
  repeat split.
  - exact lon_360_negativo.
  - exact lon_360_nao_negativo.
  - intros x H. apply lon_360_nao_negativo. lra.
  - intros x H. exists (x + 360)%Q. split; [apply lon_360_negativo|]; lra.
Qed.

Lemma C10_witness :
  lon_360 (Some (-50)%Q) = Some (-50 + 360)%Q /\
  lon_360 (Some 400%Q) = Some 400%Q /\
  exists y, lon_360 (Some (-400)%Q) = Some y /\ (y < 0)%Q.
Proof.
  destruct C10_lon_360_so_negativos_uma_vez as (_ & Hneg & _ & Hge & _ & _ & Hlt).
  split; [apply Hneg; reflexivity|].
  split; [apply Hge; discriminate|].
  apply Hlt. reflexivity.
Defined.

(** ** Remote Fetcher and Field Extractor *)

Section Extrator.

Context {DataArray Grib : Type}.
Variable s3 : string -> option Grib.
Variable cfgrib : Grib -> Filtro -> option (Dataset DataArray).

(** The whole of [abrir_gefs_grib]: the scratch file is created under a
    new name and stays on disk with whatever was downloaded; the result
    and the messages follow from the download and the four filters. *)
Lemma abrir_gefs_grib_eq (fhr : Z) (d : gmap nat (option Grib)) :
  abrir_gefs_grib s3 cfgrib fhr d =
  let n := fresh (dom d) in
  let d' := <[n := s3 (path_s3 fhr)]> d in
  match s3 (path_s3 fhr) with
  | None => (None, d', [S3Open (path_s3 fhr); Print (FalhaAoBaixar fhr)])
  | Some g =>
      match nao_nulos (subsets cfgrib g) with
      | [] => (None, d',
               [S3Open (path_s3 fhr); Print (NenhumDadoEncontrado fhr)])
      | dsets =>
          match rename (merge dsets) with
          | Some ds => (Some ds, d', [S3Open (path_s3 fhr)])
          | None => (None, d', [S3Open (path_s3 fhr); Print (ErroAoAbrir fhr)])
          end
      end
  end.
Proof.
  unfold abrir_gefs_grib, bind, NamedTemporaryFile, baixar, fechar,
    abrir_subset, print, emitir, ret, subsets.
  cbn [tmp_name tmp_delete].
  destruct (s3 (path_s3 fhr)) as [g|]; cbn [negb].
  - rewrite insert_insert_eq, lookup_insert_eq.
    destruct (nao_nulos _) as [|d0 l]; [reflexivity|].
    destruct (rename (merge (d0 :: l))); reflexivity.
  - reflexivity.
Qed.

(** The dataset returned, apart from the scratch directory and the events. *)
Lemma abrir_gefs_grib_dataset (fhr : Z) (d : gmap nat (option Grib)) :
  (abrir_gefs_grib s3 cfgrib fhr d).1.1 =
  match s3 (path_s3 fhr) with
  | None => None
  | Some g =>
      match nao_nulos (subsets cfgrib g) with
      | [] => None
      | dsets => rename (merge dsets)
      end
  end.
Proof.
  rewrite abrir_gefs_grib_eq. cbv zeta.
  destruct (s3 (path_s3 fhr)) as [g|]; [|reflexivity].
  destruct (nao_nulos (subsets cfgrib g)) as [|d0 l]; [reflexivity|].
  destruct (rename (merge (d0 :: l))); reflexivity.
Qed.

End Extrator.

(** C5 as stated fails: whether the download fails, no variable is found or
    the extraction succeeds, the scratch file (the first name of an empty
    directory) is still there when the call returns. *)
Lemma C5_arquivo_temporario_nao_e_apagado :
  let d0 : gmap nat (option unit) := ∅ in
  let tmp := fresh (dom d0) in
  (abrir_gefs_grib Exemplo.s3_vazio Exemplo.cfgrib_nada 0 d0).1.2 !! tmp
  = Some None /\
  (abrir_gefs_grib Exemplo.s3_cheio Exemplo.cfgrib_nada 0 d0).1.2 !! tmp
  = Some (Some tt) /\
  (abrir_gefs_grib Exemplo.s3_cheio Exemplo.cfgrib_tudo 0 d0).1.2 !! tmp
  = Some (Some tt) /\
  (abrir_gefs_grib Exemplo.s3_cheio Exemplo.cfgrib_tudo 0 d0).1.1 <> None.
Proof.
  vm_compute. repeat split; discriminate.
Qed.

(** C5 (amended). The scratch file of a call is created under a name not in
    use and is closed, never deleted: on every exit path the directory after
    the call is the directory before it plus that file, holding what the
    download delivered. *)
Theorem C5_arquivo_temporario_permanece :
  forall (DataArray Grib : Type) (s3 : string -> option Grib)
         (cfgrib : Grib -> Filtro -> option (Dataset DataArray))
         (fhr : Z) (d : gmap nat (option Grib)),
    let tmp := fresh (dom d) in
    let d' := (abrir_gefs_grib s3 cfgrib fhr d).1.2 in
    d !! tmp = None /\
    d' = <[tmp := s3 (path_s3 fhr)]> d /\
    is_Some (d' !! tmp) /\
    (forall k, is_Some (d !! k) -> d' !! k = d !! k).
Proof.
  intros DataArray Grib s3 cfgrib fhr d tmp d'.
  assert (Hfresh : d !! tmp = None).
  { apply not_elem_of_dom. apply is_fresh. }
  assert (Hd' : d' = <[tmp := s3 (path_s3 fhr)]> d).
  { unfold d'. rewrite abrir_gefs_grib_eq. cbv zeta.
    destruct (s3 (path_s3 fhr)) as [g|]; [|reflexivity].
    destruct (nao_nulos (subsets cfgrib g)) as [|d0 l]; [reflexivity|].
    destruct (rename (merge (d0 :: l))); reflexivity. }
  split; [exact Hfresh|]. split; [exact Hd'|]. split.
  - clearbody d'. subst d'. rewrite lookup_insert_eq. eauto.
  - intros k Hk. clearbody d'. subst d'. apply lookup_insert_ne.
    intros ->. rewrite Hfresh in Hk. destruct Hk; discriminate.
Qed.

(** [merge] keeps every variable of every dataset it is given. *)
Lemma merge_lookup_None {DataArray} (l : list (Dataset DataArray)) (x : string) :
  variaveis (merge l) !! x = None <->
  Forall (fun ds => variaveis ds !! x = None) l.
Proof.
  unfold merge. cbn [variaveis]. rewrite lookup_union_list_None.
  rewrite Forall_map. reflexivity.
Qed.

Lemma nao_nulos_nil {DataArray} (l : list (option (Dataset DataArray))) :
  nao_nulos l = [] <-> Forall (fun o => o = None) l.
Proof.
  induction l as [|[ds|] l IH]; simpl.
  - split; constructor.
  - split; [discriminate|]. intros H. inversion H. discriminate.
  - rewrite IH. split; intros H.
    + constructor; auto.
    + inversion H; auto.
Qed.

Lemma nao_nulos_In {DataArray} (l : list (option (Dataset DataArray))) ds :
  In ds (nao_nulos l) <-> In (Some ds) l.
Proof.
  induction l as [|[ds'|] l IH]; simpl.
  - reflexivity.
  - rewrite IH. split; intros [H|H]; auto; left; congruence.
  - rewrite IH. split; [auto|]. intros [H|H]; [discriminate|auto].
Qed.

(** The four variables are looked for one by one with their own filter.
    Given the content of a downloaded file: the call reports "no data found"
    and returns nothing exactly when none of the four filters finds a
    dataset; otherwise it returns the renamed merge of the datasets found,
    and that merge holds every variable of every dataset found, whatever
    happened to the other filters.  Every choice of the four flags is
    realised by some file: the result then holds exactly the chosen
    variables, and nothing at all is returned only when none is chosen.
    An hour for which nothing is returned is skipped: the loop goes on with
    the next hour and the frames it had. *)
Lemma extracao_independente_das_quatro_variaveis :
  (forall (DataArray Grib : Type) (s3 : string -> option Grib)
          (cfgrib : Grib -> Filtro -> option (Dataset DataArray))
          (fhr : Z) (d : gmap nat (option Grib)) (g : Grib),
      s3 (path_s3 fhr) = Some g ->
      let r := abrir_gefs_grib s3 cfgrib fhr d in
      let encontrados := nao_nulos (subsets cfgrib g) in
      subsets cfgrib g
      = [cfgrib g filtro_t2m; cfgrib g filtro_tp;
         cfgrib g filtro_u10; cfgrib g filtro_v10] /\
      (Forall (fun o => o = None) (subsets cfgrib g) <->
       In (Print (NenhumDadoEncontrado fhr)) r.2) /\
      (Forall (fun o => o = None) (subsets cfgrib g) -> r.1.1 = None) /\
      (~ Forall (fun o => o = None) (subsets cfgrib g) ->
       r.1.1 = rename (merge encontrados)) /\
      (forall ds x a, In (Some ds) (subsets cfgrib g) ->
                      variaveis ds !! x = Some a ->
                      is_Some (variaveis (merge encontrados) !! x))) /\
  (forall (b_t2m b_tp b_u10 b_v10 : bool) (fhr : Z) (d : gmap nat (option unit)),
      let r := abrir_gefs_grib Exemplo.s3_cheio
                 (Exemplo.cfgrib_parcial b_t2m b_tp b_u10 b_v10) fhr d in
      match r.1.1 with
      | None => b_t2m || b_tp || b_u10 || b_v10 = false
      | Some ds =>
          (is_Some (variaveis ds !! "t2m") <-> b_t2m = true) /\
          (is_Some (variaveis ds !! "tp") <-> b_tp = true) /\
          (is_Some (variaveis ds !! "u10") <-> b_u10 = true) /\
          (is_Some (variaveis ds !! "v10") <-> b_v10 = true)
      end) /\
  (forall (DataArray Grib : Type) (s3 : string -> option Grib)
          (cfgrib : Grib -> Filtro -> option (Dataset DataArray))
          sortby interp (m : Municipios) (h : Z) (hs : list Z)
          (registros : list Frame) (d : gmap nat (option Grib)),
      let a := abrir_gefs_grib s3 cfgrib h d in
      a.1.1 = None ->
      let r := laco s3 cfgrib sortby interp m hs registros a.1.2 in
      laco s3 cfgrib sortby interp m (h :: hs) registros d
      = (r.1.1, r.1.2, (a.2 ++ r.2)%list)).
Proof.
  split; [|split].
  - intros DataArray Grib s3 cfgrib fhr d g Hg r encontrados.
    assert (Hr : r = abrir_gefs_grib s3 cfgrib fhr d) by reflexivity.
    rewrite abrir_gefs_grib_eq in Hr. cbv zeta in Hr. rewrite Hg in Hr.
    fold encontrados in Hr.
    rewrite <- (nao_nulos_nil (subsets cfgrib g)). fold encontrados.
    split; [reflexivity|].
    assert (Hin : forall ds x a, In (Some ds) (subsets cfgrib g) ->
                variaveis ds !! x = Some a ->
                is_Some (variaveis (merge encontrados) !! x)).
    { intros ds x a Hin Hx. apply (proj2 (nao_nulos_In _ _)) in Hin.
      fold encontrados in Hin.
      destruct (variaveis (merge encontrados) !! x) eqn:Hm; [eauto|].
      apply merge_lookup_None in Hm. rewrite List.Forall_forall in Hm.
      rewrite (Hm ds Hin) in Hx. discriminate. }
    clearbody encontrados r. subst r.
    destruct encontrados as [|d0 l].
    + cbn [fst snd]. repeat split; auto; try tauto.
      intros _. right. left. reflexivity.
    + destruct (rename (merge (d0 :: l))) as [ds'|] eqn:Hren; cbn [fst snd].
      * repeat split; auto; try discriminate; try tauto.
        intros [H|[]]; discriminate.
      * repeat split; auto; try discriminate; try tauto.
        intros [H|[H|[]]]; discriminate.
  - intros b_t2m b_tp b_u10 b_v10 fhr d r. subst r.
    rewrite abrir_gefs_grib_dataset. unfold Exemplo.s3_cheio.
    destruct b_t2m, b_tp, b_u10, b_v10; vm_compute;
      try reflexivity;
      (repeat split; try discriminate;
       try (intros [? H]; discriminate H);
       try (intros _; solve [eauto])).
  - intros DataArray Grib s3 cfgrib sortby interp m h hs registros d a Ha r.
    subst r. cbn [laco]. unfold bind. subst a.
    destruct (abrir_gefs_grib s3 cfgrib h d) as [[o d1] e1].
    cbn [fst snd] in *. subst o.
    destruct (laco s3 cfgrib sortby interp m hs registros d1) as [[r2 d2] e2].
    reflexivity.
Qed.

(** C7 fails where the four filters are opened without an error and none
    finds a variable: the four datasets count as found, their merge, a
    dataset without variables, is returned, and "no data found" is not
    reported, nor anything else. *)
Theorem C7_nenhuma_variavel_e_nenhum_aviso :
  forall (DataArray Grib : Type) (s3 : string -> option Grib)
         (cfgrib : Grib -> Filtro -> option (Dataset DataArray))
         (fhr : Z) (d : gmap nat (option Grib)) (g : Grib),
    s3 (path_s3 fhr) = Some g ->
    Forall (fun o => exists ds, o = Some ds /\ variaveis ds = ∅)
           (subsets cfgrib g) ->
    let r := abrir_gefs_grib s3 cfgrib fhr d in
    (exists ds, r.1.1 = Some ds /\ variaveis ds = ∅) /\
    ~ In (Print (NenhumDadoEncontrado fhr)) r.2 /\
    mensagens r.2 = [].
Proof.
  intros DataArray Grib s3 cfgrib fhr d g Hg Hs r. subst r.
  rewrite abrir_gefs_grib_eq. cbv zeta. rewrite Hg.
  unfold subsets in *.
  inversion Hs as [|? ? (d1 & -> & E1) Hs1]; subst.
  inversion Hs1 as [|? ? (d2 & -> & E2) Hs2]; subst.
  inversion Hs2 as [|? ? (d3 & -> & E3) Hs3]; subst.
  inversion Hs3 as [|? ? (d4 & -> & E4) _]; subst.
  cbn [nao_nulos flat_map app].
  unfold rename, merge. cbn [variaveis map latitude].
  rewrite E1, E2, E3, E4. cbn [union_list foldr].
  rewrite !(left_id_L ∅ (∪)).
  cbn [rename_map rename_vars]. rewrite !lookup_empty.
  cbn [fst snd]. split; [eexists; split; reflexivity|].
  split; [|reflexivity].
  intros [Habs|[]]. discriminate Habs.
Qed.

Lemma C7_witness :
  let r := abrir_gefs_grib Exemplo.s3_cheio Exemplo.cfgrib_vazio 0
             (∅ : gmap nat (option unit)) in
  (exists ds, r.1.1 = Some ds /\ variaveis ds = ∅) /\
  ~ In (Print (NenhumDadoEncontrado 0)) r.2 /\
  mensagens r.2 = [].
Proof.
  apply (C7_nenhuma_variavel_e_nenhum_aviso Q unit Exemplo.s3_cheio
           Exemplo.cfgrib_vazio 0 ∅ tt).
  - reflexivity.
  - repeat constructor; eexists; split; reflexivity.
Defined.

(** A reader that opens every filter without an error but finds no variable
    gives four empty datasets: they count as found, and their merge, a
    dataset without variables, is returned without any message. *)
Example quatro_datasets_vazios :
  let r := abrir_gefs_grib Exemplo.s3_cheio
             (fun _ _ => Some {| latitude := [0%Q; 1%Q];
                                 variaveis := (∅ : gmap string Q) |})
             0 (∅ : gmap nat (option unit)) in
  r.2 = [S3Open (path_s3 0)] /\
  exists ds, r.1.1 = Some ds /\ variaveis ds = ∅.
Proof.
  cbv zeta. rewrite abrir_gefs_grib_eq. cbv zeta. unfold Exemplo.s3_cheio.
  vm_compute. split; [reflexivity|]. eexists. split; reflexivity.
Qed.

(** ** Pipeline Orchestrator *)

Section Orquestrador.

Context {DataArray Grib : Type}.
Variable s3 : string -> option Grib.
Variable cfgrib : Grib -> Filtro -> option (Dataset DataArray).
Variable sortby : Dataset DataArray -> Dataset DataArray.
Variable interp : DataArray -> list cell -> list cell -> list cell.

(** The dataset of an hour does not depend on the scratch directory. *)
Lemma abrir_gefs_grib_resultado (fhr : Z) (d d0 : gmap nat (option Grib)) :
  (abrir_gefs_grib s3 cfgrib fhr d).1.1 = (abrir_gefs_grib s3 cfgrib fhr d0).1.1.
Proof.
  rewrite !abrir_gefs_grib_eq. cbv zeta.
  destruct (s3 (path_s3 fhr)) as [g|]; [|reflexivity].
  destruct (nao_nulos (subsets cfgrib g)) as [|x l]; [reflexivity|].
  destruct (rename (merge (x :: l))); reflexivity.
Qed.

(** One call fetches once, first of all, and writes no output. *)
Lemma abrir_gefs_grib_eventos (fhr : Z) (d : gmap nat (option Grib)) :
  exists resto,
    (abrir_gefs_grib s3 cfgrib fhr d).2 = S3Open (path_s3 fhr) :: resto /\
    Forall (fun e => exists m, e = Print m /\ m <> NenhumaPrevisaoValida) resto.
Proof.
  rewrite abrir_gefs_grib_eq. cbv zeta.
  destruct (s3 (path_s3 fhr)) as [g|].
  - destruct (nao_nulos (subsets cfgrib g)) as [|x l].
    + eexists; split; [reflexivity|]. repeat constructor.
      eexists; split; [reflexivity|discriminate].
    + destruct (rename (merge (x :: l))).
      * eexists; split; [reflexivity|]. constructor.
      * eexists; split; [reflexivity|]. repeat constructor.
        eexists; split; [reflexivity|discriminate].
  - eexists; split; [reflexivity|]. repeat constructor.
    eexists; split; [reflexivity|discriminate].
Qed.

Lemma origem_mais (m : Municipios) (h : Z) (hs : list Z) (f : Frame) :
  origem s3 cfgrib sortby interp m hs f -> origem s3 cfgrib sortby interp m (h :: hs) f.
Proof.
  intros (h' & ds & df & Hin & H). exists h', ds, df. split; [right; exact Hin|exact H].
Qed.

Lemma laco_spec (m : Municipios) (hs : list Z) :
  forall (registros : list Frame) (d : gmap nat (option Grib)),
    let r := laco s3 cfgrib sortby interp m hs registros d in
    Forall (fun e => exists p, e = S3Open p \/
                               exists x, e = Print x /\ x <> NenhumaPrevisaoValida) r.2 /\
    (forall h hs', hs = h :: hs' -> exists resto, r.2 = S3Open (path_s3 h) :: resto) /\
    ((forall h, In h hs -> forall d0, (abrir_gefs_grib s3 cfgrib h d0).1.1 = None) ->
     r.1.1 = Ok registros) /\
    (forall registros', r.1.1 = Ok registros' ->
       exists novos, registros' = (registros ++ novos)%list /\
                     Forall (origem s3 cfgrib sortby interp m hs) novos /\
                     (novos = [] ->
                      forall h, In h hs ->
                                forall d0, (abrir_gefs_grib s3 cfgrib h d0).1.1 = None)) /\
    (forall e, r.1.1 = Raise e ->
       exists h ds, In h hs /\
                    (forall d0, (abrir_gefs_grib s3 cfgrib h d0).1.1 = Some ds) /\
                    extrair_para_municipios sortby interp ds m = Raise e).
Proof.
  induction hs as [|h hs' IH]; intros registros d r.
  - subst r. cbn. repeat split.
    + constructor.
    + intros h hs' H. discriminate H.
    + intros registros' H. injection H as <-. exists []. rewrite app_nil_r.
      repeat split; [constructor|]. intros _ h [].
    + intros e H. discriminate H.
  - subst r. cbn [laco]. unfold bind.
    destruct (abrir_gefs_grib_eventos h d) as (resto & Hev & Hresto).
    pose proof (abrir_gefs_grib_resultado h d) as Hres.
    destruct (abrir_gefs_grib s3 cfgrib h d) as [[o d1] e1] eqn:Habrir.
    cbn [fst snd] in Hev, Hres. subst e1.
    assert (Hpre : Forall (fun e => exists p, e = S3Open p \/
                      exists x, e = Print x /\ x <> NenhumaPrevisaoValida)
                    (S3Open (path_s3 h) :: resto)).
    { constructor; [exists (path_s3 h); left; reflexivity|].
      eapply List.Forall_impl; [|exact Hresto].
      intros e (x & -> & Hx). exists "". right. exists x. split; [reflexivity|exact Hx]. }
    destruct o as [ds|].
    + destruct (extrair_para_municipios sortby interp ds m) as [df|exc] eqn:Hext.
      * specialize (IH (registros ++ [com_data_previsao
                          (strptime_YmdH (RUN_DATE ++ HOUR) + h) df])%list d1).
        cbv zeta in IH.
        destruct (laco s3 cfgrib sortby interp m hs' _ d1) as [[r2 d2] e2].
        cbn [fst snd] in *.
        destruct IH as (IH1 & _ & _ & IH4 & IH5).
        split; [apply Forall_app; split; assumption|].
        split; [intros h0 hs0 H; injection H as <- <-; eexists; reflexivity|].
        split.
        { intros Hnone. specialize (Hnone h (or_introl eq_refl) d).
          rewrite Habrir in Hnone. discriminate Hnone. }
        split.
        { intros registros' Hr. destruct (IH4 _ Hr) as (novos & -> & Hor & _).
          exists (com_data_previsao (strptime_YmdH (RUN_DATE ++ HOUR) + h) df
                    :: novos).
          split; [rewrite <- app_assoc; reflexivity|].
          split; [|discriminate].
          constructor.
          - exists h, ds, df. split; [left; reflexivity|].
            split; [intros d0; rewrite <- (Hres d0); reflexivity|].
            split; [exact Hext|reflexivity].
          - eapply List.Forall_impl; [|exact Hor]. intros f. apply origem_mais. }
        { intros e Hr. destruct (IH5 _ Hr) as (h' & ds' & Hin & H).
          exists h', ds'. split; [right; exact Hin|exact H]. }
      * unfold ret. cbn [fst snd]. rewrite app_nil_r.
        split; [exact Hpre|].
        split; [intros h0 hs0 H; injection H as <- <-; eexists; reflexivity|].
        split.
        { intros Hnone. specialize (Hnone h (or_introl eq_refl) d).
          rewrite Habrir in Hnone. discriminate Hnone. }
        split; [intros registros' H; discriminate H|].
        intros e H. injection H as <-. exists h, ds.
        split; [left; reflexivity|].
        split; [intros d0; rewrite <- (Hres d0); reflexivity|exact Hext].
    + specialize (IH registros d1). cbv zeta in IH.
      destruct (laco s3 cfgrib sortby interp m hs' registros d1) as [[r2 d2] e2].
      cbn [fst snd] in *.
      destruct IH as (IH1 & _ & IH3 & IH4 & IH5).
      split; [apply Forall_app; split; assumption|].
      split; [intros h0 hs0 H; injection H as <- <-; eexists; reflexivity|].
      split.
      { intros Hnone. apply IH3. intros h' Hin. apply Hnone. right. exact Hin. }
      split.
      { intros registros' Hr. destruct (IH4 _ Hr) as (novos & -> & Hor & Hvazio).
        exists novos. split; [reflexivity|]. split.
        - eapply List.Forall_impl; [|exact Hor]. intros f. apply origem_mais.
        - intros Hn h' [<-|Hin] d0.
          + rewrite <- (Hres d0). reflexivity.
          + apply Hvazio; assumption. }
      { intros e Hr. destruct (IH5 _ Hr) as (h' & ds' & Hin & H).
        exists h', ds'. split; [right; exact Hin|exact H]. }
Qed.

End Orquestrador.

Lemma so_buscas_e_avisos (ev : list Evento) :
  Forall (fun e => exists p, e = S3Open p \/
                   exists x, e = Print x /\ x <> NenhumaPrevisaoValida) ev ->
  ~ escreveu ev /\ ~ In (Print NenhumaPrevisaoValida) ev.
Proof.
  intros H. rewrite List.Forall_forall in H. split.
  - intros (t & Hin). destruct (H _ Hin) as (p & [Hp|(x & Hx & _)]); discriminate.
  - intros Hin. destruct (H _ Hin) as (p & [Hp|(x & Hx & Hne)]); [discriminate|].
    injection Hx as <-. apply Hne. reflexivity.
Qed.

Lemma escreveu_app (a b : list Evento) :
  escreveu (a ++ b) <-> escreveu a \/ escreveu b.
Proof.
  unfold escreveu. split.
  - intros (t & H). apply in_app_or in H. destruct H; [left|right]; eauto.
  - intros [(t & H)|(t & H)]; exists t; apply in_or_app; auto.
Qed.

Lemma origem_linhas {DataArray Grib : Type}
      (s3 : string -> option Grib)
      (cfgrib : Grib -> Filtro -> option (Dataset DataArray))
      sortby interp (m : Municipios) (hs : list Z) (f : Frame) :
  origem s3 cfgrib sortby interp m hs f ->
  List.length (linhas f) = List.length (m_linhas m).
Proof.
  intros (h & ds & df & _ & _ & Hext & ->).
  apply extrair_para_municipios_Ok in Hext. destruct Hext as (ds' & _ & Hl).
  unfold com_data_previsao. cbn [linhas].
  rewrite length_map, Hl, length_map, length_seq. reflexivity.
Qed.

(** When no hour of the schedule gives a dataset, the run writes no
    output, and with a readable location list it ends normally after the
    message of total failure.  When the output is written, the message of
    total failure was not printed and at least one hour of the schedule gave
    a dataset that the interpolation turned into a frame, of one row for
    each location of the list. *)
Lemma sem_datasets_sem_arquivo :
  forall (DataArray Grib : Type) (s3 : string -> option Grib)
         (cfgrib : Grib -> Filtro -> option (Dataset DataArray))
         (sortby : Dataset DataArray -> Dataset DataArray)
         (interp : DataArray -> list cell -> list cell -> list cell)
         (read_csv : Exc Municipios) (d : gmap nat (option Grib)),
    let r := gerar_boletim_diario s3 cfgrib sortby interp read_csv d in
    ((forall h, In h horas ->
                forall d0, (abrir_gefs_grib s3 cfgrib h d0).1.1 = None) ->
     ~ escreveu r.2 /\
     (forall m, read_csv = Ok m ->
                r.1.1 = Ok tt /\ In (Print NenhumaPrevisaoValida) r.2)) /\
    (escreveu r.2 ->
     ~ In (Print NenhumaPrevisaoValida) r.2 /\
     exists m f, read_csv = Ok m /\ origem s3 cfgrib sortby interp m horas f /\
                 List.length (linhas f) = List.length (m_linhas m)).
Proof.
  intros DataArray Grib s3 cfgrib sortby interp read_csv d r. subst r.
  unfold gerar_boletim_diario.
  destruct read_csv as [m|e].
  - unfold bind.
    pose proof (laco_spec s3 cfgrib sortby interp m horas [] d) as Hl.
    cbv zeta in Hl.
    destruct (laco s3 cfgrib sortby interp m horas [] d) as [[rl d1] e1].
    cbn [fst snd] in Hl. destruct Hl as (Hev & _ & Hnone & Hok & _).
    apply so_buscas_e_avisos in Hev. destruct Hev as (Hne & Hnp).
    destruct rl as [[|f l]|e].
    + cbn [print emitir ret fst snd app].
      assert (Hsem : ~ escreveu (e1 ++ [Print NenhumaPrevisaoValida])).
      { rewrite escreveu_app. intros [H|H]; [exact (Hne H)|].
        destruct H as (t & Hin). cbn in Hin. intuition discriminate. }
      split.
      * intros _. split; [exact Hsem|].
        intros m' _. split; [reflexivity|].
        apply in_or_app. right. left. reflexivity.
      * intros H. destruct (Hsem H).
    + destruct (Hok _ eq_refl) as (novos & Hnovos & Hor & _).
      cbn [app] in Hnovos. subst novos.
      split.
      * intros Hall. specialize (Hnone Hall). discriminate Hnone.
      * destruct (agregar (concat (f :: l))) as [df|e];
          cbn [print emitir ret fst snd app]; intros H.
        -- split.
           ++ intros Hin. apply in_app_or in Hin.
              destruct Hin as [Hin|Hin]; [exact (Hnp Hin)|].
              cbn in Hin. intuition discriminate.
           ++ exists m, f. split; [reflexivity|].
              inversion Hor as [|? ? Hf _]. subst.
              split; [exact Hf|]. apply (origem_linhas _ _ _ _ _ _ _ Hf).
        -- rewrite app_nil_r in H. destruct (Hne H).
    + cbn [ret fst snd]. rewrite app_nil_r. split.
      * intros Hall. specialize (Hnone Hall). discriminate Hnone.
      * intros H. destruct (Hne H).
  - cbn [ret fst snd]. split.
    + intros _. split; [intros (t & [])|]. intros m H. discriminate H.
    + intros (t & []).
Qed.


(** ** Configuration errors *)






(** ** Temporal Aggregator: precipitation increments *)

(** The scenarios of the specification, as the code computes them. *)
Example incrementos_tres_horas :
  tp_dif (sort_values Exemplo.tres_horas) = [Some 0%Q; Some 2%Q; Some 3%Q] /\
  map d_tp (tabela_diaria Exemplo.tres_horas) = [Some 5%Q].
Proof. split; reflexivity. Qed.

Example incrementos_com_queda :
  tp_dif (sort_values Exemplo.com_queda) = [Some 5%Q; Some 0%Q].
Proof. reflexivity. Qed.

(** C1 fails on two municipalities of one name in two states.  The rows are
    sorted and differenced by the name alone, so the rows of the two
    locations alternate inside one group: Bom Jesus (PI), with readings 1
    then 2, gets the increments 1 and 0 instead of 1 and 1, and Bom Jesus
    (RS), with readings 10 then 12, gets 9 and 10 instead of 10 and 2.  The
    daily table, grouped by name and state, then reports 1 and 19 instead
    of 2 and 12. *)
Theorem C1_homonimos_em_dois_estados :
  sort_values Exemplo.homonimos = Exemplo.homonimos /\
  map (fun r => (uf r, tp r)) Exemplo.homonimos
  = [("PI", Some 1%Q); ("RS", Some 10%Q); ("PI", Some 2%Q); ("RS", Some 12%Q)] /\
  tp_dif (sort_values Exemplo.homonimos)
  = [Some 1%Q; Some 9%Q; Some 0%Q; Some 10%Q] /\
  map (fun d => (d_municipio d, d_uf d, d_tp d))
      (tabela_diaria Exemplo.homonimos)
  = [("Bom Jesus", "PI", Some 1%Q); ("Bom Jesus", "RS", Some 19%Q)].
Proof. repeat split; reflexivity. Qed.

(** C3 fails on two municipalities of one name in two states, at hours 0
    and 3.  No two of the four rows have the same name, state
    and forecast time; the two rows of hour 0 may arrive in either order.
    The sort is by name and time only and keeps the order of arrival among
    rows of equal key, and the differencing is by name only: the increments
    are 1, 9, 0, 10 when Bom Jesus (PI) comes first and 10, 0, 1, 10 when
    Bom Jesus (RS) does, and the daily precipitation of Bom Jesus (RS) is
    19 for one order and 20 for the other (12 by the specification). *)
Theorem C3_homonimos_em_outra_ordem :
  Permutation Exemplo.homonimos Exemplo.homonimos_trocados /\
  List.NoDup (map (fun r => (municipio r, uf r, data_previsao r))
                  Exemplo.homonimos) /\
  map (fun r => (uf r, tp r)) (sort_values Exemplo.homonimos_trocados)
  = [("RS", Some 10%Q); ("PI", Some 1%Q); ("PI", Some 2%Q); ("RS", Some 12%Q)] /\
  tp_dif (sort_values Exemplo.homonimos_trocados)
  = [Some 10%Q; Some 0%Q; Some 1%Q; Some 10%Q] /\
  map (fun d => (d_municipio d, d_uf d, d_tp d))
      (tabela_diaria Exemplo.homonimos)
  = [("Bom Jesus", "PI", Some 1%Q); ("Bom Jesus", "RS", Some 19%Q)] /\
  map (fun d => (d_municipio d, d_uf d, d_tp d))
      (tabela_diaria Exemplo.homonimos_trocados)
  = [("Bom Jesus", "PI", Some 1%Q); ("Bom Jesus", "RS", Some 20%Q)] /\
  agregar {| colunas := ["t2m"; "tp"; "u10"; "v10"];
             linhas := Exemplo.homonimos |}
  <> agregar {| colunas := ["t2m"; "tp"; "u10"; "v10"];
                linhas := Exemplo.homonimos_trocados |}.
Proof.
  split; [apply perm_swap|].
  split.
  { cbn. repeat constructor; cbn; intros H;
      repeat (destruct H as [H|H]; [discriminate H|]); exact H. }
  split; [reflexivity|]. split; [reflexivity|].
  split; [reflexivity|]. split; [reflexivity|].
  vm_compute. intros H. discriminate H.
Qed.

(** C2 as stated fails on the series 5.0, 3.0 of one location: the
    increments are 5.0 and 0.0, their sum 5.0 is above the last cumulative
    value 3.0. *)
Lemma C2_soma_acima_do_acumulado :
  let s := sort_values Exemplo.com_queda in
  map tp (serie_do_local "Curitiba" "PR" s) = [Some 5%Q; Some 3%Q] /\
  incrementos_do_local "Curitiba" "PR" s = [Some 5%Q; Some 0%Q] /\
  soma (incrementos_do_local "Curitiba" "PR" s) = Some 5%Q /\
  ~ (5 <= 3)%Q.
Proof. repeat split; try reflexivity. intros H. lra. Qed.

(** The increments of the rows of one name are those of its series alone:
    the rows of other names in between play no part. *)
Lemma incrementos_por_nome (m : string) (df : list Registro) :
  ausente m = false ->
  forall anterior,
    map snd (List.filter (fun p => String.eqb (municipio (fst p)) m)
               (combine df (clip_lower 0
                  (fillna (groupby_diff anterior df) (map tp df)))))
    = incrementos_serie (anterior m) (map tp (serie m df)).
Proof.
  intros Hm. induction df as [|r df IH]; intros anterior; [reflexivity|].
  cbn [groupby_diff]. unfold serie.
  destruct (ausente (municipio r)) eqn:Ha.
  - cbn [map fillna combine clip_lower List.filter fst snd].
    fold (fillna (groupby_diff anterior df) (map tp df)).
    fold (clip_lower 0 (fillna (groupby_diff anterior df) (map tp df))).
    fold (serie m df).
    destruct (String.eqb (municipio r) m) eqn:E.
    + apply String.eqb_eq in E. rewrite E in Ha. congruence.
    + apply IH.
  - cbn [map fillna combine clip_lower List.filter fst snd].
    fold (fillna (groupby_diff
            (fun m0 => if String.eqb m0 (municipio r) then Some (tp r)
                       else anterior m0)
            df) (map tp df)).
    fold (clip_lower 0 (fillna (groupby_diff
            (fun m0 => if String.eqb m0 (municipio r) then Some (tp r)
                       else anterior m0)
            df) (map tp df))).
    fold (serie m df).
    destruct (String.eqb (municipio r) m) eqn:E.
    + apply String.eqb_eq in E. subst m.
      cbn [map snd incrementos_serie]. rewrite IH, String.eqb_refl. f_equal.
    + rewrite IH. rewrite String.eqb_sym, E. reflexivity.
Qed.

Lemma incrementos_eq (m : string) (df : list Registro) :
  ausente m = false ->
  incrementos m df = incrementos_serie None (map tp (serie m df)).
Proof. intros Hm. unfold incrementos, tp_dif. apply incrementos_por_nome, Hm. Qed.

(** *** Sums of rationals *)

Lemma fold_Qplus_acc (l : list Q) (a : Q) :
  (fold_left Qplus l a == a + fold_left Qplus l 0)%Q.
Proof.
  revert a. induction l as [|x l IH]; intros a; cbn [fold_left].
  - lra.
  - rewrite (IH (a + x)%Q), (IH (0 + x)%Q). lra.
Qed.

Lemma Qsoma_cons (x : Q) (l : list Q) : (Qsoma (x :: l) == x + Qsoma l)%Q.
Proof.
  unfold Qsoma. cbn [fold_left]. rewrite fold_Qplus_acc. lra.
Qed.

Lemma Qclip_ge (x : Q) : (0 <= Qclip x)%Q /\ (x <= Qclip x)%Q.
Proof.
  unfold Qclip. destruct (Qltb x 0) eqn:H.
  - apply Qltb_lt in H. lra.
  - apply Qltb_ge in H. lra.
Qed.

Lemma Qclip_id (x : Q) : (0 <= x)%Q -> Qclip x = x.
Proof.
  intros H. unfold Qclip. apply Qltb_ge in H. rewrite H. reflexivity.
Qed.

Lemma Qclip_zero (x : Q) : (x <= 0)%Q -> (Qclip x == 0)%Q.
Proof.
  intros H. unfold Qclip. destruct (Qltb x 0) eqn:E; [reflexivity|].
  apply Qltb_ge in E. lra.
Qed.

(** *** One step of the differencing, with missing values *)

Lemma passo_presente (anterior : option cell) (q : Q) :
  exists v,
    clip0 (if isna (match anterior with
                    | Some p => csub (Some q) p
                    | None => NaN
                    end)
           then Some q
           else match anterior with
                | Some p => csub (Some q) p
                | None => NaN
                end) = Some v /\
    (0 <= v)%Q /\
    match anterior with
    | Some (Some p) => (q - p <= v)%Q
    | _ => (q <= v)%Q
    end.
Proof.
  destruct anterior as [[p|]|]; cbv [NaN csub isna clip0].
  - exists (Qclip (q - p)). split; [unfold Qclip; destruct (Qltb _ _); reflexivity|].
    apply Qclip_ge.
  - exists (Qclip q). split; [unfold Qclip; destruct (Qltb _ _); reflexivity|].
    apply Qclip_ge.
  - exists (Qclip q). split; [unfold Qclip; destruct (Qltb _ _); reflexivity|].
    apply Qclip_ge.
Qed.

Lemma passo_ausente (anterior : option cell) :
  clip0 (if isna (match anterior with
                  | Some p => csub None p
                  | None => NaN
                  end)
         then None
         else match anterior with
              | Some p => csub None p
              | None => NaN
              end) = NaN.
Proof. destruct anterior as [[p|]|]; reflexivity. Qed.

(** An increment is missing exactly where the cumulative value is missing,
    and is at least zero elsewhere. *)
Lemma incrementos_serie_sinal (cs : list cell) :
  forall anterior,
    Forall2 (fun c i => match c with
                        | Some _ => exists q, i = Some q /\ (0 <= q)%Q
                        | None => i = NaN
                        end)
            cs (incrementos_serie anterior cs).
Proof.
  induction cs as [|c cs IH]; intros anterior; constructor; [|apply IH].
  destruct c as [q|].
  - destruct (passo_presente anterior q) as (v & Hv & H0 & _). eauto.
  - apply passo_ausente.
Qed.

(** The first increment of a series is its first reading, and the increment
    after a reading is the difference to it; both clamped at zero. *)
Lemma incrementos_serie_primeiro (cs : list cell) (c : Q) :
  nth_error cs 0 = Some (Some c) ->
  nth_error (incrementos_serie None cs) 0 = Some (Some (Qclip c)).
Proof.
  destruct cs as [|x cs]; [discriminate|]. cbn [nth_error].
  intros H. injection H as ->. cbn [incrementos_serie nth_error].
  cbv [NaN isna clip0 Qclip]. destruct (Qltb c 0); reflexivity.
Qed.

Lemma incrementos_serie_passo (k : nat) :
  forall (cs : list cell) (anterior : option cell) (p c : Q),
    nth_error cs k = Some (Some p) ->
    nth_error cs (S k) = Some (Some c) ->
    nth_error (incrementos_serie anterior cs) (S k)
    = Some (Some (Qclip (c - p))).
Proof.
  induction k as [|k IH]; intros [|x cs] anterior p c Hp Hc; try discriminate.
  - cbn [nth_error] in Hp. injection Hp as ->.
    destruct cs as [|y cs]; [discriminate|].
    cbn [nth_error] in Hc. injection Hc as ->.
    cbn [incrementos_serie nth_error].
    cbv [NaN csub isna clip0 Qclip]. destruct (Qltb (c - p) 0); reflexivity.
  - cbn [nth_error] in Hp. cbn [incrementos_serie].
    change (nth_error (x :: cs) (S (S k))) with (nth_error cs (S k)) in Hc.
    change (nth_error (?h :: ?t) (S (S k))) with (nth_error t (S k)).
    exact (IH cs (Some x) p c Hp Hc).
Qed.

(** ** Temporal Aggregator: the sort *)

Lemma compare_OT (a b : string) : String_as_OT.compare a b = String.compare a b.
Proof.
  revert b. induction a as [|c a IH]; destruct b as [|c' b]; reflexivity.
Qed.

Lemma compare_Lt_trans (a b c : string) :
  String.compare a b = Lt -> String.compare b c = Lt -> String.compare a c = Lt.
Proof.
  rewrite <- !compare_OT. intros H1 H2.
  exact (StrictOrder_Transitive (R := String_as_OT.lt) a b c H1 H2).
Qed.

Lemma compare_refl (a : string) : String.compare a a = Eq.
Proof.
  destruct (String.compare a a) eqn:H; [reflexivity| |];
    pose proof (String.compare_antisym a a) as Ha; rewrite H in Ha;
    discriminate Ha.
Qed.

Lemma nome_compare_refl (a : string) : nome_compare a a = Eq.
Proof.
  unfold nome_compare. destruct (ausente a); [reflexivity|apply compare_refl].
Qed.

Lemma nome_compare_eq (a b : string) : nome_compare a b = Eq -> a = b.
Proof.
  unfold nome_compare, ausente.
  destruct (String.eqb a "") eqn:Ha, (String.eqb b "") eqn:Hb; try discriminate.
  - intros _. apply String.eqb_eq in Ha, Hb. congruence.
  - apply String.compare_eq_iff.
Qed.

Lemma nome_compare_antisym (a b : string) :
  nome_compare b a = CompOpp (nome_compare a b).
Proof.
  unfold nome_compare. destruct (ausente a), (ausente b); try reflexivity.
  apply String.compare_antisym.
Qed.

Lemma nome_compare_Lt_trans (a b c : string) :
  nome_compare a b = Lt -> nome_compare b c = Lt -> nome_compare a c = Lt.
Proof.
  unfold nome_compare.
  destruct (ausente a), (ausente b), (ausente c); try discriminate; auto.
  apply compare_Lt_trans.
Qed.

Lemma chave_le_total (a b : Registro) : chave_le a b \/ chave_le b a.
Proof.
  unfold chave_le, chave_leb.
  pose proof (nome_compare_antisym (municipio a) (municipio b)) as Hba.
  destruct (nome_compare (municipio a) (municipio b)) eqn:Hab;
    rewrite Hba; cbn [CompOpp].
  - rewrite !Z.leb_le. lia.
  - left. reflexivity.
  - right. reflexivity.
Qed.

Lemma chave_le_trans (a b c : Registro) :
  chave_le a b -> chave_le b c -> chave_le a c.
Proof.
  unfold chave_le, chave_leb.
  destruct (nome_compare (municipio a) (municipio b)) eqn:Hab; try discriminate;
    destruct (nome_compare (municipio b) (municipio c)) eqn:Hbc; try discriminate.
  - apply nome_compare_eq in Hab, Hbc. rewrite Hab, Hbc, nome_compare_refl.
    rewrite !Z.leb_le. lia.
  - apply nome_compare_eq in Hab. rewrite Hab, Hbc. auto.
  - apply nome_compare_eq in Hbc. rewrite <- Hbc, Hab. auto.
  - rewrite (nome_compare_Lt_trans _ _ _ Hab Hbc). auto.
Qed.

Lemma chave_le_antisym (a b : Registro) :
  chave_le a b -> chave_le b a -> chave_ordenacao a = chave_ordenacao b.
Proof.
  unfold chave_le, chave_leb, chave_ordenacao.
  pose proof (nome_compare_antisym (municipio a) (municipio b)) as Hba.
  destruct (nome_compare (municipio a) (municipio b)) eqn:Hab;
    rewrite Hba; cbn [CompOpp]; try discriminate.
  apply nome_compare_eq in Hab. rewrite !Z.leb_le. intros H1 H2.
  f_equal; [exact Hab|lia].
Qed.

Lemma inserir_Permutation (x : Registro) (l : list Registro) :
  Permutation (inserir x l) (x :: l).
Proof.
  induction l as [|y l IH]; cbn; [reflexivity|].
  destruct (chave_leb x y); [reflexivity|].
  rewrite IH. apply perm_swap.
Qed.

Lemma sort_values_Permutation (df : list Registro) :
  Permutation (sort_values df) df.
Proof.
  induction df as [|x df IH]; cbn; [reflexivity|].
  rewrite inserir_Permutation, IH. reflexivity.
Qed.

Lemma inserir_ordenado (x : Registro) (l : list Registro) :
  StronglySorted chave_le l -> StronglySorted chave_le (inserir x l).
Proof.
  induction 1 as [|y l Hs IH Hy]; cbn.
  - repeat constructor.
  - destruct (chave_leb x y) eqn:Hxy.
    + constructor; [constructor; assumption|].
      constructor; [exact Hxy|].
      eapply List.Forall_impl; [|exact Hy]. intros z. apply chave_le_trans. exact Hxy.
    + constructor; [exact IH|].
      rewrite List.Forall_forall in *. intros z Hz.
      apply (Permutation_in _ (inserir_Permutation x l)) in Hz.
      destruct Hz as [<-|Hz]; [|apply Hy; exact Hz].
      destruct (chave_le_total x y) as [H|H]; [|exact H].
      unfold chave_le in H. rewrite H in Hxy. discriminate Hxy.
Qed.

Lemma sort_values_ordenado (df : list Registro) :
  StronglySorted chave_le (sort_values df).
Proof.
  induction df as [|x df IH]; cbn; [constructor|].
  apply inserir_ordenado. exact IH.
Qed.

Lemma mesma_chave_mesma_linha (l : list Registro) (a b : Registro) :
  List.NoDup (map chave_ordenacao l) -> In a l -> In b l ->
  chave_ordenacao a = chave_ordenacao b -> a = b.
Proof.
  induction l as [|x l IH]; cbn; [intros _ []|].
  intros Hnd Ha Hb Hk. inversion Hnd as [|? ? Hx Hnd']. subst.
  destruct Ha as [<-|Ha], Hb as [<-|Hb]; auto.
  - exfalso. apply Hx. rewrite Hk. apply in_map. exact Hb.
  - exfalso. apply Hx. rewrite <- Hk. apply in_map. exact Ha.
Qed.

(** Two sorted arrangements of rows with pairwise distinct keys are equal. *)
Lemma ordenacao_unica (l1 : list Registro) :
  forall l2,
    StronglySorted chave_le l1 -> StronglySorted chave_le l2 ->
    Permutation l1 l2 -> List.NoDup (map chave_ordenacao l1) -> l1 = l2.
Proof.
  induction l1 as [|a l1 IH]; intros l2 Hs1 Hs2 Hp Hnd.
  - apply Permutation_nil in Hp. subst. reflexivity.
  - destruct l2 as [|b l2];
      [apply Permutation_sym, Permutation_nil in Hp; discriminate|].
    assert (Hab : a = b).
    { assert (Ha : In a (b :: l2))
        by (apply (Permutation_in _ Hp); left; reflexivity).
      assert (Hb : In b (a :: l1))
        by (apply (Permutation_in _ (Permutation_sym Hp)); left; reflexivity).
      destruct Ha as [Ha|Ha]; [symmetry; exact Ha|].
      destruct Hb as [Hb|Hb]; [exact Hb|].
      inversion Hs1 as [|? ? _ H1]. inversion Hs2 as [|? ? _ H2]. subst.
      rewrite List.Forall_forall in H1, H2.
      apply (mesma_chave_mesma_linha (a :: l1)); auto.
      - left; reflexivity.
      - right; exact Hb.
      - apply chave_le_antisym; [apply H1; exact Hb|apply H2; exact Ha]. }
    subst b. f_equal.
    inversion Hs1; inversion Hs2; inversion Hnd; subst.
    apply IH; auto. eapply Permutation_cons_inv; exact Hp.
Qed.

Lemma sort_values_permutacao (df df' : list Registro) :
  Permutation df df' ->
  List.NoDup (map chave_ordenacao df) ->
  sort_values df = sort_values df'.
Proof.
  intros Hp Hnd. apply ordenacao_unica.
  - apply sort_values_ordenado.
  - apply sort_values_ordenado.
  - rewrite !sort_values_Permutation. exact Hp.
  - eapply Permutation_NoDup; [|exact Hnd].
    apply Permutation_map. symmetry. apply sort_values_Permutation.
Qed.

(** When no two rows have the same municipality name and forecast
    timestamp, the Aggregator gives the same result, table or exception, for
    every rearrangement of the rows of a frame with the same columns. *)
Lemma agregar_com_chaves_distintas :
  forall (previsoes previsoes' : Frame),
    Permutation (linhas previsoes) (linhas previsoes') ->
    (forall c, tem_coluna c previsoes = tem_coluna c previsoes') ->
    List.NoDup (map chave_ordenacao (linhas previsoes)) ->
    agregar previsoes = agregar previsoes'.
Proof.
  intros f f' Hp Hc Hnd. unfold agregar, exigir_coluna, tabela_diaria.
  rewrite <- !Hc, (sort_values_permutacao _ _ Hp Hnd). reflexivity.
Qed.

(** *** The increments of one location *)

Lemma StronglySorted_filter {A} (R : A -> A -> Prop) (f : A -> bool)
      (l : list A) :
  StronglySorted R l -> StronglySorted R (List.filter f l).
Proof.
  induction 1 as [|a l _ IH Ha]; cbn [List.filter]; [constructor|].
  destruct (f a); [|exact IH]. constructor; [exact IH|].
  rewrite List.Forall_forall in *. intros x Hx.
  apply filter_In in Hx. apply Ha, Hx.
Qed.

Lemma serie_ordenada (m : string) (df : list Registro) :
  StronglySorted (fun a b => data_previsao a <= data_previsao b)
                 (serie m (sort_values df)).
Proof.
  assert (H : StronglySorted chave_le (serie m (sort_values df)))
    by apply StronglySorted_filter, sort_values_ordenado.
  assert (Hm : forall r, In r (serie m (sort_values df)) -> municipio r = m).
  { intros r Hr. apply filter_In in Hr. apply String.eqb_eq, Hr. }
  induction H as [|a l _ IH Ha]; [constructor|].
  constructor; [apply IH; intros r Hr; apply Hm; right; exact Hr|].
  rewrite List.Forall_forall in *. intros b Hb.
  specialize (Ha b Hb). unfold chave_le, chave_leb in Ha.
  rewrite (Hm a (or_introl eq_refl)), (Hm b (or_intror Hb)),
    nome_compare_refl in Ha.
  apply Z.leb_le, Ha.
Qed.

Lemma nome_exclusivo_local (m u : string) (df : list Registro) (r : Registro) :
  nome_exclusivo m u df -> In r df ->
  do_local m u r = String.eqb (municipio r) m.
Proof.
  intros Hx Hr. unfold do_local.
  destruct (String.eqb (municipio r) m) eqn:E; [|reflexivity].
  apply String.eqb_eq in E. rewrite (Hx r Hr E). apply String.eqb_refl.
Qed.

Lemma serie_do_local_nome (m u : string) (df : list Registro) :
  nome_exclusivo m u df -> serie_do_local m u df = serie m df.
Proof.
  intros Hx. unfold serie_do_local, serie. apply filter_ext_in.
  intros r Hr. apply (nome_exclusivo_local m u df r Hx Hr).
Qed.

Lemma incrementos_do_local_nome (m u : string) (df : list Registro) :
  nome_exclusivo m u df -> incrementos_do_local m u df = incrementos m df.
Proof.
  intros Hx. unfold incrementos_do_local, incrementos. f_equal.
  apply filter_ext_in. intros p Hp.
  apply (nome_exclusivo_local m u df (fst p) Hx).
  destruct p as [r i]. exact (in_combine_l _ _ _ _ Hp).
Qed.

(** C2 (amended). For the rows of one location in the sorted frame, when no
    location of another state has its name: the rows are in the order of
    their forecast times; an increment is missing where the cumulative value
    is missing and is at least zero elsewhere; the first increment is at
    least the first cumulative value, is that value when it is not
    negative and zero when it is not positive; an increment after a
    cumulative value is at least the difference to it, is that difference
    when the value has not fallen and zero when it has not risen. *)
Theorem C2_incrementos_de_um_local :
  forall (df : list Registro) (m u : string),
    ausente m = false ->
    nome_exclusivo m u df ->
    let s := sort_values df in
    let cs := map tp (serie_do_local m u s) in
    let incs := incrementos_do_local m u s in
    StronglySorted (fun a b => data_previsao a <= data_previsao b)
                   (serie_do_local m u s) /\
    Forall2 (fun c i => match c with
                        | Some _ => exists q, i = Some q /\ (0 <= q)%Q
                        | None => i = NaN
                        end) cs incs /\
    (forall c,
        nth_error cs 0 = Some (Some c) ->
        exists v, nth_error incs 0 = Some (Some v) /\
                  (c <= v)%Q /\
                  ((0 <= c)%Q -> (v == c)%Q) /\
                  ((c <= 0)%Q -> (v == 0)%Q)) /\
    (forall k p c,
        nth_error cs k = Some (Some p) ->
        nth_error cs (S k) = Some (Some c) ->
        exists v, nth_error incs (S k) = Some (Some v) /\
                  (c - p <= v)%Q /\
                  ((p <= c)%Q -> (v == c - p)%Q) /\
                  ((c <= p)%Q -> (v == 0)%Q)).
Proof.
  intros df m u Hm Hx s cs incs.
  assert (Hxs : nome_exclusivo m u s).
  { intros r Hr. apply Hx.
    apply (Permutation_in _ (sort_values_Permutation df)), Hr. }
  assert (Hs : serie_do_local m u s = serie m s)
    by apply serie_do_local_nome, Hxs.
  assert (Hincs : incs = incrementos_serie None cs).
  { unfold incs, cs. rewrite (incrementos_do_local_nome m u s Hxs), Hs.
    apply incrementos_eq, Hm. }
  split; [rewrite Hs; apply serie_ordenada|].
  clearbody incs cs. subst incs.
  split; [apply incrementos_serie_sinal|]. split.
  - intros c Hc. exists (Qclip c).
    split; [apply incrementos_serie_primeiro, Hc|].
    split; [apply Qclip_ge|]. split.
    + intros H0. rewrite (Qclip_id c H0). reflexivity.
    + apply Qclip_zero.
  - intros k p c Hp Hc. exists (Qclip (c - p)).
    split; [apply (incrementos_serie_passo k cs None p c Hp Hc)|].
    split; [apply Qclip_ge|]. split.
    + intros Hle. rewrite Qclip_id by lra. reflexivity.
    + intros Hle. apply Qclip_zero. lra.
Qed.

Lemma C2_witness :
  let s := sort_values Exemplo.tres_horas in
  exists v,
    nth_error (incrementos_do_local "Curitiba" "PR" s) 2 = Some (Some v) /\
    (5 - 2 <= v)%Q /\ (v == 5 - 2)%Q.
Proof.
  intros s.
  destruct (C2_incrementos_de_um_local Exemplo.tres_horas "Curitiba" "PR")
    as (_ & _ & _ & H).
  - reflexivity.
  - intros r Hr _. cbn in Hr.
    destruct Hr as [<-|[<-|[<-|[]]]]; reflexivity.
  - destruct (H 1%nat 2%Q 5%Q eq_refl eq_refl) as (v & Hv & Hle & Heq & _).
    exists v. split; [exact Hv|]. split; [exact Hle|].
    apply Heq. discriminate.
Defined.

(** ** Temporal Aggregator: the daily table *)

Lemma groupby_diff_length (df : list Registro) :
  forall anterior, List.length (groupby_diff anterior df) = List.length df.
Proof.
  induction df as [|r df IH]; intros anterior; [reflexivity|].
  cbn [groupby_diff]. destruct (ausente (municipio r));
    cbn [List.length]; rewrite IH; reflexivity.
Qed.

Lemma tp_dif_length (df : list Registro) :
  List.length (tp_dif df) = List.length df.
Proof.
  unfold tp_dif, clip_lower, fillna.
  rewrite !length_map, length_combine, groupby_diff_length, length_map.
  apply Nat.min_id.
Qed.

Lemma map_fst_combine {A B} (l : list A) (l' : list B) :
  List.length l = List.length l' -> map fst (combine l l') = l.
Proof.
  revert l'. induction l as [|x l IH]; intros [|y l'] H; try discriminate;
    [reflexivity|].
  cbn. rewrite IH; [reflexivity|]. injection H as H. exact H.
Qed.

Lemma reg_com_tp_dif_e_dia (df : list Registro) :
  map reg (com_tp_dif_e_dia df) = df.
Proof.
  unfold com_tp_dif_e_dia. rewrite map_map. cbn [reg].
  apply map_fst_combine. symmetry. apply tp_dif_length.
Qed.

Lemma grupo_de_com_tp_dif_e_dia (df : list Registro) (x : Linha) :
  In x (com_tp_dif_e_dia df) -> grupo_de x = grupo_do_registro (reg x).
Proof.
  unfold com_tp_dif_e_dia. intros H. apply in_map_iff in H.
  destruct H as (p & <- & _). reflexivity.
Qed.

Lemma reg_membros (k : Grupo) (l : list Linha) :
  (forall x, In x l -> grupo_de x = grupo_do_registro (reg x)) ->
  map reg (membros k l) = do_grupo k (map reg l).
Proof.
  unfold membros, do_grupo. induction l as [|x l IH]; intros H; [reflexivity|].
  cbn [List.filter map]. rewrite (H x (or_introl eq_refl)).
  destruct (grupo_eqb (grupo_do_registro (reg x)) k); cbn [map];
    rewrite IH; auto; intros y Hy; apply H; right; exact Hy.
Qed.

Lemma filter_Permutation_bool {A} (f : A -> bool) (l l' : list A) :
  Permutation l l' -> Permutation (List.filter f l) (List.filter f l').
Proof.
  induction 1 as [|x l l' _ IH|x y l|l l' l'' _ IH1 _ IH2]; cbn.
  - constructor.
  - destruct (f x); [constructor|]; exact IH.
  - destruct (f x), (f y); try reflexivity. apply perm_swap.
  - etransitivity; eassumption.
Qed.

(** *** Means and sums do not depend on the order of the values *)

Lemma validos_Permutation (l l' : list cell) :
  Permutation l l' -> Permutation (validos l) (validos l').
Proof.
  induction 1 as [|x l l' _ IH|x y l|l l' l'' _ IH1 _ IH2]; cbn.
  - constructor.
  - destruct x; cbn; [constructor|]; exact IH.
  - destruct x, y; cbn; try reflexivity. apply perm_swap.
  - etransitivity; eassumption.
Qed.

Lemma Qsoma_Permutation (l l' : list Q) :
  Permutation l l' -> (Qsoma l == Qsoma l')%Q.
Proof.
  induction 1 as [|x l l' _ IH|x y l|l l' l'' _ IH1 _ IH2].
  - reflexivity.
  - rewrite !Qsoma_cons, IH. reflexivity.
  - rewrite !Qsoma_cons. lra.
  - rewrite IH1. exact IH2.
Qed.

Lemma media_Permutation (l l' : list cell) :
  Permutation l l' -> ceq (media l) (media l').
Proof.
  intros H. apply validos_Permutation in H. unfold media.
  pose proof (Permutation_length H) as Hlen.
  pose proof (Qsoma_Permutation _ _ H) as Hsum.
  destruct (validos l) as [|v vs], (validos l') as [|v' vs']; try discriminate.
  - exact I.
  - cbn [ceq]. rewrite Hlen, Hsum. reflexivity.
Qed.

Lemma csub_ceq (x y z : cell) : ceq x y -> ceq (csub x z) (csub y z).
Proof.
  destruct x, y, z; cbn; try tauto. intros H. rewrite H. reflexivity.
Qed.

(** *** The keys of the table *)

Lemma grupo_compare_eq (a b : Grupo) : grupo_compare a b = Eq -> a = b.
Proof.
  destruct a as [[a1 a2] a3], b as [[b1 b2] b3]. unfold grupo_compare. cbn.
  destruct (String.compare a1 b1) eqn:H1; try discriminate.
  destruct (String.compare a2 b2) eqn:H2; try discriminate.
  intros H3. apply String.compare_eq_iff in H1, H2. apply Z.compare_eq in H3.
  congruence.
Qed.

Lemma grupo_compare_refl (a : Grupo) : grupo_compare a a = Eq.
Proof.
  destruct a as [[a1 a2] a3]. unfold grupo_compare. cbn.
  rewrite !compare_refl. apply Z.compare_refl.
Qed.

Lemma inserir_grupo_In (k x : Grupo) (l : list Grupo) :
  In k (inserir_grupo x l) <-> k = x \/ In k l.
Proof.
  induction l as [|y l IH]; cbn.
  - intuition.
  - destruct (grupo_compare x y) eqn:H.
    + apply grupo_compare_eq in H. subst y. cbn. intuition.
    + cbn. intuition.
    + cbn. rewrite IH. intuition.
Qed.

Lemma grupos_In (k : Grupo) (l : list Grupo) : In k (grupos l) <-> In k l.
Proof.
  induction l as [|x l IH]; cbn; [reflexivity|].
  rewrite inserir_grupo_In, IH. intuition.
Qed.

Lemma grupo_eqb_eq (a b : Grupo) : grupo_eqb a b = true <-> a = b.
Proof.
  unfold grupo_eqb. split.
  - destruct (grupo_compare a b) eqn:E; try discriminate.
    intros _. apply grupo_compare_eq, E.
  - intros ->. rewrite grupo_compare_refl. reflexivity.
Qed.

Lemma floor_D_faixa (t d : Z) :
  floor_D t = d <-> d mod 24 = 0 /\ d <= t < d + 24.
Proof.
  unfold floor_D. split.
  - intros <-. split.
    + rewrite Z.mul_comm. apply Z_mod_mult.
    + pose proof (Z.mul_div_le t 24 ltac:(lia)).
      pose proof (Z.mul_succ_div_gt t 24 ltac:(lia)). lia.
  - intros (Hm & Hd).
    apply Z.mod_divide in Hm; [|lia]. destruct Hm as (q & ->).
    assert (t / 24 = q) as ->; [|lia].
    symmetry. apply (Z.div_unique t 24 q (t - q * 24)); lia.
Qed.

Lemma chaves_presentes_iff (x : Linha) :
  chaves_presentes x = true <->
  ausente (municipio (reg x)) = false /\ ausente (uf (reg x)) = false.
Proof.
  unfold chaves_presentes. rewrite andb_true_iff, !negb_true_iff. reflexivity.
Qed.

(** The keys of the table: the groups of the rows that have a name and a
    state. *)
Lemma chaves_dos_presentes (df : list Registro) (k : Grupo) :
  In k (map grupo_de
          (List.filter chaves_presentes (com_tp_dif_e_dia (sort_values df)))) <->
  exists r, In r df /\ ausente (municipio r) = false /\
            ausente (uf r) = false /\ k = grupo_do_registro r.
Proof.
  rewrite in_map_iff. split.
  - intros (x & <- & Hx). apply filter_In in Hx. destruct Hx as (Hx & Hp).
    apply chaves_presentes_iff in Hp. destruct Hp as (Hm & Hu).
    exists (reg x). split; [|split; [exact Hm|split; [exact Hu|]]].
    + apply (Permutation_in _ (sort_values_Permutation df)).
      rewrite <- (reg_com_tp_dif_e_dia (sort_values df)).
      apply in_map. exact Hx.
    + apply (grupo_de_com_tp_dif_e_dia _ _ Hx).
  - intros (r & Hr & Hm & Hu & ->).
    apply (Permutation_in _ (Permutation_sym (sort_values_Permutation df))) in Hr.
    rewrite <- (reg_com_tp_dif_e_dia (sort_values df)) in Hr.
    apply in_map_iff in Hr. destruct Hr as (x & <- & Hx).
    exists x. split; [apply (grupo_de_com_tp_dif_e_dia _ _ Hx)|].
    apply filter_In. split; [exact Hx|].
    apply chaves_presentes_iff. split; assumption.
Qed.

Lemma tabela_diaria_In (df : list Registro) (d : DailyRecord) :
  In d (tabela_diaria df) <->
  exists r, In r df /\ ausente (municipio r) = false /\
    ausente (uf r) = false /\
    let k := grupo_do_registro r in
    let g := do_grupo k (sort_values df) in
    d = K_para_C
          {| d_municipio := fst (fst k); d_uf := snd (fst k); d_data_dia := snd k;
             d_t2m := media (map t2m g);
             d_tp := soma (map l_tp_dif
                             (membros k (com_tp_dif_e_dia (sort_values df))));
             d_u10 := media (map u10 g);
             d_v10 := media (map v10 g) |}.
Proof.
  unfold tabela_diaria, groupby_agg. rewrite in_map_iff.
  set (L := com_tp_dif_e_dia (sort_values df)).
  assert (Hreg : forall k (f : Registro -> cell), map (fun x => f (reg x)) (membros k L)
                             = map f (do_grupo k (sort_values df))).
  { intros k f. rewrite <- (map_map reg f), reg_membros.
    - unfold L. rewrite reg_com_tp_dif_e_dia. reflexivity.
    - apply grupo_de_com_tp_dif_e_dia. }
  split.
  - intros (d0 & <- & Hd0). apply in_map_iff in Hd0.
    destruct Hd0 as (k & <- & Hk). apply grupos_In, chaves_dos_presentes in Hk.
    destruct Hk as (r & Hr & Hm & Hu & ->). exists r.
    split; [exact Hr|]. split; [exact Hm|]. split; [exact Hu|].
    cbv zeta. rewrite !Hreg. reflexivity.
  - intros (r & Hr & Hm & Hu & ->). eexists. split; [reflexivity|].
    apply in_map_iff. exists (grupo_do_registro r). split.
    + cbv zeta. rewrite !Hreg. reflexivity.
    + apply grupos_In, chaves_dos_presentes. exists r. auto.
Qed.

(** *** The group of a row of the table and its means *)

Lemma do_grupo_linhas_do_dia (r0 : Registro) (df : list Registro) :
  do_grupo (grupo_do_registro r0) df
  = linhas_do_dia (municipio r0) (uf r0) (floor_D (data_previsao r0)) df.
Proof.
  unfold do_grupo, linhas_do_dia. apply filter_ext. intros r.
  apply Bool.eq_iff_eq_true.
  rewrite grupo_eqb_eq, !andb_true_iff, !String.eqb_eq, Z.leb_le, Z.ltb_lt.
  unfold grupo_do_registro.
  pose proof (proj1 (floor_D_faixa (data_previsao r0) _) eq_refl) as (Hm & _).
  split.
  - intros E. injection E as E1 E2 E3. apply floor_D_faixa in E3. tauto.
  - intros (((E1 & E2) & H1) & H2). rewrite E1, E2. f_equal.
    apply floor_D_faixa. split; [exact Hm|lia].
Qed.

Lemma validos_presentes (l : list cell) : validos l = valores_presentes l.
Proof.
  induction l as [|[q|] l IH]; [reflexivity| |exact IH].
  change (validos (Some q :: l)) with (q :: validos l).
  cbn [valores_presentes]. rewrite IH. reflexivity.
Qed.

Lemma Qsoma_aritmetica (qs : list Q) : (Qsoma qs == soma_aritmetica qs)%Q.
Proof.
  induction qs as [|q qs IH]; [reflexivity|].
  rewrite Qsoma_cons, IH. reflexivity.
Qed.

(** The mean that the aggregation takes of a column is the arithmetic mean
    of the values that are not missing, in whatever order the rows come. *)
Lemma media_dos_presentes (l l' : list cell) :
  Permutation l l' ->
  match valores_presentes l' with
  | [] => media l = NaN
  | q0 :: qs =>
      exists q, media l = Some q /\ (q == media_aritmetica (q0 :: qs))%Q
  end.
Proof.
  intros Hp. apply validos_Permutation in Hp.
  rewrite (validos_presentes l') in Hp. unfold media.
  destruct (valores_presentes l') as [|q0 qs].
  - apply Permutation_sym, Permutation_nil in Hp. rewrite Hp. reflexivity.
  - destruct (validos l) as [|v vs] eqn:E.
    + apply Permutation_nil in Hp. discriminate Hp.
    + eexists. split; [reflexivity|]. unfold media_aritmetica.
      rewrite (Permutation_length Hp), (Qsoma_Permutation _ _ Hp),
        Qsoma_aritmetica.
      reflexivity.
Qed.

(** C4. Every row of the daily table stands for a midnight and for the
    hourly rows of its municipality and state in the 24 hours from that
    midnight on, of which there is at least one; its temperature is the
    arithmetic mean of the temperatures of those rows that are not missing,
    minus 273.15, and is missing when all of them are.  Every hourly row
    with a name and a state has the row of its municipality, state and day
    in the table.  Before the aggregation the temperature is only copied:
    the hourly rows hold the values of the interpolation as they come. *)
Theorem C4_kelvin_para_celsius_depois_da_media :
  (forall (df : list Registro) (d : DailyRecord),
      In d (tabela_diaria df) ->
      let g := linhas_do_dia (d_municipio d) (d_uf d) (d_data_dia d) df in
      d_data_dia d mod 24 = 0 /\
      g <> [] /\
      match valores_presentes (map t2m g) with
      | [] => d_t2m d = NaN
      | k0 :: ks =>
          exists q, d_t2m d = Some q /\
                    (q == media_aritmetica (k0 :: ks) - (27315 # 100))%Q
      end) /\
  (forall (df : list Registro) (r : Registro),
      In r df ->
      ausente (municipio r) = false ->
      ausente (uf r) = false ->
      exists d, In d (tabela_diaria df) /\
                d_municipio d = municipio r /\ d_uf d = uf r /\
                d_data_dia d <= data_previsao r < d_data_dia d + 24) /\
  (forall DataArray sortby interp (ds : Dataset DataArray) m df,
      extrair_para_municipios sortby interp ds m = Ok df ->
      exists ds', (ds' = ds \/ ds' = sortby ds) /\
                  forall i p, nth_error (fp_linhas df) i = Some p ->
                              p_t2m p = interpolado interp ds' m "t2m" i) /\
  (forall data_prev df,
      map t2m (linhas (com_data_previsao data_prev df))
      = map p_t2m (fp_linhas df)) /\
  (forall registros,
      map t2m (linhas (concat registros))
      = flat_map (fun f => map t2m (linhas f)) registros).
Proof.
  split; [|split; [|split; [|split]]].
  - intros df d Hd g. apply tabela_diaria_In in Hd.
    destruct Hd as (r & Hr & _ & _ & ->). subst g.
    cbn [K_para_C d_municipio d_uf d_data_dia d_t2m grupo_do_registro fst snd].
    rewrite <- do_grupo_linhas_do_dia.
    pose proof (proj1 (floor_D_faixa (data_previsao r) _) eq_refl) as (Hm & _).
    split; [exact Hm|]. split.
    + assert (Hin : In r (do_grupo (grupo_do_registro r) df)).
      { unfold do_grupo. apply filter_In. split; [exact Hr|].
        apply grupo_eqb_eq. reflexivity. }
      intros Hnil. rewrite Hnil in Hin. destruct Hin.
    + assert (Hp : Permutation
                (map t2m (do_grupo (grupo_do_registro r) (sort_values df)))
                (map t2m (do_grupo (grupo_do_registro r) df))).
      { apply Permutation_map. unfold do_grupo.
        apply filter_Permutation_bool, sort_values_Permutation. }
      pose proof (media_dos_presentes _ _ Hp) as Hmed.
      destruct (valores_presentes
                  (map t2m (do_grupo (grupo_do_registro r) df))) as [|q0 qs].
      * rewrite Hmed. reflexivity.
      * destruct Hmed as (q & -> & Hq). cbn [csub zero_absoluto].
        eexists. split; [reflexivity|]. unfold zero_absoluto. rewrite Hq.
        reflexivity.
  - intros df r Hr Hm Hu. eexists. split.
    + apply tabela_diaria_In. exists r. auto.
    + cbn [K_para_C d_municipio d_uf d_data_dia grupo_do_registro fst snd].
      split; [reflexivity|]. split; [reflexivity|].
      apply (floor_D_faixa (data_previsao r) _), eq_refl.
  - intros DataArray sortby interp ds m df H.
    apply extrair_para_municipios_Ok in H. destruct H as (ds' & Hds' & Hl).
    exists ds'. split; [exact Hds'|]. intros i p Hp. rewrite Hl in Hp.
    apply nth_error_map_seq in Hp. subst p. reflexivity.
  - intros data_prev df. unfold com_data_previsao. cbn [linhas].
    rewrite map_map. reflexivity.
  - intros registros. unfold concat. cbn [linhas].
    induction registros as [|f l IH]; [reflexivity|].
    cbn [flat_map]. rewrite map_app, IH. reflexivity.
Qed.

Lemma C4_witness :
  exists d q,
    In d (tabela_diaria Exemplo.tres_temperaturas) /\
    d_t2m d = Some q /\ (q == 2885 # 100)%Q.
Proof.
  destruct C4_kelvin_para_celsius_depois_da_media as (H1 & H2 & _).
  destruct (H2 Exemplo.tres_temperaturas
               {| municipio := "Curitiba"; uf := "PR"; data_previsao := 490368;
                  t2m := Some 300%Q; tp := Some 0%Q; u10 := Some 1%Q;
                  v10 := Some 2%Q |})
    as (d & Hd & Hm & Hu & Hdia).
  - left. reflexivity.
  - reflexivity.
  - reflexivity.
  - destruct (H1 Exemplo.tres_temperaturas d Hd) as (Hmod & _ & Hq).
    cbn [municipio uf data_previsao] in Hm, Hu, Hdia.
    assert (Hd0 : d_data_dia d = 490368).
    { apply Z.mod_divide in Hmod; [|lia]. destruct Hmod as (n & Hn). lia. }
    rewrite Hm, Hu, Hd0 in Hq. cbn in Hq.
    destruct Hq as (q & Hq & Heq).
    exists d, q. split; [exact Hd|]. split; [exact Hq|].
    rewrite Heq. reflexivity.
Defined.

(** * Further properties of the code *)

(** ** Point Interpolator: when it fails and what it returns *)

Lemma map_nth_seq {A} (d : A) (l : list A) :
  forall pre : list A,
    map (fun i => nth i (pre ++ l) d) (seq (List.length pre) (List.length l)) = l.
Proof.
  induction l as [|x l IH]; intros pre; [reflexivity|].
  cbn [List.length seq map]. rewrite nth_middle. f_equal.
  specialize (IH (pre ++ [x])%list).
  rewrite <- app_assoc, length_app, Nat.add_1_r in IH. exact IH.
Qed.

Lemma map_nth_seq_0 {A} (d : A) (l : list A) :
  map (fun i => nth i l d) (seq 0 (List.length l)) = l.
Proof. exact (map_nth_seq d l []). Qed.

(** A frame that is returned has one row for each location, with the names
    and states of the list in its order; its variable columns are those of
    the four names that the dataset holds, in the order t2m, tp, u10, v10;
    a variable that the dataset lacks is NaN in every row. *)
Theorem extrair_para_municipios_forma :
  forall DataArray sortby interp (ds : Dataset DataArray) (m : Municipios)
         (df : FramePontos),
    extrair_para_municipios sortby interp ds m = Ok df ->
    let ds' := orientado sortby ds in
    List.length (fp_linhas df) = List.length (m_linhas m) /\
    map p_municipio (fp_linhas df) = map loc_municipio (m_linhas m) /\
    map p_uf (fp_linhas df) = map loc_uf (m_linhas m) /\
    fp_colunas df = List.filter (tem_variavel ds') quatro /\
    (forall p, In p (fp_linhas df) ->
       (tem_variavel ds' "t2m" = false -> p_t2m p = NaN) /\
       (tem_variavel ds' "tp" = false -> p_tp p = NaN) /\
       (tem_variavel ds' "u10" = false -> p_u10 p = NaN) /\
       (tem_variavel ds' "v10" = false -> p_v10 p = NaN)).
Proof.
  intros DataArray sortby interp ds m df H ds'.
  rewrite extrair_para_municipios_casos in H.
  destruct (latitude ds) as [|p0 resto]; [discriminate|]. cbv zeta in H.
  fold ds' in H.
  destruct (negb (tem "lon" m)); [discriminate|].
  destruct (negb (tem "lat" m) && existsb (tem_variavel ds') quatro);
    [discriminate|].
  destruct (sem_linhas m && existsb (tem_variavel ds') quatro);
    [discriminate|].
  destruct (negb (tem "municipio" m)); [discriminate|].
  destruct (negb (tem "uf" m)); [discriminate|].
  injection H as <-. cbn [fp_linhas fp_colunas].
  split; [rewrite length_map, length_seq; reflexivity|].
  split; [rewrite map_map; unfold linha_interpolada; cbn [p_municipio];
          rewrite <- (length_map loc_municipio (m_linhas m));
          apply map_nth_seq_0|].
  split; [rewrite map_map; unfold linha_interpolada; cbn [p_uf];
          rewrite <- (length_map loc_uf (m_linhas m));
          apply map_nth_seq_0|].
  split; [reflexivity|].
  intros p Hp. apply in_map_iff in Hp. destruct Hp as (i & <- & _).
  unfold tem_variavel, linha_interpolada, interpolado.
  cbn [p_t2m p_tp p_u10 p_v10].
  repeat split; intros Hv;
    match goal with
    | |- context [variaveis ds' !! ?v] =>
        destruct (variaveis ds' !! v); [discriminate Hv|reflexivity]
    end.
Qed.

Lemma extrair_para_municipios_forma_witness :
  exists df,
    extrair_para_municipios Exemplo.sortby_id Exemplo.interp_lon
      {| latitude := [0%Q; 1%Q]; variaveis := {[ "tp" := 1%Q ]} |}
      (Exemplo.um_municipio (-50)) = Ok df /\
    map p_municipio (fp_linhas df) = ["Curitiba"] /\
    fp_colunas df = ["tp"].
Proof.
  eexists. split; [vm_compute; reflexivity|].
  match goal with
  | |- context [map p_municipio (fp_linhas ?df)] =>
      destruct (extrair_para_municipios_forma Q Exemplo.sortby_id
                  Exemplo.interp_lon
                  {| latitude := [0%Q; 1%Q]; variaveis := {[ "tp" := 1%Q ]} |}
                  (Exemplo.um_municipio (-50)) df)
        as (_ & Hn & _ & Hc & _)
  end.
  - vm_compute. reflexivity.
  - split; [exact Hn|]. rewrite Hc. vm_compute. reflexivity.
Defined.



(** A longitude from -360 to 360 is normalised into the range from 0 to
    360, both ends included (in binary floating point the sum of 360 and a
    tiny negative longitude is 360 itself), and normalising a longitude of
    -360 or more a second time changes nothing. *)
Theorem lon_360_faixa_e_idempotencia :
  (forall x : Q, (-360 <= x)%Q -> (x <= 360)%Q ->
     exists y, lon_360 (Some x) = Some y /\ (0 <= y)%Q /\ (y <= 360)%Q) /\
  (forall x : Q, (-360 <= x)%Q ->
     lon_360 (lon_360 (Some x)) = lon_360 (Some x)).
Proof.
  split.
  - intros x Hlo Hhi. destruct (Qlt_le_dec x 0) as [Hneg|Hpos].
    + exists (x + 360)%Q. rewrite (lon_360_negativo x Hneg).
      split; [reflexivity|]. lra.
    + exists x. rewrite (lon_360_nao_negativo x Hpos).
      split; [reflexivity|]. lra.
  - intros x Hlo. destruct (Qlt_le_dec x 0) as [Hneg|Hpos].
    + rewrite (lon_360_negativo x Hneg). apply lon_360_nao_negativo. lra.
    + rewrite (lon_360_nao_negativo x Hpos). apply lon_360_nao_negativo.
      exact Hpos.
Qed.

Lemma lon_360_faixa_e_idempotencia_witness :
  (exists y, lon_360 (Some (-50)%Q) = Some y /\ (0 <= y)%Q /\ (y <= 360)%Q) /\
  lon_360 (lon_360 (Some (-50)%Q)) = lon_360 (Some (-50)%Q).
Proof.
  split.
  - apply (proj1 lon_360_faixa_e_idempotencia); discriminate.
  - apply (proj2 lon_360_faixa_e_idempotencia). discriminate.
Defined.

(** ** Field Extractor: merge and names *)

(** *** Renaming *)


Lemma nomes_cons_NoDup (k v : string) (ps : list (string * string)) :
  List.NoDup (nomes ((k, v) :: ps)) ->
  k <> v /\ ~ In k (nomes ps) /\ ~ In v (nomes ps) /\ List.NoDup (nomes ps).
Proof.
  unfold nomes. cbn [map fst snd app]. intros H.
  inversion H as [|? ? Hk Hr]. subst.
  apply NoDup_remove in Hr. destruct Hr as (Hnd & Hv).
  repeat split; auto.
  - intros ->. apply Hk. apply in_or_app. right. left. reflexivity.
  - intros Hin. apply Hk. apply in_app_or in Hin. apply in_or_app.
    destruct Hin; [left|right; right]; assumption.
Qed.

Lemma renomeado_fora {DataArray} (ps : list (string * string))
      (vs : gmap string DataArray) (x : string) :
  ~ In x (nomes ps) -> renomeado ps vs x = vs !! x.
Proof.
  induction ps as [|[k v] ps IH]; intros Hx; [reflexivity|].
  cbn [renomeado].
  assert (Hk : x <> k).
  { intros ->. apply Hx. unfold nomes. cbn. left. reflexivity. }
  assert (Hv : x <> v).
  { intros ->. apply Hx. unfold nomes. cbn. right. apply in_or_app. right.
    left. reflexivity. }
  apply String.eqb_neq in Hk, Hv. rewrite Hk, Hv. apply IH.
  intros Hin. apply Hx. unfold nomes in *. cbn. right.
  apply in_app_or in Hin. apply in_or_app.
  destruct Hin; [left|right; right]; assumption.
Qed.

Lemma renomeado_ext {DataArray} (ps : list (string * string))
      (vs vs' : gmap string DataArray) (x : string) :
  (forall y, In y (x :: nomes ps) -> vs !! y = vs' !! y) ->
  renomeado ps vs x = renomeado ps vs' x.
Proof.
  induction ps as [|[k v] ps IH]; intros H.
  - apply H. left. reflexivity.
  - cbn [renomeado].
    rewrite (H k), (H v).
    + destruct (String.eqb x k); [reflexivity|].
      destruct (String.eqb x v); [reflexivity|].
      apply IH. intros y [<-|Hy]; apply H; [left; reflexivity|].
      right. unfold nomes in *. cbn. right.
      apply in_app_or in Hy. apply in_or_app.
      destruct Hy; [left|right; right]; assumption.
    + right. unfold nomes. cbn. right. apply in_or_app. right. left.
      reflexivity.
    + right. unfold nomes. cbn. left. reflexivity.
Qed.

Lemma conflito_ext {DataArray} (ps : list (string * string))
      (vs vs' : gmap string DataArray) :
  (forall y, In y (nomes ps) -> vs !! y = vs' !! y) ->
  conflito ps vs -> conflito ps vs'.
Proof.
  intros H (k & v & Hin & Hk & Hv). exists k, v. split; [exact Hin|].
  rewrite <- (H k), <- (H v); [split; assumption|..]; unfold nomes;
    apply in_or_app; [right|left]; apply in_map_iff; exists (k, v); auto.
Qed.

(** Renaming pairs of pairwise distinct names: it fails exactly on a
    conflict, and otherwise every name holds what [renomeado] says. *)
Lemma rename_vars_spec {DataArray} (ps : list (string * string)) :
  List.NoDup (nomes ps) ->
  forall vs : gmap string DataArray,
    match rename_vars ps vs with
    | Some vs' => ~ conflito ps vs /\ forall x, vs' !! x = renomeado ps vs x
    | None => conflito ps vs
    end.
Proof.
  induction ps as [|[k v] ps IH]; intros Hnd vs.
  - cbn. split; [intros (k & v & [] & _)|reflexivity].
  - apply nomes_cons_NoDup in Hnd. destruct Hnd as (Hkv & Hk & Hv & Hnd).
    specialize (IH Hnd). cbn [rename_vars].
    destruct (vs !! k) as [a|] eqn:Ek.
    + destruct (vs !! v) as [b|] eqn:Ev.
      { exists k, v. split; [left; reflexivity|].
        rewrite Ek, Ev. split; eauto. }
      set (vs1 := <[v:=a]> (base.delete k vs)).
      assert (Hsame : forall y, y <> k -> y <> v -> vs !! y = vs1 !! y).
      { intros y Hyk Hyv. unfold vs1.
        rewrite lookup_insert_ne, lookup_delete_ne by congruence.
        reflexivity. }
      assert (Hfora : forall y, In y (nomes ps) -> vs !! y = vs1 !! y).
      { intros y Hy. apply Hsame; intros ->; tauto. }
      specialize (IH vs1). destruct (rename_vars ps vs1) as [vs'|].
      * destruct IH as (Hnc & Hl). split.
        -- intros (k' & v' & [E|Hin] & Hk' & Hv').
           ++ injection E as <- <-. rewrite Ev in Hv'. destruct Hv'; discriminate.
           ++ apply Hnc. apply (conflito_ext ps vs vs1 Hfora).
              exists k', v'. auto.
        -- intros x. rewrite Hl. cbn [renomeado]. rewrite Ek.
           destruct (String.eqb_spec x k) as [->|Hxk].
           ++ rewrite renomeado_fora by exact Hk. unfold vs1.
              rewrite lookup_insert_ne, lookup_delete_eq by congruence.
              reflexivity.
           ++ destruct (String.eqb_spec x v) as [->|Hxv].
              ** rewrite renomeado_fora by exact Hv. unfold vs1.
                 apply lookup_insert_eq.
              ** symmetry. apply renomeado_ext.
                 intros y [<-|Hy]; [apply Hsame; assumption|apply Hfora, Hy].
      * destruct IH as (k' & v' & Hin & Hk' & Hv'). exists k', v'.
        split; [right; exact Hin|].
        rewrite (Hfora k'), (Hfora v'); [split; assumption|..]; unfold nomes;
          apply in_or_app; [right|left]; apply in_map_iff; exists (k', v');
          auto.
    + specialize (IH vs). destruct (rename_vars ps vs) as [vs'|].
      * destruct IH as (Hnc & Hl). split.
        -- intros (k' & v' & [E|Hin] & Hk' & Hv').
           ++ injection E as <- <-. rewrite Ek in Hk'. destruct Hk'; discriminate.
           ++ apply Hnc. exists k', v'. auto.
        -- intros x. rewrite Hl. cbn [renomeado]. rewrite Ek.
           destruct (String.eqb_spec x k) as [->|Hxk].
           ++ rewrite renomeado_fora by exact Hk. exact Ek.
           ++ destruct (String.eqb_spec x v) as [->|Hxv]; [|reflexivity].
              apply renomeado_fora. exact Hv.
      * destruct IH as (k' & v' & Hin & H). exists k', v'.
        split; [right; exact Hin|exact H].
Qed.

Lemma rename_map_NoDup : List.NoDup (nomes rename_map).
Proof.
  unfold nomes, rename_map. cbn.
  repeat constructor; cbn; intros H;
    repeat (destruct H as [H|H]; [discriminate H|]); exact H.
Qed.

(** A dataset that [abrir_gefs_grib] returns is the merge of the datasets
    found with the GRIB short names renamed: nothing is left under "2t",
    "10u" or "10v"; "t2m", "u10" and "v10" hold the array that was under the
    short name, or else what the merge had under the canonical name; every
    other name, "tp" among them, holds what the merge had. *)
Theorem abrir_gefs_grib_nomes_normalizados :
  forall (DataArray Grib : Type) (s3 : string -> option Grib)
         (cfgrib : Grib -> Filtro -> option (Dataset DataArray))
         (fhr : Z) (d : gmap nat (option Grib)) (ds : Dataset DataArray),
    (abrir_gefs_grib s3 cfgrib fhr d).1.1 = Some ds ->
    exists g,
      s3 (path_s3 fhr) = Some g /\
      let mg := merge (nao_nulos (subsets cfgrib g)) in
      latitude ds = latitude mg /\
      (forall x, variaveis ds !! x = renomeado rename_map (variaveis mg) x) /\
      variaveis ds !! "2t" = None /\
      variaveis ds !! "10u" = None /\
      variaveis ds !! "10v" = None /\
      variaveis ds !! "t2m"
      = match variaveis mg !! "2t" with
        | Some a => Some a
        | None => variaveis mg !! "t2m"
        end /\
      variaveis ds !! "tp" = variaveis mg !! "tp".
Proof.
  intros DataArray Grib s3 cfgrib fhr d ds H.
  rewrite abrir_gefs_grib_dataset in H.
  destruct (s3 (path_s3 fhr)) as [g|]; [|discriminate].
  exists g. split; [reflexivity|]. cbv zeta.
  set (mg := merge (nao_nulos (subsets cfgrib g))) in *.
  assert (Hr : rename mg = Some ds).
  { unfold mg. destruct (nao_nulos (subsets cfgrib g)); [discriminate|exact H]. }
  clear H. unfold rename in Hr.
  pose proof (rename_vars_spec rename_map rename_map_NoDup (variaveis mg)) as Hs.
  destruct (rename_vars rename_map (variaveis mg)) as [vs'|]; [|discriminate].
  injection Hr as <-. cbn [latitude variaveis].
  destruct Hs as (_ & Hl).
  split; [reflexivity|]. split; [exact Hl|].
  rewrite !Hl. repeat split.
Qed.

Lemma abrir_gefs_grib_nomes_normalizados_witness :
  exists ds,
    (abrir_gefs_grib Exemplo.s3_cheio Exemplo.cfgrib_tudo 0
       (∅ : gmap nat (option unit))).1.1 = Some ds /\
    variaveis ds !! "2t" = None /\ variaveis ds !! "t2m" = Some 1%Q.
Proof.
  destruct (abrir_gefs_grib Exemplo.s3_cheio Exemplo.cfgrib_tudo 0
              (∅ : gmap nat (option unit))).1.1 as [ds|] eqn:E;
    [|vm_compute in E; discriminate E].
  exists ds. split; [reflexivity|].
  destruct (abrir_gefs_grib_nomes_normalizados Q unit Exemplo.s3_cheio
              Exemplo.cfgrib_tudo 0 ∅ ds E) as (g & _ & H).
  cbv zeta in H. destruct H as (_ & _ & H2t & _ & _ & Ht2m & _).
  split; [exact H2t|]. rewrite Ht2m. vm_compute. reflexivity.
Defined.

(** The message "Erro ao abrir" is printed exactly when the download
    succeeded, at least one dataset was found and the merge holds a variable
    under a GRIB short name together with one under the name it is renamed
    to; the call then returns nothing. *)
Theorem abrir_gefs_grib_erro_ao_abrir :
  forall (DataArray Grib : Type) (s3 : string -> option Grib)
         (cfgrib : Grib -> Filtro -> option (Dataset DataArray))
         (fhr : Z) (d : gmap nat (option Grib)),
    let r := abrir_gefs_grib s3 cfgrib fhr d in
    (In (Print (ErroAoAbrir fhr)) r.2 <->
     exists g,
       s3 (path_s3 fhr) = Some g /\
       nao_nulos (subsets cfgrib g) <> [] /\
       conflito rename_map
                (variaveis (merge (nao_nulos (subsets cfgrib g))))) /\
    (In (Print (ErroAoAbrir fhr)) r.2 -> r.1.1 = None).
Proof.
  intros DataArray Grib s3 cfgrib fhr d r. subst r.
  rewrite abrir_gefs_grib_eq. cbv zeta.
  destruct (s3 (path_s3 fhr)) as [g|].
  - destruct (nao_nulos (subsets cfgrib g)) as [|d0 l] eqn:En.
    + cbn [fst snd]. split; [split|].
      * intros [H|[H|[]]]; discriminate H.
      * intros (g' & Hg & Hne & _). injection Hg as <-.
        rewrite En in Hne. destruct Hne. reflexivity.
      * reflexivity.
    + pose proof (rename_vars_spec rename_map rename_map_NoDup
                    (variaveis (merge (d0 :: l)))) as Hs.
      unfold rename.
      destruct (rename_vars rename_map (variaveis (merge (d0 :: l))))
        as [vs'|]; cbn [fst snd].
      * destruct Hs as (Hnc & _). split; [split|].
        -- intros [H|[]]; discriminate H.
        -- intros (g' & Hg & _ & Hc). injection Hg as <-.
           rewrite En in Hc. destruct (Hnc Hc).
        -- intros [H|[]]; discriminate H.
      * split; [split|].
        -- intros _. exists g. rewrite En. split; [reflexivity|].
           split; [discriminate|exact Hs].
        -- intros _. right. left. reflexivity.
        -- reflexivity.
  - cbn [fst snd]. split; [split|].
    + intros [H|[H|[]]]; discriminate H.
    + intros (g' & Hg & _). discriminate Hg.
    + reflexivity.
Qed.

(** Every call requests one object, that of its hour, and prints at most
    one message: none when it returns a dataset, one when it returns
    nothing.  A failed download is reported and returns nothing whatever the
    GRIB reader would have done. *)
Theorem abrir_gefs_grib_uma_busca :
  forall (DataArray Grib : Type) (s3 : string -> option Grib)
         (cfgrib : Grib -> Filtro -> option (Dataset DataArray))
         (fhr : Z) (d : gmap nat (option Grib)),
    let r := abrir_gefs_grib s3 cfgrib fhr d in
    buscas r.2 = [path_s3 fhr] /\
    (r.1.1 <> None -> mensagens r.2 = []) /\
    (r.1.1 = None -> exists x, mensagens r.2 = [x]) /\
    (s3 (path_s3 fhr) = None ->
     r.1.1 = None /\ mensagens r.2 = [FalhaAoBaixar fhr]).
Proof.
  intros DataArray Grib s3 cfgrib fhr d r. subst r.
  rewrite abrir_gefs_grib_eq. cbv zeta.
  destruct (s3 (path_s3 fhr)) as [g|].
  - destruct (nao_nulos (subsets cfgrib g)) as [|d0 l].
    + cbn. repeat split; try congruence; try discriminate; eauto.
    + destruct (rename (merge (d0 :: l))); cbn;
        repeat split; try congruence; try discriminate; eauto.
  - cbn. repeat split; try congruence; eauto.
Qed.

Lemma abrir_gefs_grib_uma_busca_witness :
  let r := abrir_gefs_grib Exemplo.s3_vazio Exemplo.cfgrib_tudo 6
             (∅ : gmap nat (option unit)) in
  r.1.1 = None /\ mensagens r.2 = [FalhaAoBaixar 6].
Proof.
  apply (abrir_gefs_grib_uma_busca Q unit Exemplo.s3_vazio Exemplo.cfgrib_tudo
           6 ∅).
  reflexivity.
Defined.

(** ** Pipeline Orchestrator: the loop over the hours *)

Lemma buscas_app (a b : list Evento) :
  buscas (a ++ b) = (buscas a ++ buscas b)%list.
Proof. unfold buscas. apply flat_map_app. Qed.

Lemma mensagens_app (a b : list Evento) :
  mensagens (a ++ b) = (mensagens a ++ mensagens b)%list.
Proof. unfold mensagens. apply flat_map_app. Qed.

Section Laco.

Context {DataArray Grib : Type}.
Variable s3 : string -> option Grib.
Variable cfgrib : Grib -> Filtro -> option (Dataset DataArray).
Variable sortby : Dataset DataArray -> Dataset DataArray.
Variable interp : DataArray -> list cell -> list cell -> list cell.
Variable m : Municipios.

(** One call: its dataset, its single request, its new scratch file. *)
Lemma abrir_gefs_grib_chamada (h : Z) (d : gmap nat (option Grib)) :
  let r := abrir_gefs_grib s3 cfgrib h d in
  r.1.1 = dataset_da_hora s3 cfgrib h /\
  buscas r.2 = [path_s3 h] /\
  size r.1.2 = S (size d).
Proof.
  cbv zeta. split; [apply abrir_gefs_grib_resultado|].
  rewrite abrir_gefs_grib_eq. cbv zeta.
  assert (Hsize : forall x, size (<[fresh (dom d) := x]> d) = S (size d)).
  { intros x. apply map_size_insert_None, not_elem_of_dom, is_fresh. }
  destruct (s3 (path_s3 h)) as [g|].
  - destruct (nao_nulos (subsets cfgrib g)) as [|d0 l];
      [split; [reflexivity|apply Hsize]|].
    destruct (rename (merge (d0 :: l))); split;
      first [reflexivity|apply Hsize].
  - split; [reflexivity|apply Hsize].
Qed.

(** The loop, case by case. *)
Lemma laco_total :
  forall (hs : list Z) (registros : list Frame) (d : gmap nat (option Grib)),
    let r := laco s3 cfgrib sortby interp m hs registros d in
    match r.1.1 with
    | Ok registros' =>
        (forall h e, In h hs -> ~ hora_levanta s3 cfgrib sortby interp m h e) /\
        registros'
        = (registros
           ++ flat_map (frames_da_hora s3 cfgrib sortby interp m) hs)%list /\
        buscas r.2 = map path_s3 hs /\
        size r.1.2 = (size d + List.length hs)%nat
    | Raise e =>
        exists hs1 h hs2,
          hs = (hs1 ++ h :: hs2)%list /\
          (forall h' e', In h' hs1 ->
                         ~ hora_levanta s3 cfgrib sortby interp m h' e') /\
          hora_levanta s3 cfgrib sortby interp m h e /\
          buscas r.2 = map path_s3 (hs1 ++ [h]) /\
          size r.1.2 = (size d + List.length hs1 + 1)%nat
    end.
Proof.
  induction hs as [|h hs IH]; intros registros d r.
  - subst r. cbn. split; [intros h e []|].
    rewrite app_nil_r. repeat split. lia.
  - subst r. cbn [laco]. unfold bind.
    destruct (abrir_gefs_grib_chamada h d) as (Hres & Hbus & Hsize).
    destruct (abrir_gefs_grib s3 cfgrib h d) as [[o d1] e1].
    cbn [fst snd] in Hres, Hbus, Hsize.
    assert (Hlev : forall e, hora_levanta s3 cfgrib sortby interp m h e <->
                   exists ds, o = Some ds /\
                     extrair_para_municipios sortby interp ds m = Raise e).
    { intros e. unfold hora_levanta. rewrite <- Hres. reflexivity. }
    assert (Hfr : frames_da_hora s3 cfgrib sortby interp m h =
                  match o with
                  | Some ds =>
                      match extrair_para_municipios sortby interp ds m with
                      | Ok df => [com_data_previsao
                                    (strptime_YmdH (RUN_DATE ++ HOUR) + h) df]
                      | Raise _ => []
                      end
                  | None => []
                  end).
    { unfold frames_da_hora. rewrite <- Hres. reflexivity. }
    destruct o as [ds|].
    + destruct (extrair_para_municipios sortby interp ds m) as [df|exc] eqn:Hext.
      * specialize (IH (registros ++ [com_data_previsao
                          (strptime_YmdH (RUN_DATE ++ HOUR) + h) df])%list d1).
        cbv zeta in IH.
        destruct (laco s3 cfgrib sortby interp m hs _ d1) as [[r2 d2] e2].
        cbn [fst snd] in *. destruct r2 as [regs'|e].
        -- destruct IH as (Hno & Hregs & Hb & Hs).
           split; [|split; [|split]].
           ++ intros h' e' [<-|Hin]; [|apply Hno; exact Hin].
              rewrite Hlev. intros (ds' & E & H). injection E as <-.
              rewrite Hext in H. discriminate H.
           ++ rewrite Hregs. cbn [flat_map]. rewrite Hfr, <- app_assoc.
              reflexivity.
           ++ rewrite buscas_app, Hbus, Hb. reflexivity.
           ++ rewrite Hs, Hsize. cbn [List.length]. lia.
        -- destruct IH as (hs1 & h1 & hs2 & -> & Hno & Hl & Hb & Hs).
           exists (h :: hs1), h1, hs2. split; [reflexivity|].
           split; [|split; [exact Hl|split]].
           ++ intros h' e' [<-|Hin]; [|apply Hno; exact Hin].
              rewrite Hlev. intros (ds' & E & H). injection E as <-.
              rewrite Hext in H. discriminate H.
           ++ rewrite buscas_app, Hbus, Hb. reflexivity.
           ++ rewrite Hs, Hsize. cbn [List.length]. lia.
      * cbn [ret fst snd]. exists [], h, hs. split; [reflexivity|].
        split; [intros h' e' []|]. split.
        -- apply Hlev. exists ds. split; [reflexivity|exact Hext].
        -- rewrite app_nil_r. split; [exact Hbus|]. rewrite Hsize.
           cbn [List.length]. lia.
    + specialize (IH registros d1). cbv zeta in IH.
      destruct (laco s3 cfgrib sortby interp m hs registros d1) as [[r2 d2] e2].
      cbn [fst snd] in *. destruct r2 as [regs'|e].
      * destruct IH as (Hno & Hregs & Hb & Hs).
        split; [|split; [|split]].
        -- intros h' e' [<-|Hin]; [|apply Hno; exact Hin].
           rewrite Hlev. intros (ds' & E & _). discriminate E.
        -- rewrite Hregs. cbn [flat_map]. rewrite Hfr. reflexivity.
        -- rewrite buscas_app, Hbus, Hb. reflexivity.
        -- rewrite Hs, Hsize. cbn [List.length]. lia.
      * destruct IH as (hs1 & h1 & hs2 & -> & Hno & Hl & Hb & Hs).
        exists (h :: hs1), h1, hs2. split; [reflexivity|].
        split; [|split; [exact Hl|split]].
        -- intros h' e' [<-|Hin]; [|apply Hno; exact Hin].
           rewrite Hlev. intros (ds' & E & _). discriminate E.
        -- rewrite buscas_app, Hbus, Hb. reflexivity.
        -- rewrite Hs, Hsize. cbn [List.length]. lia.
Qed.

(** The loop, whole.  When it ends normally, no hour had an interpolation
    that raises; [registros] has grown by the frames of the hours, in the
    order of the schedule; every hour was requested once, in that order; and
    the scratch directory holds one more file for each hour.  When it ends
    with an exception, that is the exception of the first hour whose
    interpolation raises; the hours up to that one were requested, in order,
    and no later one. *)
Theorem laco_completo :
  forall (hs : list Z) (registros : list Frame) (d : gmap nat (option Grib)),
    let r := laco s3 cfgrib sortby interp m hs registros d in
    match r.1.1 with
    | Ok registros' =>
        (forall h e, In h hs -> ~ hora_levanta s3 cfgrib sortby interp m h e) /\
        registros'
        = (registros
           ++ flat_map (frames_da_hora s3 cfgrib sortby interp m) hs)%list /\
        buscas r.2 = map path_s3 hs /\
        size r.1.2 = (size d + List.length hs)%nat
    | Raise e =>
        exists hs1 h hs2,
          hs = (hs1 ++ h :: hs2)%list /\
          (forall h' e', In h' hs1 ->
                         ~ hora_levanta s3 cfgrib sortby interp m h' e') /\
          hora_levanta s3 cfgrib sortby interp m h e /\
          buscas r.2 = map path_s3 (hs1 ++ [h]) /\
          size r.1.2 = (size d + List.length hs1 + 1)%nat
    end.
Proof. exact laco_total. Qed.

End Laco.

(** ** Pipeline Orchestrator: the whole run *)

Lemma laco_sem_escrita {DataArray Grib : Type}
      (s3 : string -> option Grib)
      (cfgrib : Grib -> Filtro -> option (Dataset DataArray))
      sortby interp (m : Municipios) (hs : list Z) (registros : list Frame)
      (d : gmap nat (option Grib)) :
  ~ escreveu (laco s3 cfgrib sortby interp m hs registros d).2.
Proof.
  pose proof (laco_spec s3 cfgrib sortby interp m hs registros d) as H.
  cbv zeta in H. destruct H as (H & _).
  apply so_buscas_e_avisos in H. apply H.
Qed.

(** The run with a readable location list, case by case. *)
Lemma gerar_boletim_diario_casos :
  forall (DataArray Grib : Type) (s3 : string -> option Grib)
         (cfgrib : Grib -> Filtro -> option (Dataset DataArray))
         (sortby : Dataset DataArray -> Dataset DataArray)
         (interp : DataArray -> list cell -> list cell -> list cell)
         (m : Municipios) (d : gmap nat (option Grib)),
    let r := gerar_boletim_diario s3 cfgrib sortby interp (Ok m) d in
    let frames := flat_map (frames_da_hora s3 cfgrib sortby interp m) horas in
    (forall t,
        In (ToCsv t) r.2 <->
        (forall h e, In h horas ->
                     ~ hora_levanta s3 cfgrib sortby interp m h e) /\
        frames <> [] /\ agregar (concat frames) = Ok t) /\
    (forall t,
        In (ToCsv t) r.2 ->
        r.1.1 = Ok tt /\
        exists ev, r.2 = (ev ++ [ToCsv t; Print ArquivoSalvo])%list /\
                   ~ escreveu ev) /\
    (r.1.1 = Ok tt ->
     buscas r.2 = map path_s3 horas /\ size r.1.2 = (size d + 172)%nat) /\
    (forall e,
        r.1.1 = Raise e ->
        (exists h, In h horas /\ hora_levanta s3 cfgrib sortby interp m h e) \/
        (frames <> [] /\ agregar (concat frames) = Raise e)).
Proof.
  intros DataArray Grib s3 cfgrib sortby interp m d r frames. subst r.
  unfold gerar_boletim_diario, bind.
  pose proof (laco_total s3 cfgrib sortby interp m horas [] d) as Hl.
  pose proof (laco_sem_escrita s3 cfgrib sortby interp m horas [] d) as Hne.
  cbv zeta in Hl.
  destruct (laco s3 cfgrib sortby interp m horas [] d) as [[rl d1] e1].
  cbn [fst snd] in Hl, Hne.
  assert (Hnin : forall t, ~ In (ToCsv t) e1)
    by (intros t Ht; apply Hne; exists t; exact Ht).
  destruct rl as [regs|exc].
  - destruct Hl as (Hno & Hregs & Hb & Hs). cbn [app] in Hregs.
    fold frames in Hregs. subst regs.
    destruct frames as [|f l] eqn:Ef.
    + cbn [print emitir ret fst snd app]. split; [|split; [|split]].
      * intros t. split.
        -- intros Hin. apply in_app_or in Hin. destruct Hin as [Hin|Hin];
             [destruct (Hnin t Hin)|].
           cbn in Hin. destruct Hin as [Hin|[]]. discriminate Hin.
        -- intros (_ & Hf & _). destruct Hf. reflexivity.
      * intros t Hin. apply in_app_or in Hin. destruct Hin as [Hin|Hin];
          [destruct (Hnin t Hin)|].
        cbn in Hin. destruct Hin as [Hin|[]]. discriminate Hin.
      * intros _. rewrite buscas_app, Hb. cbn. rewrite app_nil_r.
        split; [reflexivity|exact Hs].
      * intros e H. discriminate H.
    + destruct (agregar (concat (f :: l))) as [t0|exc] eqn:Eag;
        cbn [print emitir ret fst snd app].
      * split; [|split; [|split]].
        -- intros t. split.
           ++ intros Hin. apply in_app_or in Hin. destruct Hin as [Hin|Hin];
                [destruct (Hnin t Hin)|].
              cbn in Hin. destruct Hin as [Hin|[Hin|[]]]; [|discriminate Hin].
              injection Hin as <-. split; [exact Hno|].
              split; [discriminate|reflexivity].
           ++ intros (_ & _ & Ht). injection Ht as <-.
              apply in_or_app. right. left. reflexivity.
        -- intros t Hin. apply in_app_or in Hin. destruct Hin as [Hin|Hin];
             [destruct (Hnin t Hin)|].
           cbn in Hin. destruct Hin as [Hin|[Hin|[]]]; [|discriminate Hin].
           injection Hin as <-. split; [reflexivity|].
           exists e1. split; [reflexivity|exact Hne].
        -- intros _. rewrite buscas_app, Hb. cbn. rewrite app_nil_r.
           split; [reflexivity|exact Hs].
        -- intros e H. discriminate H.
      * rewrite app_nil_r. split; [|split; [|split]].
        -- intros t. split; [intros Hin; destruct (Hnin t Hin)|].
           intros (_ & _ & Ht). discriminate Ht.
        -- intros t Hin. destruct (Hnin t Hin).
        -- intros H. discriminate H.
        -- intros e H. injection H as <-. right.
           split; [discriminate|reflexivity].
  - destruct Hl as (hs1 & h & hs2 & Hhs & Hno & Hlev & Hb & Hs).
    cbn [ret fst snd]. rewrite app_nil_r.
    assert (Hin : In h horas)
      by (rewrite Hhs; apply in_or_app; right; left; reflexivity).
    split; [|split; [|split]].
    + intros t. split; [intros Ht; destruct (Hnin t Ht)|].
      intros (Hn & _). destruct (Hn h exc Hin Hlev).
    + intros t Ht. destruct (Hnin t Ht).
    + intros H. discriminate H.
    + intros e H. injection H as <-. left. exists h. split; assumption.
Qed.

(** A run with a readable location list.  The output file is written
    exactly when no hour has an interpolation that raises, at least one
    hour gave a frame and the aggregation of all the frames succeeds; it is
    then written once, with that table, as the last action before the
    message of success.  A run that ends normally has requested every hour
    of the schedule, in order, and left 172 new files in the scratch
    directory.  A run that ends with an exception got it from the
    interpolation of an hour or from the aggregation. *)
Theorem gerar_boletim_diario_completo :
  forall (DataArray Grib : Type) (s3 : string -> option Grib)
         (cfgrib : Grib -> Filtro -> option (Dataset DataArray))
         (sortby : Dataset DataArray -> Dataset DataArray)
         (interp : DataArray -> list cell -> list cell -> list cell)
         (m : Municipios) (d : gmap nat (option Grib)),
    let r := gerar_boletim_diario s3 cfgrib sortby interp (Ok m) d in
    let frames := flat_map (frames_da_hora s3 cfgrib sortby interp m) horas in
    (forall t,
        In (ToCsv t) r.2 <->
        (forall h e, In h horas ->
                     ~ hora_levanta s3 cfgrib sortby interp m h e) /\
        frames <> [] /\ agregar (concat frames) = Ok t) /\
    (forall t,
        In (ToCsv t) r.2 ->
        r.1.1 = Ok tt /\
        exists ev, r.2 = (ev ++ [ToCsv t; Print ArquivoSalvo])%list /\
                   ~ escreveu ev) /\
    (r.1.1 = Ok tt ->
     buscas r.2 = map path_s3 horas /\ size r.1.2 = (size d + 172)%nat) /\
    (forall e,
        r.1.1 = Raise e ->
        (exists h, In h horas /\ hora_levanta s3 cfgrib sortby interp m h e) \/
        (frames <> [] /\ agregar (concat frames) = Raise e)).
Proof. exact gerar_boletim_diario_casos. Qed.

Lemma gerar_boletim_diario_completo_witness :
  let r := gerar_boletim_diario Exemplo.s3_cheio Exemplo.cfgrib_tudo
             Exemplo.sortby_id Exemplo.interp_lon
             (Ok (Exemplo.um_municipio (-49))) ∅ in
  buscas r.2 = map path_s3 horas /\
  size r.1.2 = (size (∅ : gmap nat (option unit)) + 172)%nat.
Proof.
  apply (proj1 (proj2 (proj2
           (gerar_boletim_diario_completo Q unit Exemplo.s3_cheio
              Exemplo.cfgrib_tudo Exemplo.sortby_id Exemplo.interp_lon
              (Exemplo.um_municipio (-49)) ∅)))).
  vm_compute. reflexivity.
Defined.

(** ** From the hours to the table *)

Lemma frames_da_hora_In {DataArray Grib : Type}
      (s3 : string -> option Grib)
      (cfgrib : Grib -> Filtro -> option (Dataset DataArray))
      sortby interp (m : Municipios) (h : Z) (f : Frame) :
  In f (frames_da_hora s3 cfgrib sortby interp m h) ->
  exists ds df,
    dataset_da_hora s3 cfgrib h = Some ds /\
    extrair_para_municipios sortby interp ds m = Ok df /\
    f = com_data_previsao (strptime_YmdH (RUN_DATE ++ HOUR) + h) df.
Proof.
  unfold frames_da_hora.
  destruct (dataset_da_hora s3 cfgrib h) as [ds|]; [|intros []].
  destruct (extrair_para_municipios sortby interp ds m) as [df|e] eqn:E;
    [|intros []].
  intros [<-|[]]. exists ds, df. auto.
Qed.

Lemma extrair_Ok_df {DataArray} sortby interp (ds : Dataset DataArray)
      (m : Municipios) (df : FramePontos) :
  extrair_para_municipios sortby interp ds m = Ok df ->
  df = {| fp_colunas := List.filter (tem_variavel (orientado sortby ds)) quatro;
          fp_linhas := map (linha_interpolada interp (orientado sortby ds) m)
                           (seq 0 (List.length (m_linhas m))) |}.
Proof.
  rewrite extrair_para_municipios_casos.
  destruct (latitude ds); [discriminate|]. cbv zeta.
  destruct (negb (tem "lon" m)); [discriminate|].
  destruct (negb (tem "lat" m) && _); [discriminate|].
  destruct (sem_linhas m && _); [discriminate|].
  destruct (negb (tem "municipio" m)); [discriminate|].
  destruct (negb (tem "uf" m)); [discriminate|].
  intros H. injection H as <-. reflexivity.
Qed.

Lemma agregar_Ok_colunas (previsoes : Frame) (t : list DailyRecord) :
  agregar previsoes = Ok t ->
  forall v, In v quatro -> In v (colunas previsoes).
Proof.
  unfold agregar, exigir_coluna, tem_coluna. intros H v Hv.
  assert (Hex : forall c, existsb (String.eqb c) (colunas previsoes) = true ->
                          In c (colunas previsoes)).
  { intros c Hc. apply existsb_exists in Hc. destruct Hc as (x & Hx & E).
    apply String.eqb_eq in E. subst. exact Hx. }
  destruct (existsb (String.eqb "tp") (colunas previsoes)) eqn:E1;
    [|discriminate].
  destruct (existsb (String.eqb "t2m") (colunas previsoes)) eqn:E2;
    [|discriminate].
  destruct (existsb (String.eqb "u10") (colunas previsoes)) eqn:E3;
    [|discriminate].
  destruct (existsb (String.eqb "v10") (colunas previsoes)) eqn:E4;
    [|discriminate].
  cbn in Hv. destruct Hv as [<-|[<-|[<-|[<-|[]]]]]; apply Hex; assumption.
Qed.

(** The output file is written only when each of the four variables was
    held by the dataset of at least one hour of the schedule. *)
Theorem escrita_exige_as_quatro_variaveis :
  forall (DataArray Grib : Type) (s3 : string -> option Grib)
         (cfgrib : Grib -> Filtro -> option (Dataset DataArray))
         (sortby : Dataset DataArray -> Dataset DataArray)
         (interp : DataArray -> list cell -> list cell -> list cell)
         (m : Municipios) (d : gmap nat (option Grib)) (t : list DailyRecord),
    In (ToCsv t) (gerar_boletim_diario s3 cfgrib sortby interp (Ok m) d).2 ->
    forall v, In v quatro ->
      exists h ds,
        In h horas /\
        dataset_da_hora s3 cfgrib h = Some ds /\
        tem_variavel (orientado sortby ds) v = true.
Proof.
  intros DataArray Grib s3 cfgrib sortby interp m d t Ht v Hv.
  apply (proj1 (gerar_boletim_diario_casos DataArray Grib s3 cfgrib sortby
                  interp m d)) in Ht.
  destruct Ht as (_ & _ & Hag).
  pose proof (agregar_Ok_colunas _ _ Hag v Hv) as Hin.
  unfold concat in Hin. cbn [colunas] in Hin.
  apply in_flat_map in Hin. destruct Hin as (f & Hf & Hvf).
  apply in_flat_map in Hf. destruct Hf as (h & Hh & Hfh).
  apply frames_da_hora_In in Hfh. destruct Hfh as (ds & df & Hds & Hext & ->).
  exists h, ds. split; [exact Hh|]. split; [exact Hds|].
  apply extrair_Ok_df in Hext. subst df.
  cbn [com_data_previsao colunas fp_colunas] in Hvf.
  apply filter_In in Hvf. apply Hvf.
Qed.

Lemma escrita_exige_as_quatro_variaveis_witness :
  exists h ds,
    In h horas /\
    dataset_da_hora Exemplo.s3_cheio Exemplo.cfgrib_tudo h = Some ds /\
    tem_variavel (orientado Exemplo.sortby_id ds) "tp" = true.
Proof.
  apply (escrita_exige_as_quatro_variaveis Q unit Exemplo.s3_cheio
           Exemplo.cfgrib_tudo Exemplo.sortby_id Exemplo.interp_lon
           (Exemplo.um_municipio (-49)) ∅
           (tabela_diaria
              (linhas (concat (flat_map
                 (frames_da_hora Exemplo.s3_cheio Exemplo.cfgrib_tudo
                    Exemplo.sortby_id Exemplo.interp_lon
                    (Exemplo.um_municipio (-49)))
                 horas))))).
  - apply (nth_error_In _ 172). vm_compute. reflexivity.
  - right. left. reflexivity.
Defined.

(** The output file is written only when some hour of the schedule gave a
    frame with the precipitation column and at least one row: the location
    list has a row then. *)
Lemma escrita_exige_um_registro :
  forall (DataArray Grib : Type) (s3 : string -> option Grib)
         (cfgrib : Grib -> Filtro -> option (Dataset DataArray))
         (sortby : Dataset DataArray -> Dataset DataArray)
         (interp : DataArray -> list cell -> list cell -> list cell)
         (m : Municipios) (d : gmap nat (option Grib)) (t : list DailyRecord),
    In (ToCsv t) (gerar_boletim_diario s3 cfgrib sortby interp (Ok m) d).2 ->
    m_linhas m <> [] /\
    exists h f,
      In h horas /\ In f (frames_da_hora s3 cfgrib sortby interp m h) /\
      In "tp" (colunas f) /\
      List.length (linhas f) = List.length (m_linhas m).
Proof.
  intros DataArray Grib s3 cfgrib sortby interp m d t Ht.
  apply (proj1 (gerar_boletim_diario_casos DataArray Grib s3 cfgrib sortby
                  interp m d)) in Ht.
  destruct Ht as (_ & _ & Hag).
  assert (Htp : In "tp" quatro) by (right; left; reflexivity).
  pose proof (agregar_Ok_colunas _ _ Hag "tp" Htp) as Hin.
  unfold concat in Hin. cbn [colunas] in Hin.
  apply in_flat_map in Hin. destruct Hin as (f & Hf & Hvf).
  apply in_flat_map in Hf. destruct Hf as (h & Hh & Hfh).
  pose proof Hfh as Hfh'.
  apply frames_da_hora_In in Hfh'. destruct Hfh' as (ds & df & _ & Hext & Ef).
  pose proof (extrair_Ok_df _ _ _ _ _ Hext) as Edf.
  assert (Hv : existsb (tem_variavel (orientado sortby ds)) quatro = true).
  { apply existsb_exists. exists "tp". split; [exact Htp|].
    rewrite Ef, Edf in Hvf. cbn [com_data_previsao colunas fp_colunas] in Hvf.
    apply filter_In in Hvf. apply Hvf. }
  assert (Hne : m_linhas m <> []).
  { rewrite extrair_para_municipios_casos in Hext.
    destruct (latitude ds); [discriminate|]. cbv zeta in Hext.
    rewrite Hv, !andb_true_r in Hext.
    destruct (negb (tem "lon" m)); [discriminate|].
    destruct (negb (tem "lat" m)); [discriminate|].
    unfold sem_linhas in Hext. intros E. rewrite E in Hext. discriminate. }
  split; [exact Hne|]. exists h, f.
  split; [exact Hh|]. split; [exact Hfh|]. split; [exact Hvf|].
  rewrite Ef, Edf. cbn [com_data_previsao linhas fp_linhas].
  rewrite !length_map, length_seq. reflexivity.
Qed.

Lemma horas_NoDup : List.NoDup horas.
Proof.
  apply NoDup_ListNoDup. apply (bool_decide_unpack (NoDup horas)).
  vm_compute. exact I.
Qed.

Lemma chaves_da_hora {DataArray Grib : Type}
      (s3 : string -> option Grib)
      (cfgrib : Grib -> Filtro -> option (Dataset DataArray))
      sortby interp (m : Municipios) (h : Z) :
  let ks := map chave_ordenacao
                (flat_map linhas (frames_da_hora s3 cfgrib sortby interp m h)) in
  ks = [] \/
  ks = map (fun n => (n, strptime_YmdH (RUN_DATE ++ HOUR) + h))
           (map loc_municipio (m_linhas m)).
Proof.
  cbv zeta. unfold frames_da_hora.
  destruct (dataset_da_hora s3 cfgrib h) as [ds|]; [|left; reflexivity].
  destruct (extrair_para_municipios sortby interp ds m) as [df|e] eqn:E;
    [|left; reflexivity].
  right. apply extrair_Ok_df in E. subst df.
  cbn [flat_map com_data_previsao linhas fp_linhas]. rewrite app_nil_r.
  rewrite !map_map. unfold chave_ordenacao, linha_interpolada.
  cbn [municipio data_previsao p_municipio].
  rewrite <- (map_map (fun i => nth i (map loc_municipio (m_linhas m)) "")
                      (fun n => (n, strptime_YmdH (RUN_DATE ++ HOUR) + h))).
  rewrite <- (length_map loc_municipio (m_linhas m)), map_nth_seq_0.
  rewrite map_map. reflexivity.
Qed.

Lemma flat_map_flat_map {A B C} (f : A -> list B) (g : B -> list C)
      (l : list A) :
  flat_map g (flat_map f l) = flat_map (fun x => flat_map g (f x)) l.
Proof.
  induction l as [|x l IH]; [reflexivity|].
  cbn [flat_map]. rewrite flat_map_app, IH. reflexivity.
Qed.

Lemma map_flat_map {A B C} (f : A -> list B) (g : B -> C) (l : list A) :
  map g (flat_map f l) = flat_map (fun x => map g (f x)) l.
Proof.
  induction l as [|x l IH]; [reflexivity|].
  cbn [flat_map]. rewrite map_app, IH. reflexivity.
Qed.

Lemma chaves_distintas {DataArray Grib : Type}
      (s3 : string -> option Grib)
      (cfgrib : Grib -> Filtro -> option (Dataset DataArray))
      sortby interp (m : Municipios) (hs : list Z) :
  List.NoDup (map loc_municipio (m_linhas m)) ->
  List.NoDup hs ->
  List.NoDup
    (map chave_ordenacao
         (linhas (concat (flat_map (frames_da_hora s3 cfgrib sortby interp m)
                                   hs)))).
Proof.
  intros Hm Hhs. unfold concat. cbn [linhas].
  rewrite flat_map_flat_map, map_flat_map.
  induction Hhs as [|h hs Hh _ IH]; cbn [flat_map]; [constructor|].
  apply List.NoDup_app.
  - destruct (chaves_da_hora s3 cfgrib sortby interp m h) as [E|E];
      rewrite E; [constructor|].
    apply NoDup_map_NoDup_ForallPairs; [|exact Hm].
    intros a b _ _ H. injection H as H. exact H.
  - exact IH.
  - intros k Hk Hk'. apply in_flat_map in Hk'.
    destruct Hk' as (h' & Hh' & Hk').
    assert (Hsnd : forall x, In k (map chave_ordenacao
                   (flat_map linhas (frames_da_hora s3 cfgrib sortby interp m x)))
                   -> snd k = strptime_YmdH (RUN_DATE ++ HOUR) + x).
    { intros x Hx.
      destruct (chaves_da_hora s3 cfgrib sortby interp m x) as [E|E];
        rewrite E in Hx; [destruct Hx|].
      apply in_map_iff in Hx. destruct Hx as (n & <- & _). reflexivity. }
    pose proof (Hsnd h Hk) as E1. pose proof (Hsnd h' Hk') as E2.
    apply Hh. replace h with h' by lia. exact Hh'.
Qed.

(** When the municipality names of the list are pairwise distinct, no two
    rows of the hourly table that the hours of a schedule without
    repetition give have the same name and timestamp; the Aggregator then
    gives the same result for every rearrangement of those rows.  The
    schedule of the run has no repetition. *)
Theorem tabela_independe_da_ordem_das_horas :
  forall (DataArray Grib : Type) (s3 : string -> option Grib)
         (cfgrib : Grib -> Filtro -> option (Dataset DataArray))
         (sortby : Dataset DataArray -> Dataset DataArray)
         (interp : DataArray -> list cell -> list cell -> list cell)
         (m : Municipios) (hs : list Z),
    List.NoDup (map loc_municipio (m_linhas m)) ->
    List.NoDup hs ->
    let previsoes :=
      concat (flat_map (frames_da_hora s3 cfgrib sortby interp m) hs) in
    List.NoDup (map chave_ordenacao (linhas previsoes)) /\
    (forall previsoes',
        Permutation (linhas previsoes) (linhas previsoes') ->
        (forall c, tem_coluna c previsoes = tem_coluna c previsoes') ->
        agregar previsoes = agregar previsoes') /\
    List.NoDup horas.
Proof.
  intros DataArray Grib s3 cfgrib sortby interp m hs Hm Hhs previsoes.
  assert (Hnd : List.NoDup (map chave_ordenacao (linhas previsoes)))
    by (apply chaves_distintas; assumption).
  split; [exact Hnd|]. split; [|exact horas_NoDup].
  intros previsoes' Hp Hc. unfold agregar, exigir_coluna, tabela_diaria.
  rewrite <- !Hc, (sort_values_permutacao _ _ Hp Hnd). reflexivity.
Qed.

Lemma tabela_independe_da_ordem_das_horas_witness :
  List.NoDup
    (map chave_ordenacao
       (linhas (concat (flat_map
          (frames_da_hora Exemplo.s3_cheio Exemplo.cfgrib_tudo
             Exemplo.sortby_id Exemplo.interp_lon (Exemplo.um_municipio (-49)))
          [0; 3])))).
Proof.
  apply (tabela_independe_da_ordem_das_horas Q unit Exemplo.s3_cheio
           Exemplo.cfgrib_tudo Exemplo.sortby_id Exemplo.interp_lon
           (Exemplo.um_municipio (-49)) [0; 3]).
  - cbn. repeat constructor. intros [].
  - repeat constructor; cbn; intros H;
      repeat (destruct H as [H|H]; [discriminate H|]); exact H.
Defined.

(** ** Temporal Aggregator: the rows of the daily table *)

Lemma grupo_compare_antisym (a b : Grupo) :
  grupo_compare b a = CompOpp (grupo_compare a b).
Proof.
  destruct a as [[a1 a2] a3], b as [[b1 b2] b3]. unfold grupo_compare.
  cbn [fst snd].
  rewrite (String.compare_antisym a1 b1), (String.compare_antisym a2 b2),
    (Z.compare_antisym a3 b3).
  destruct (String.compare b1 a1); cbn [CompOpp]; try reflexivity.
  destruct (String.compare b2 a2); cbn [CompOpp]; reflexivity.
Qed.

Lemma grupo_lt_casos (a b : Grupo) :
  grupo_lt a b <->
  String.compare (fst (fst a)) (fst (fst b)) = Lt \/
  (fst (fst a) = fst (fst b) /\
   (String.compare (snd (fst a)) (snd (fst b)) = Lt \/
    (snd (fst a) = snd (fst b) /\ snd a < snd b))).
Proof.
  unfold grupo_lt, grupo_compare.
  destruct (String.compare (fst (fst a)) (fst (fst b))) eqn:E1.
  - apply String.compare_eq_iff in E1.
    destruct (String.compare (snd (fst a)) (snd (fst b))) eqn:E2.
    + apply String.compare_eq_iff in E2. rewrite Z.compare_lt_iff. split.
      * intros H. right. split; [exact E1|]. right. split; [exact E2|exact H].
      * intros [H|(_ & [H|(_ & H)])]; [discriminate H|discriminate H|exact H].
    + split; [intros _; right; split; [exact E1|left; reflexivity]|reflexivity].
    + split; [discriminate|].
      intros [H|(_ & [H|(H & _)])]; [discriminate H|discriminate H|].
      rewrite H, compare_refl in E2. discriminate E2.
  - split; [intros _; left; reflexivity|reflexivity].
  - split; [discriminate|].
    intros [H|(H & _)]; [discriminate H|].
    rewrite H, compare_refl in E1. discriminate E1.
Qed.

Lemma grupo_lt_trans (a b c : Grupo) :
  grupo_lt a b -> grupo_lt b c -> grupo_lt a c.
Proof.
  rewrite !grupo_lt_casos.
  intros [H1|(E1 & [H1|(E1' & H1)])] [H2|(E2 & [H2|(E2' & H2)])].
  - left. eapply compare_Lt_trans; eassumption.
  - left. rewrite <- E2. exact H1.
  - left. rewrite <- E2. exact H1.
  - left. rewrite E1. exact H2.
  - right. split; [congruence|]. left. eapply compare_Lt_trans; eassumption.
  - right. split; [congruence|]. left. rewrite <- E2'. exact H1.
  - left. rewrite E1. exact H2.
  - right. split; [congruence|]. left. rewrite E1'. exact H2.
  - right. split; [congruence|]. right. split; [congruence|lia].
Qed.

Lemma inserir_grupo_ordenado (k : Grupo) (l : list Grupo) :
  StronglySorted grupo_lt l -> StronglySorted grupo_lt (inserir_grupo k l).
Proof.
  induction 1 as [|y l Hs IH Hy]; cbn [inserir_grupo].
  - repeat constructor.
  - destruct (grupo_compare k y) eqn:E.
    + constructor; assumption.
    + constructor; [constructor; assumption|].
      constructor; [exact E|].
      eapply List.Forall_impl; [|exact Hy]. intros z. apply grupo_lt_trans.
      exact E.
    + constructor; [exact IH|].
      rewrite List.Forall_forall in *. intros z Hz.
      apply inserir_grupo_In in Hz. destruct Hz as [->|Hz]; [|apply Hy, Hz].
      unfold grupo_lt. rewrite grupo_compare_antisym, E. reflexivity.
Qed.

Lemma grupos_ordenado (l : list Grupo) : StronglySorted grupo_lt (grupos l).
Proof.
  induction l as [|k l IH]; cbn; [constructor|].
  apply inserir_grupo_ordenado. exact IH.
Qed.

Lemma ordenado_NoDup (l : list Grupo) :
  StronglySorted grupo_lt l -> List.NoDup l.
Proof.
  induction 1 as [|k l _ IH Hk]; constructor; [|exact IH].
  intros Hin. rewrite List.Forall_forall in Hk. specialize (Hk k Hin).
  unfold grupo_lt in Hk. rewrite grupo_compare_refl in Hk. discriminate Hk.
Qed.

Lemma chaves_da_tabela (df : list Registro) :
  map chave_diaria (tabela_diaria df)
  = grupos (map grupo_de
              (List.filter chaves_presentes
                 (com_tp_dif_e_dia (sort_values df)))).
Proof.
  unfold tabela_diaria, groupby_agg. rewrite !map_map.
  unfold chave_diaria, K_para_C. cbn [d_municipio d_uf d_data_dia].
  rewrite <- (map_id (grupos _)) at 2. apply map_ext.
  intros [[a b] c]. reflexivity.
Qed.

Lemma StronglySorted_mono {A} (R R' : A -> A -> Prop) (l : list A) :
  (forall a b, R a b -> R' a b) -> StronglySorted R l -> StronglySorted R' l.
Proof.
  intros HR. induction 1 as [|a l _ IH Ha]; constructor; [exact IH|].
  eapply List.Forall_impl; [|exact Ha]. intros b. apply HR.
Qed.

(** The rows of the daily table come in strictly ascending order of
    municipality, state and day, so that no key occurs twice; and the keys
    are those of the hourly rows that have a name and a state, with the
    midnight that starts the 24 hours in which the forecast time of the row
    falls. *)
Theorem tabela_diaria_chaves :
  forall df : list Registro,
    StronglySorted chave_menor (map chave_diaria (tabela_diaria df)) /\
    List.NoDup (map chave_diaria (tabela_diaria df)) /\
    (forall m u dia,
        In (m, u, dia) (map chave_diaria (tabela_diaria df)) <->
        ausente m = false /\ ausente u = false /\ dia mod 24 = 0 /\
        exists r, In r df /\ municipio r = m /\ uf r = u /\
                  dia <= data_previsao r < dia + 24).
Proof.
  intros df. rewrite chaves_da_tabela.
  split.
  { eapply StronglySorted_mono; [|apply grupos_ordenado].
    intros a b H. apply grupo_lt_casos, H. }
  split; [apply ordenado_NoDup, grupos_ordenado|].
  intros m u dia. rewrite grupos_In, chaves_dos_presentes. split.
  - intros (r & Hr & Hm & Hu & E). unfold grupo_do_registro in E.
    injection E as -> -> ->.
    pose proof (proj1 (floor_D_faixa (data_previsao r) _) eq_refl) as (H24 & Hd).
    split; [exact Hm|]. split; [exact Hu|]. split; [exact H24|].
    exists r. auto.
  - intros (Hm & Hu & H24 & r & Hr & <- & <- & Hd).
    exists r. split; [exact Hr|]. split; [exact Hm|]. split; [exact Hu|].
    unfold grupo_do_registro. f_equal. symmetry.
    apply floor_D_faixa. split; assumption.
Qed.

(** *** The day of a row and the hourly rows it aggregates *)

(** Every row of the daily table stands for a midnight, and aggregates
    exactly the hourly rows of its municipality name and state whose
    forecast time falls in the 24 hours from that midnight on; there is at
    least one such row. *)
Theorem tabela_diaria_dia :
  forall (df : list Registro) (d : DailyRecord),
    In d (tabela_diaria df) ->
    d_data_dia d mod 24 = 0 /\
    (exists r, In r (do_grupo (chave_diaria d) df)) /\
    (forall r, In r (do_grupo (chave_diaria d) df) <->
               In r df /\ municipio r = d_municipio d /\ uf r = d_uf d /\
               d_data_dia d <= data_previsao r < d_data_dia d + 24).
Proof.
  intros df d Hd. apply tabela_diaria_In in Hd. destruct Hd as (r0 & Hr0 & _ & _ & ->).
  unfold chave_diaria, K_para_C, grupo_do_registro.
  cbn [d_municipio d_uf d_data_dia fst snd].
  pose proof (proj1 (floor_D_faixa (data_previsao r0) _) eq_refl) as (Hm & Hd).
  split; [exact Hm|]. split.
  - exists r0. unfold do_grupo. apply filter_In. split; [exact Hr0|].
    apply grupo_eqb_eq. reflexivity.
  - intros r. unfold do_grupo. rewrite filter_In, grupo_eqb_eq.
    unfold grupo_do_registro. split.
    + intros (Hr & E). injection E as E1 E2 E3.
      apply floor_D_faixa in E3. tauto.
    + intros (Hr & E1 & E2 & E3). split; [exact Hr|].
      rewrite E1, E2. f_equal. apply floor_D_faixa. split; [exact Hm|exact E3].
Qed.

Lemma tabela_diaria_dia_witness :
  d_data_dia ExemploDiario.dia_sem_dados mod 24 = 0 /\
  (exists r, In r (do_grupo (chave_diaria ExemploDiario.dia_sem_dados)
                     ExemploDiario.sem_dados)) /\
  (forall r, In r (do_grupo (chave_diaria ExemploDiario.dia_sem_dados)
                     ExemploDiario.sem_dados) <->
             In r ExemploDiario.sem_dados /\
             municipio r = d_municipio ExemploDiario.dia_sem_dados /\
             uf r = d_uf ExemploDiario.dia_sem_dados /\
             d_data_dia ExemploDiario.dia_sem_dados <= data_previsao r
               < d_data_dia ExemploDiario.dia_sem_dados + 24).
Proof.
  apply (tabela_diaria_dia ExemploDiario.sem_dados ExemploDiario.dia_sem_dados).
  vm_compute. left. reflexivity.
Defined.

(** *** The precipitation and the means of a row *)

Lemma combine_sinal (df : list Registro) :
  forall (anterior : string -> option cell) (p : Registro * cell),
    In p (combine df (clip_lower 0
            (fillna (groupby_diff anterior df) (map tp df)))) ->
    match tp (fst p) with
    | Some _ => exists q, snd p = Some q /\ (0 <= q)%Q
    | None => snd p = NaN
    end.
Proof.
  induction df as [|r df IH]; intros anterior p Hp; [destruct Hp|].
  cbn [groupby_diff] in Hp. destruct (ausente (municipio r));
    cbn [map fillna combine clip_lower fst snd] in Hp;
    (destruct Hp as [<-|Hp]; [|exact (IH _ p Hp)]);
    cbn [fst snd]; destruct (tp r) as [q|].
  - destruct (passo_presente None q) as (v & Hv & H0 & _).
    exists v. split; [exact Hv|exact H0].
  - exact (passo_ausente None).
  - destruct (passo_presente (anterior (municipio r)) q) as (v & Hv & H0 & _).
    exists v. split; [exact Hv|exact H0].
  - exact (passo_ausente (anterior (municipio r))).
Qed.

Lemma linhas_sinal (df : list Registro) (x : Linha) :
  In x (com_tp_dif_e_dia df) ->
  match tp (reg x) with
  | Some _ => exists q, l_tp_dif x = Some q /\ (0 <= q)%Q
  | None => l_tp_dif x = NaN
  end.
Proof.
  unfold com_tp_dif_e_dia. intros H. apply in_map_iff in H.
  destruct H as (p & <- & Hp). cbn [reg l_tp_dif].
  exact (combine_sinal df sem_anterior p Hp).
Qed.

Lemma Qsoma_nao_negativa (l : list Q) :
  List.Forall (fun q => (0 <= q)%Q) l -> (0 <= Qsoma l)%Q.
Proof.
  induction 1 as [|q l Hq _ IH]; [unfold Qsoma; cbn; lra|].
  rewrite Qsoma_cons. lra.
Qed.

Lemma validos_nao_negativos (df : list Registro) (g : list Linha) :
  (forall x, In x g -> In x (com_tp_dif_e_dia df)) ->
  List.Forall (fun q => (0 <= q)%Q) (validos (map l_tp_dif g)).
Proof.
  induction g as [|x g IH]; intros H; [constructor|].
  pose proof (linhas_sinal df x (H x (or_introl eq_refl))) as Hx.
  assert (IHg := IH (fun y Hy => H y (or_intror Hy))).
  cbn [map]. destruct (l_tp_dif x) as [q|] eqn:E; [|exact IHg].
  change (validos (Some q :: map l_tp_dif g))
    with (q :: validos (map l_tp_dif g)).
  constructor; [|exact IHg].
  destruct (tp (reg x)).
  - destruct Hx as (q' & Hq' & H0). injection Hq' as ->. exact H0.
  - discriminate Hx.
Qed.

Lemma validos_nil_iff (l : list cell) :
  validos l = [] <-> forall c, In c l -> c = NaN.
Proof.
  induction l as [|c l IH].
  - split; [intros _ c []|reflexivity].
  - destruct c as [q|].
    + change (validos (Some q :: l)) with (q :: validos l). split.
      * discriminate.
      * intros H. discriminate (H (Some q) (or_introl eq_refl)).
    + change (validos (None :: l)) with (validos l). rewrite IH. split.
      * intros H c [<-|Hc]; [reflexivity|apply H, Hc].
      * intros H c Hc. apply H. right. exact Hc.
Qed.

Lemma In_map_NaN {A} (f : A -> cell) (l : list A) :
  (forall c, In c (map f l) -> c = NaN) <-> (forall r, In r l -> f r = NaN).
Proof.
  split.
  - intros H r Hr. apply H, in_map, Hr.
  - intros H c Hc. apply in_map_iff in Hc. destruct Hc as (r & <- & Hr).
    apply H, Hr.
Qed.

Lemma do_grupo_ordenado (k : Grupo) (df : list Registro) :
  Permutation (do_grupo k (sort_values df)) (do_grupo k df).
Proof.
  apply filter_Permutation_bool, sort_values_Permutation.
Qed.

Lemma membros_do_grupo (k : Grupo) (df : list Registro) (x : Linha) :
  In x (membros k (com_tp_dif_e_dia (sort_values df))) ->
  In x (com_tp_dif_e_dia (sort_values df)) /\ In (reg x) (do_grupo k df).
Proof.
  intros Hx. unfold membros in Hx. apply filter_In in Hx.
  destruct Hx as (Hx & Hk). split; [exact Hx|].
  unfold do_grupo. apply filter_In. split.
  - apply (Permutation_in _ (sort_values_Permutation df)).
    rewrite <- (reg_com_tp_dif_e_dia (sort_values df)).
    apply in_map, Hx.
  - rewrite <- (grupo_de_com_tp_dif_e_dia _ _ Hx). exact Hk.
Qed.

(** The precipitation of a row of the daily table is always a number, never
    NaN, and never negative; it is zero when none of the hourly rows of the
    group has a precipitation value. *)
Theorem precipitacao_diaria_nao_negativa :
  forall (df : list Registro) (d : DailyRecord),
    In d (tabela_diaria df) ->
    exists q, d_tp d = Some q /\ (0 <= q)%Q /\
      ((forall r, In r (do_grupo (chave_diaria d) df) -> tp r = NaN) ->
       q = 0%Q).
Proof.
  intros df d Hd. apply tabela_diaria_In in Hd. destruct Hd as (r0 & Hr0 & _ & _ & ->).
  unfold chave_diaria, K_para_C.
  cbn [d_municipio d_uf d_data_dia d_tp].
  change (fst (fst (grupo_do_registro r0)), snd (fst (grupo_do_registro r0)),
          snd (grupo_do_registro r0)) with (grupo_do_registro r0).
  unfold soma. eexists. split; [reflexivity|]. split.
  - apply Qsoma_nao_negativa, (validos_nao_negativos (sort_values df)).
    intros x Hx. apply (membros_do_grupo _ _ _ Hx).
  - intros H.
    assert (validos (map l_tp_dif
              (membros (grupo_do_registro r0)
                 (com_tp_dif_e_dia (sort_values df)))) = []) as ->;
      [|reflexivity].
    apply validos_nil_iff, In_map_NaN. intros x Hx.
    apply membros_do_grupo in Hx. destruct Hx as (Hx & Hg).
    pose proof (linhas_sinal _ _ Hx) as Hs.
    rewrite (H _ Hg) in Hs. exact Hs.
Qed.

Lemma precipitacao_diaria_nao_negativa_witness :
  exists q, d_tp ExemploDiario.dia_sem_dados = Some q /\ (0 <= q)%Q /\
    ((forall r, In r (do_grupo (chave_diaria ExemploDiario.dia_sem_dados)
                        ExemploDiario.sem_dados) -> tp r = NaN) ->
     q = 0%Q).
Proof.
  apply (precipitacao_diaria_nao_negativa ExemploDiario.sem_dados).
  vm_compute. left. reflexivity.
Defined.

(** The two wind components of a row of the daily table are the
    arithmetic means of the hourly values of its municipality, state and
    day that are not missing, in the units of the model; each one is
    missing when all of those values are. *)
Theorem medias_diarias :
  forall (df : list Registro) (d : DailyRecord),
    In d (tabela_diaria df) ->
    let g := linhas_do_dia (d_municipio d) (d_uf d) (d_data_dia d) df in
    match valores_presentes (map u10 g) with
    | [] => d_u10 d = NaN
    | q0 :: qs =>
        exists q, d_u10 d = Some q /\ (q == media_aritmetica (q0 :: qs))%Q
    end /\
    match valores_presentes (map v10 g) with
    | [] => d_v10 d = NaN
    | q0 :: qs =>
        exists q, d_v10 d = Some q /\ (q == media_aritmetica (q0 :: qs))%Q
    end.
Proof.
  intros df d Hd. apply tabela_diaria_In in Hd.
  destruct Hd as (r0 & Hr0 & _ & _ & ->).
  cbn [K_para_C d_municipio d_uf d_data_dia d_u10 d_v10 grupo_do_registro
       fst snd].
  rewrite <- do_grupo_linhas_do_dia.
  pose proof (do_grupo_ordenado (grupo_do_registro r0) df) as Hp.
  split.
  - exact (media_dos_presentes _ _ (Permutation_map u10 Hp)).
  - exact (media_dos_presentes _ _ (Permutation_map v10 Hp)).
Qed.

Lemma medias_diarias_witness :
  (exists q, d_u10 ExemploDiario.dia_com_dados = Some q /\ (q == 3)%Q) /\
  (exists q, d_v10 ExemploDiario.dia_com_dados = Some q /\ (q == 1)%Q).
Proof.
  destruct (medias_diarias Exemplo.tres_temperaturas
              ExemploDiario.dia_com_dados) as (Hu & Hv).
  - vm_compute. left. reflexivity.
  - split.
    + destruct Hu as (q & Hq & Heq). exists q. split; [exact Hq|].
      rewrite Heq. reflexivity.
    + destruct Hv as (q & Hq & Heq). exists q. split; [exact Hq|].
      rewrite Heq. reflexivity.
Defined.

(** ** Remote Fetcher: the object of a forecast hour *)

Lemma fmt_03d_ate_999 :
  forallb (fun i => let n := Z.of_nat i in
                    Nat.eqb (String.length (fmt_03d n)) 3
                    && Z.eqb (decimal (fmt_03d n)) n)
          (seq 0 1000) = true.
Proof. vm_compute. reflexivity. Qed.

Lemma fmt_03d_volta (n : Z) :
  0 <= n < 1000 ->
  String.length (fmt_03d n) = 3%nat /\ decimal (fmt_03d n) = n.
Proof.
  intros Hn. pose proof fmt_03d_ate_999 as H.
  rewrite forallb_forall in H. specialize (H (Z.to_nat n)).
  rewrite Z2Nat.id in H by lia. cbv zeta in H.
  assert (Hin : In (Z.to_nat n) (seq 0 1000)) by (apply in_seq; lia).
  apply H in Hin. apply andb_prop in Hin. destruct Hin as (H1 & H2).
  split; [apply Nat.eqb_eq, H1|apply Z.eqb_eq, H2].
Qed.

Lemma append_cancela (p x y : string) :
  (p ++ x)%string = (p ++ y)%string -> x = y.
Proof.
  induction p as [|c p IH]; cbn [String.append]; intros H; [exact H|].
  injection H as H. exact (IH H).
Qed.

(** A forecast hour from 0 to 999 is written into the object path with
    exactly three digits that read back as the hour, so two different hours
    never name the same object. *)
Theorem path_s3_distingue_as_horas :
  forall a b : Z,
    0 <= a < 1000 -> 0 <= b < 1000 ->
    String.length (fmt_03d a) = 3%nat /\
    decimal (fmt_03d a) = a /\
    (path_s3 a = path_s3 b -> a = b).
Proof.
  intros a b Ha Hb.
  destruct (fmt_03d_volta a Ha) as (Hl & Hd).
  destruct (fmt_03d_volta b Hb) as (_ & Hd').
  split; [exact Hl|]. split; [exact Hd|].
  unfold path_s3. intros H.
  do 5 apply append_cancela in H.
  rewrite <- Hd, <- Hd', H. reflexivity.
Qed.

Lemma path_s3_distingue_as_horas_witness :
  String.length (fmt_03d 6) = 3%nat /\
  decimal (fmt_03d 6) = 6 /\
  (path_s3 6 = path_s3 834 -> 6 = 834).
Proof. apply (path_s3_distingue_as_horas 6 834); lia. Defined.

(** ** The dashboard: the join with the location list and the totals *)

Lemma filter_map_comuta {A B} (f : B -> bool) (g : A -> B) (l : list A) :
  List.filter f (map g l) = map g (List.filter (fun a => f (g a)) l).
Proof.
  induction l as [|a l IH]; [reflexivity|].
  cbn [map List.filter]. destruct (f (g a)); cbn [map]; rewrite IH; reflexivity.
Qed.

Lemma mesma_chave_eq (d : DailyRecord) (l : Local) :
  mesma_chave d l = true <-> chave_local l = (d_municipio d, d_uf d).
Proof.
  unfold mesma_chave, chave_local.
  rewrite andb_true_iff, !String.eqb_eq. split.
  - intros (-> & ->). reflexivity.
  - intros H. injection H as H1 H2. split; assumption.
Qed.

Lemma filter_chave_unica (d : DailyRecord) (mun : list Local) :
  List.NoDup (map chave_local mun) ->
  (List.length (List.filter (mesma_chave d) mun) <= 1)%nat.
Proof.
  induction mun as [|l mun IH]; intros Hnd; [cbn; lia|].
  cbn [map] in Hnd. apply List.NoDup_cons_iff in Hnd. destruct Hnd as (Hl & Hnd).
  cbn [List.filter]. destruct (mesma_chave d l) eqn:E; [|exact (IH Hnd)].
  assert (List.filter (mesma_chave d) mun = []) as ->; [|cbn; lia].
  destruct (List.filter (mesma_chave d) mun) as [|l' ls] eqn:F; [reflexivity|].
  exfalso. apply Hl.
  assert (Hin : In l' (List.filter (mesma_chave d) mun))
    by (rewrite F; left; reflexivity).
  apply filter_In in Hin. destruct Hin as (Hin & E').
  apply mesma_chave_eq in E, E'. rewrite E, <- E'. apply in_map, Hin.
Qed.

Lemma merge_left_linhas (ds : list DailyRecord) (mun : list Local) :
  List.NoDup (map chave_local mun) ->
  map p_dia (merge_left ds mun) = ds.
Proof.
  intros Hnd. induction ds as [|d ds IH]; [reflexivity|].
  unfold merge_left in *. cbn [flat_map]. rewrite map_app, IH.
  pose proof (filter_chave_unica d mun Hnd) as Hlen.
  destruct (List.filter (mesma_chave d) mun) as [|l [|l' ls]];
    [reflexivity|reflexivity|cbn in Hlen; lia].
Qed.

Lemma merge_left_In (ds : list DailyRecord) (mun : list Local) (x : LinhaPainel) :
  In x (merge_left ds mun) <->
  In (p_dia x) ds /\
  ((exists l, In l mun /\ chave_local l = (d_municipio (p_dia x), d_uf (p_dia x))
              /\ p_lat x = lat l /\ p_lon x = lon l) \/
   ((forall l, In l mun ->
               chave_local l <> (d_municipio (p_dia x), d_uf (p_dia x)))
    /\ p_lat x = NaN /\ p_lon x = NaN)).
Proof.
  unfold merge_left. rewrite in_flat_map. split.
  - intros (d & Hd & Hx).
    destruct (List.filter (mesma_chave d) mun) as [|l0 ls] eqn:F.
    + destruct Hx as [<-|[]]. cbn [p_dia p_lat p_lon].
      split; [exact Hd|]. right. split; [|split; reflexivity].
      intros l Hl E. apply mesma_chave_eq in E.
      assert (Hin : In l (List.filter (mesma_chave d) mun))
        by (apply filter_In; split; assumption).
      rewrite F in Hin. destruct Hin.
    + apply in_map_iff in Hx. destruct Hx as (l & <- & Hl).
      cbn [p_dia p_lat p_lon]. split; [exact Hd|]. left.
      rewrite <- F in Hl. apply filter_In in Hl. destruct Hl as (Hl & E).
      apply mesma_chave_eq in E. exists l. auto.
  - destruct x as [d la lo]. cbn [p_dia p_lat p_lon].
    intros (Hd & [(l & Hl & E & -> & ->)|(Hn & -> & ->)]); exists d;
      (split; [exact Hd|]).
    + assert (Hin : In l (List.filter (mesma_chave d) mun))
        by (apply filter_In; split; [exact Hl|apply mesma_chave_eq, E]).
      destruct (List.filter (mesma_chave d) mun) as [|l0 ls]; [destruct Hin|].
      apply in_map_iff. exists l. split; [reflexivity|exact Hin].
    + destruct (List.filter (mesma_chave d) mun) as [|l0 ls] eqn:F;
        [left; reflexivity|].
      exfalso.
      assert (Hin : In l0 (List.filter (mesma_chave d) mun))
        by (rewrite F; left; reflexivity).
      apply filter_In in Hin. destruct Hin as (Hin & E).
      apply mesma_chave_eq in E. exact (Hn l0 Hin E).
Qed.

Lemma preparar_Ok (df_prev : list DailyRecord) (df_mun : Municipios)
      (df : list LinhaPainel) :
  preparar df_prev df_mun = Ok df ->
  df = merge_left (map em_mm df_prev) (m_linhas df_mun).
Proof.
  unfold preparar.
  destruct (negb (tem "municipio" df_mun)); [discriminate|].
  destruct (negb (tem "uf" df_mun)); [discriminate|].
  intros H. injection H as <-. reflexivity.
Qed.

(** The join of the dashboard is a left join: every forecast row is kept,
    with its precipitation divided by 1000 and nothing else changed, and
    carries the coordinates of a listed location of its name and state, or
    NaN when none is listed; when no two listed locations share name and
    state, the rows of the result are the forecast rows, one for one and in
    their order. *)
Theorem painel_juncao_a_esquerda :
  forall (df_prev : list DailyRecord) (df_mun : Municipios)
         (df : list LinhaPainel),
    preparar df_prev df_mun = Ok df ->
    (forall x, In x df <->
       In (p_dia x) (map em_mm df_prev) /\
       ((exists l, In l (m_linhas df_mun) /\
                   chave_local l = (d_municipio (p_dia x), d_uf (p_dia x)) /\
                   p_lat x = lat l /\ p_lon x = lon l) \/
        ((forall l, In l (m_linhas df_mun) ->
                    chave_local l <> (d_municipio (p_dia x), d_uf (p_dia x)))
         /\ p_lat x = NaN /\ p_lon x = NaN))) /\
    (List.NoDup (map chave_local (m_linhas df_mun)) ->
     map p_dia df = map em_mm df_prev).
Proof.
  intros df_prev df_mun df H. apply preparar_Ok in H. subst df. split.
  - intros x. apply merge_left_In.
  - apply merge_left_linhas.
Qed.

Lemma painel_juncao_a_esquerda_witness :
  map p_dia (merge_left (map em_mm ExemploPainel.dois_dias)
               (m_linhas (Exemplo.um_municipio (-49))))
  = map em_mm ExemploPainel.dois_dias.
Proof.
  apply (painel_juncao_a_esquerda ExemploPainel.dois_dias
           (Exemplo.um_municipio (-49))).
  - reflexivity.
  - cbn. repeat constructor. intros [].
Defined.






Lemma bloco_da_linha (d : DailyRecord) (mun : list Local) :
  exists x resto,
    match List.filter (mesma_chave d) mun with
    | [] => [{| p_dia := d; p_lat := NaN; p_lon := NaN |}]
    | ls => map (fun l => {| p_dia := d; p_lat := lat l; p_lon := lon l |}) ls
    end = x :: resto /\
    p_dia x = d /\ forall y, In y resto -> p_dia y = d.
Proof.
  destruct (List.filter (mesma_chave d) mun) as [|l ls].
  - eexists. exists []. split; [reflexivity|]. split; [reflexivity|intros y []].
  - cbn [map]. eexists. eexists. split; [reflexivity|].
    split; [reflexivity|].
    intros y Hy. apply in_map_iff in Hy. destruct Hy as (l' & <- & _).
    reflexivity.
Qed.

Lemma filter_todos {A} (f : A -> bool) (l : list A) (b : bool) :
  (forall y, In y l -> f y = b) ->
  List.filter f l = if b then l else [].
Proof.
  induction l as [|a l IH]; intros H; [destruct b; reflexivity|].
  cbn [List.filter]. rewrite (H a (or_introl eq_refl)).
  rewrite (IH (fun y Hy => H y (or_intror Hy))). destruct b; reflexivity.
Qed.

Lemma selecao_primeira_linha (muni : string) (mun : list Local)
      (ds : list DailyRecord) :
  match List.filter (fun d => String.eqb (d_municipio d) muni) ds with
  | [] => selecionar_municipio muni (merge_left ds mun) = []
  | d :: _ =>
      exists x resto,
        selecionar_municipio muni (merge_left ds mun) = x :: resto /\
        In x (merge_left ds mun) /\ p_dia x = d
  end.
Proof.
  induction ds as [|d ds IH]; [reflexivity|].
  unfold merge_left, selecionar_municipio in *. cbn [flat_map List.filter].
  rewrite List.filter_app.
  destruct (bloco_da_linha d mun) as (x & resto & -> & Hx & Hr).
  rewrite (filter_todos _ (x :: resto) (String.eqb (d_municipio d) muni)).
  - destruct (String.eqb (d_municipio d) muni).
    + exists x. eexists. split; [reflexivity|].
      split; [left; reflexivity|exact Hx].
    + cbn [app].
      destruct (List.filter (fun d0 => String.eqb (d_municipio d0) muni) ds);
        [exact IH|].
      destruct IH as (x' & resto' & E & Hin & Hd).
      exists x', resto'. split; [exact E|]. split; [|exact Hd].
      right. apply in_or_app. right. exact Hin.
  - intros y [<-|Hy]; [rewrite Hx|rewrite (Hr y Hy)]; reflexivity.
Qed.

(** The location of the map is read from the first selected row.  With the
    coordinate columns in the list, this fails with [IndexError] when the
    forecast table has no row of the selected name; otherwise the map shows
    the coordinates joined to the first forecast row of that name, whatever
    its state. *)
Theorem painel_local_do_mapa :
  forall (df_prev : list DailyRecord) (df_mun : Municipios)
         (df : list LinhaPainel) (muni : string),
    preparar df_prev df_mun = Ok df ->
    tem "lat" df_mun = true ->
    tem "lon" df_mun = true ->
    match List.filter (fun d => String.eqb (d_municipio d) muni) df_prev with
    | [] =>
        local_do_mapa df_mun (selecionar_municipio muni df) = Raise IndexError
    | d :: _ =>
        exists x,
          local_do_mapa df_mun (selecionar_municipio muni df)
          = Ok (p_lat x, p_lon x) /\
          In x df /\ p_dia x = em_mm d
    end.
Proof.
  intros df_prev df_mun df muni H Hlat Hlon. apply preparar_Ok in H. subst df.
  pose proof (selecao_primeira_linha muni (m_linhas df_mun)
                (map em_mm df_prev)) as Hs.
  rewrite (filter_map_comuta (fun d => String.eqb (d_municipio d) muni) em_mm)
    in Hs.
  cbn [em_mm d_municipio] in Hs.
  unfold local_do_mapa. rewrite Hlat, Hlon. cbn [negb].
  destruct (List.filter (fun d => String.eqb (d_municipio d) muni) df_prev)
    as [|d ds]; cbn [map] in Hs.
  - rewrite Hs. reflexivity.
  - destruct Hs as (x & resto & -> & Hin & Hd).
    exists x. split; [reflexivity|]. split; [exact Hin|exact Hd].
Qed.

Lemma painel_local_do_mapa_witness :
  exists x,
    local_do_mapa (Exemplo.um_municipio (-49))
      (selecionar_municipio "Curitiba"
         (merge_left (map em_mm ExemploPainel.dois_dias)
            (m_linhas (Exemplo.um_municipio (-49)))))
    = Ok (p_lat x, p_lon x) /\
    In x (merge_left (map em_mm ExemploPainel.dois_dias)
            (m_linhas (Exemplo.um_municipio (-49)))) /\
    p_dia x = em_mm (ExemploPainel.dia "Curitiba" "PR" 490368 2000).
Proof.
  apply (painel_local_do_mapa ExemploPainel.dois_dias
           (Exemplo.um_municipio (-49)) _ "Curitiba"); reflexivity.
Defined.
